(** * YT-VideoDownloader-Flask: a shallow embedding of [app.py] and
    [production.py], and the properties of the handlers.

    The two source files share the URL validator, the identifier extractor
    and the cache; they differ in the extraction collaborator (pytubefix in
    [app.py], yt-dlp in [production.py]).  The shared code is modelled once,
    the two resolvers and download handlers in the modules [App] and
    [Production]. *)

From Stdlib Require Import Ascii QArith Qround Lqa.
From stdpp Require Import base strings list sorting gmap pretty.

(** ** Python strings

    Strings are sequences of ASCII characters; times, sizes and bitrates,
    floating-point numbers in the source, are rational numbers. *)

Module PyStr.

(** [s.startswith(p)] *)
Fixpoint startswith (p s : string) : bool :=
  match p, s with
  | EmptyString, _ => true
  | String a p', String b s' => if decide (a = b) then startswith p' s' else false
  | String _ _, EmptyString => false
  end.

(** [sub in s] *)
Fixpoint contains (sub s : string) : bool :=
  startswith sub s ||
  match s with
  | EmptyString => false
  | String _ s' => contains sub s'
  end.

(** [s.endswith(p)] *)
Definition endswith (p s : string) : bool :=
  startswith (String.rev p) (String.rev s).

(** [s.split(c)] for a separator of one character: the list is never
    empty, and two adjacent separators give an empty piece. *)
Fixpoint split (c : ascii) (s : string) : list string :=
  match s with
  | EmptyString => [EmptyString]
  | String a s' =>
      if decide (a = c) then EmptyString :: split c s'
      else match split c s' with
           | [] => [String a EmptyString]
           | p :: ps => String a p :: ps
           end
  end.

(** [l[-1]] and [l[0]] on the result of a split, which is never empty. *)
Definition last_piece (l : list string) : string := List.last l EmptyString.
Definition first_piece (l : list string) : string := List.hd EmptyString l.

(** [str.isspace] on ASCII: TAB, LF, VT, FF, CR, FS, GS, RS, US, SPACE. *)
Definition isspace (a : ascii) : bool :=
  let n := nat_of_ascii a in
  ((9 <=? n) && (n <=? 13)) || ((28 <=? n) && (n <=? 32)).

Fixpoint lstrip (s : string) : string :=
  match s with
  | EmptyString => EmptyString
  | String a s' => if isspace a then lstrip s' else s
  end.

(** [s.strip()] *)
Definition strip (s : string) : string :=
  String.rev (lstrip (String.rev (lstrip s))).

Definition isdigit (a : ascii) : bool :=
  let n := nat_of_ascii a in (48 <=? n) && (n <=? 57).

Definition isupper (a : ascii) : bool :=
  let n := nat_of_ascii a in (65 <=? n) && (n <=? 90).

Definition islower (a : ascii) : bool :=
  let n := nat_of_ascii a in (97 <=? n) && (n <=? 122).

Definition isalpha (a : ascii) : bool := isupper a || islower a.

(** [c.lower()] on ASCII *)
Definition lower (a : ascii) : ascii :=
  if isupper a then ascii_of_nat (nat_of_ascii a + 32) else a.

(** [c not in s] *)
Fixpoint lacks (c : ascii) (s : string) : bool :=
  match s with
  | EmptyString => true
  | String a s' => negb (bool_decide (a = c)) && lacks c s'
  end.

(** Truth value of a string: [if s]. *)
Definition truthy (s : string) : bool :=
  match s with EmptyString => false | _ => true end.

(** Truth value of a value that is [None] or a string. *)
Definition truthy_opt (o : option string) : bool :=
  match o with Some s => truthy s | None => false end.

End PyStr.

(** ** Regular expressions

    The patterns of the source use literals, classes, alternation, [?],
    [*], [+] and bounded repetition.  Whether [re.match] finds a match does
    not depend on the order in which a backtracking matcher tries the
    alternatives, so matching is decided with derivatives. *)

Module Re.

Inductive regex : Type :=
  | Void : regex
  | Eps : regex
  | Cls : (ascii -> bool) -> regex
  | Cat : regex -> regex -> regex
  | Alt : regex -> regex -> regex
  | Star : regex -> regex.

Fixpoint nullable (r : regex) : bool :=
  match r with
  | Void => false
  | Eps => true
  | Cls _ => false
  | Cat r1 r2 => nullable r1 && nullable r2
  | Alt r1 r2 => nullable r1 || nullable r2
  | Star _ => true
  end.

(** Smart constructors keep the derivatives small. *)
Definition cat (r1 r2 : regex) : regex :=
  match r1, r2 with
  | Void, _ => Void
  | _, Void => Void
  | Eps, _ => r2
  | _, _ => Cat r1 r2
  end.

Definition alt (r1 r2 : regex) : regex :=
  match r1, r2 with
  | Void, _ => r2
  | _, Void => r1
  | _, _ => Alt r1 r2
  end.

Fixpoint deriv (a : ascii) (r : regex) : regex :=
  match r with
  | Void => Void
  | Eps => Void
  | Cls p => if p a then Eps else Void
  | Cat r1 r2 =>
      if nullable r1 then alt (cat (deriv a r1) r2) (deriv a r2)
      else cat (deriv a r1) r2
  | Alt r1 r2 => alt (deriv a r1) (deriv a r2)
  | Star r1 => cat (deriv a r1) (Star r1)
  end.

(** The whole of [s] is in the language of [r]. *)
Fixpoint fullmatch (r : regex) (s : string) : bool :=
  match s with
  | EmptyString => nullable r
  | String a s' => fullmatch (deriv a r) s'
  end.

(** [re.match(r, s)] finds a match: some prefix of [s] is in the language. *)
Fixpoint prefix_match (r : regex) (s : string) : bool :=
  nullable r ||
  match s with
  | EmptyString => false
  | String a s' => prefix_match (deriv a r) s'
  end.

(** [re.match(r + "$", s)]: without [re.MULTILINE], [$] holds at the end of
    the string and just before a newline that ends the string. *)
Definition match_to_end (r : regex) (s : string) : bool :=
  fullmatch r s || fullmatch (Cat r (Cls (fun a => bool_decide (a = "010"%char)))) s.

(** The language of a pattern: the strings that are a match of the whole
    pattern. *)
Inductive Matches : regex -> string -> Prop :=
  | MEps : Matches Eps EmptyString
  | MCls (p : ascii -> bool) (a : ascii) :
      p a = true -> Matches (Cls p) (String a EmptyString)
  | MCat (r1 r2 : regex) (s1 s2 : string) :
      Matches r1 s1 -> Matches r2 s2 -> Matches (Cat r1 r2) (s1 +:+ s2)
  | MAltL (r1 r2 : regex) (s : string) : Matches r1 s -> Matches (Alt r1 r2) s
  | MAltR (r1 r2 : regex) (s : string) : Matches r2 s -> Matches (Alt r1 r2) s
  | MStarNil (r : regex) : Matches (Star r) EmptyString
  | MStarApp (r : regex) (s1 s2 : string) :
      Matches r s1 -> Matches (Star r) s2 -> Matches (Star r) (s1 +:+ s2).

(** Pattern syntax, under [re.IGNORECASE]. *)
Definition chr (c : ascii) : regex :=
  Cls (fun a => bool_decide (PyStr.lower a = PyStr.lower c)).

Fixpoint lit (s : string) : regex :=
  match s with
  | EmptyString => Eps
  | String c s' => Cat (chr c) (lit s')
  end.

Definition opt (r : regex) : regex := Alt r Eps.
Definition plus (r : regex) : regex := Cat r (Star r).

Fixpoint rep (n : nat) (r : regex) : regex :=
  match n with
  | O => Eps
  | S n' => Cat r (rep n' r)
  end.

Fixpoint alts (rs : list regex) : regex :=
  match rs with
  | [] => Void
  | [r] => r
  | r :: rs' => Alt r (alts rs')
  end.

Fixpoint cats (rs : list regex) : regex :=
  match rs with
  | [] => Eps
  | [r] => r
  | r :: rs' => Cat r (cats rs')
  end.

(** [.] : any character but a newline *)
Definition dot : regex := Cls (fun a => negb (bool_decide (a = "010"%char))).

(** [\w] on ASCII, and the class [[\w-]] *)
Definition is_word (a : ascii) : bool :=
  PyStr.isalpha a || PyStr.isdigit a || bool_decide (a = "_"%char).

Definition is_word_or_dash (a : ascii) : bool :=
  is_word a || bool_decide (a = "-"%char).

(** [[^#\&\?\n\s]] *)
Definition is_id_like (a : ascii) : bool :=
  negb (bool_decide (a = "#"%char) || bool_decide (a = "&"%char)
        || bool_decide (a = "?"%char) || bool_decide (a = "010"%char)
        || PyStr.isspace a).

(** [[0-9A-Za-z_-]]; no flag is given with this class. *)
Definition is_id_char (a : ascii) : bool :=
  PyStr.isdigit a || PyStr.isalpha a
  || bool_decide (a = "_"%char) || bool_decide (a = "-"%char).

(** The first [n] characters of [s], when there are [n] and all of them
    satisfy [p]. *)
Fixpoint take_class (p : ascii -> bool) (n : nat) (s : string) : option string :=
  match n with
  | O => Some EmptyString
  | S n' =>
      match s with
      | EmptyString => None
      | String a s' =>
          if p a then String a <$> take_class p n' s' else None
      end
  end.

(** [re.search] for a pattern [[class]{n}]: the leftmost run of [n]
    characters of the class (group 0 of the match), or [None]. *)
Fixpoint search_class (p : ascii -> bool) (n : nat) (s : string) : option string :=
  match take_class p n s with
  | Some m => Some m
  | None =>
      match s with
      | EmptyString => None
      | String _ s' => search_class p n s'
      end
  end.

End Re.

(** ** URL validation ([is_valid_youtube_url]) *)

(** [youtube_regex] *)
Definition youtube_regex : Re.regex :=
  Re.cats
    [ Re.opt (Re.Cat (Re.opt (Re.cats [Re.lit "http"; Re.opt (Re.chr "s"); Re.chr ":"]))
                     (Re.lit "//"));
      Re.opt (Re.Cat (Re.Alt (Re.lit "www") (Re.lit "m")) (Re.chr "."));
      Re.alts [Re.lit "youtube.com"; Re.lit "youtu.be"; Re.lit "youtube-nocookie.com"];
      Re.alts
        [ Re.cats [Re.chr "/"; Re.Star Re.dot;
                   Re.Alt (Re.chr "?") (Re.chr "&"); Re.lit "v="];
          Re.lit "/v/";
          Re.lit "/embed/";
          Re.lit "/shorts/";
          Re.lit "/watch?v=";
          Re.cats [Re.lit "/watch?"; Re.plus Re.dot; Re.lit "&v="] ];
      Re.rep 11 (Re.Cls Re.is_id_like) ].

(** [youtu_be_regex], without its final [$] (see [Re.match_to_end]) *)
Definition youtu_be_regex : Re.regex :=
  Re.cats
    [ Re.opt (Re.cats [Re.lit "http"; Re.opt (Re.chr "s"); Re.lit "://"]);
      Re.opt (Re.lit "www.");
      Re.Alt (Re.lit "youtu.be/")
             (Re.Cat (Re.lit "youtube.com/")
                     (Re.alts [Re.lit "embed/"; Re.lit "v/"; Re.lit "watch?v=";
                               Re.cats [Re.lit "watch?"; Re.plus Re.dot; Re.lit "&v="]]));
      Re.rep 11 (Re.Cls Re.is_word_or_dash);
      Re.Star (Re.Cls (fun a => negb (PyStr.isspace a))) ].

Definition is_valid_youtube_url (url : string) : bool :=
  if negb (Re.prefix_match youtube_regex url)
  then Re.match_to_end youtu_be_regex url
  else true.

(** [re.match(youtube_regex, url)] succeeds: a prefix of [url] is in the
    language of the pattern. *)
Definition matches_primary (url : string) : Prop :=
  exists p q : string, url = p +:+ q /\ Re.Matches youtube_regex p.

(** [re.match(youtu_be_regex, url)] succeeds: [url], or [url] without the
    newline that ends it, is in the language of the pattern before [$]. *)
Definition matches_secondary (url : string) : Prop :=
  Re.Matches youtu_be_regex url
  \/ exists u : string, url = u +:+ String "010" EmptyString /\ Re.Matches youtu_be_regex u.

(** ** Library functions of the Python runtime

    [urllib.parse.urlparse], [urllib.parse.parse_qs] and [hashlib.md5] are
    not code of this repository: the program is modelled over any
    implementation of them.  [urlparse] gives [None] when the library raises
    [ValueError]. *)

Record ParseResult : Type := mkParseResult {
  netloc : string;
  path : string;
  query : string
}.

Class PyLib : Type := {
  urlparse : string -> option ParseResult;
  parse_qs : string -> gmap string (list string);
  md5_hexdigest : string -> string
}.

(** ** Identifier extraction ([extract_video_id])

    The result is [None] where the source returns [None], also through its
    [except] clause. *)

Definition extract_video_id `{!PyLib} (url : string) : option string :=
  if PyStr.contains "youtu.be" url then
    Some (PyStr.first_piece (PyStr.split "?" (PyStr.last_piece (PyStr.split "/" url))))
  else
    match urlparse url with
    | None => None
    | Some parsed =>
        let from_domain : option (option string) :=
          if PyStr.contains "youtube.com" (netloc parsed) then
            match parse_qs (query parsed) !! "v" with
            | Some vs => Some (head vs)
            | None =>
                if PyStr.contains "embed" (path parsed)
                then Some (Some (PyStr.last_piece (PyStr.split "/" (path parsed))))
                else None
            end
          else None in
        match from_domain with
        | Some r => r
        | None =>
            let path_segments := filter (fun s => PyStr.truthy s = true)
                                        (PyStr.split "/" (path parsed)) in
            if bool_decide (path_segments <> [])
               && (String.length (PyStr.last_piece path_segments) =? 11)%nat
            then Some (PyStr.last_piece path_segments)
            else Re.search_class Re.is_id_char 11 url
        end
    end.

(** ** JSON values

    What [json.load] returns and [json.dump] and [jsonify] accept.  Python's
    [None] is [JNull]; a dict is the list of its items in insertion order. *)

#[local] Set Warnings "-register-all".

Inductive json : Type :=
  | JNull : json
  | JBool : bool -> json
  | JNum : Q -> json
  | JStr : string -> json
  | JList : list json -> json
  | JDict : list (string * json) -> json.

(** [if v] *)
Definition json_truthy (v : json) : bool :=
  match v with
  | JNull => false
  | JBool b => b
  | JNum q => negb (Qeq_bool q 0)
  | JStr s => PyStr.truthy s
  | JList l => bool_decide (l <> [])
  | JDict l => bool_decide (l <> [])
  end.

Fixpoint assoc (k : string) (l : list (string * json)) : option json :=
  match l with
  | [] => None
  | (k', v) :: l' => if decide (k = k') then Some v else assoc k l'
  end.

(** ** Exceptions and state

    A computation runs on a [World], the part of the file system and of the
    process the handlers touch, and returns a value or raises; an exception
    is represented by its message, [str(e)], which is all the handlers read
    of it. *)

Inductive outcome (A : Type) : Type :=
  | Returned : A -> outcome A
  | Raised : string -> outcome A.
Arguments Returned {A} _.
Arguments Raised {A} _.

(** A file of the cache directory, as reading it ends.  A file that parses
    is represented by the value [json.load] returns: for the values the
    handlers store (dicts with string keys, lists, strings, numbers, [None])
    that is the value [json.dump] was given. *)
Inductive cache_file : Type :=
  | Unreadable : cache_file          (* opening or reading the file fails *)
  | Unparsable : cache_file          (* [json.load] rejects the content *)
  | Document : json -> cache_file.   (* [json.load] returns this value *)

(** A call the handlers make, recorded in the order made. *)
Inductive call : Type :=
  | CallExtractVideoId : string -> call
  | CallProbe : string -> call
  | CallFetch : string -> string -> call.

Record World : Type := mkWorld {
  cache_dir : gmap string cache_file;            (* files of [CACHE_DIR], by name *)
  temp_dirs : gmap string (list (string * string)); (* directories made by [mkdtemp]: (file name, content) *)
  calls : list call
}.

Definition M (A : Type) : Type := World -> outcome A * World.

Definition ret {A} (a : A) : M A := fun w => (Returned a, w).
Definition raise {A} (e : string) : M A := fun w => (Raised e, w).

Definition bind {A B} (m : M A) (k : A -> M B) : M B :=
  fun w =>
    match m w with
    | (Returned a, w') => k a w'
    | (Raised e, w') => (Raised e, w')
    end.

(** [try: m  except Exception as e: h e] *)
Definition try_except {A} (m : M A) (h : string -> M A) : M A :=
  fun w =>
    match m w with
    | (Returned a, w') => (Returned a, w')
    | (Raised e, w') => h e w'
    end.

(** The outcome of a call that changes nothing in the world. *)
Definition lift {A} (o : outcome A) : M A := fun w => (o, w).

Definition modify (f : World -> World) : M unit := fun w => (Returned tt, f w).
Definition gets {A} (f : World -> A) : M A := fun w => (Returned (f w), w).

Notation "'let!' x ':=' m 'in' k" := (bind m (fun x => k))
  (at level 10, x name, m at level 100, k at level 200, only parsing).
Notation "m ;;; k" := (bind m (fun _ => k))
  (at level 100, right associativity, only parsing).

Definition set_cache_dir (c : gmap string cache_file) (w : World) : World :=
  mkWorld c (temp_dirs w) (calls w).
Definition set_temp_dirs (t : gmap string (list (string * string))) (w : World) : World :=
  mkWorld (cache_dir w) t (calls w).
Definition logged (c : call) (w : World) : World :=
  mkWorld (cache_dir w) (temp_dirs w) (calls w ++ [c]).
Definition log (c : call) : M unit := modify (logged c).

(** ** The cache ([get_cache_key], [get_cached_info], [cache_info]) *)

Definition CACHE_DURATION : Q := 3600.

Definition Qltb (x y : Q) : bool := negb (Qle_bool y x).

Definition get_cache_key `{!PyLib} (url : string) : string := md5_hexdigest url.

(** [data[k]]: [KeyError] on a dict without the key, [TypeError] on a value
    that is not a dict. *)
Definition subscript (data : json) (k : string) : outcome json :=
  match data with
  | JDict items =>
      match assoc k items with
      | Some v => Returned v
      | None => Raised ("'" +:+ k +:+ "'")
      end
  | _ => Raised "TypeError"
  end.

(** [now - v]: defined on numbers, and on booleans, which are integers.
    The difference is the exact one.  The source subtracts floats: that is
    exact for two readings of the clock less than a factor two apart, as the
    timestamp of a record [cache_info] wrote and the time of a later lookup
    are; for other numbers a cache file could hold the float difference may
    be rounded, and an integer beyond the range of floats raises
    [OverflowError].  Statements about the age of a record are made of the
    records [cache_info] writes. *)
Definition time_since (now : Q) (v : json) : outcome Q :=
  match v with
  | JNum t => Returned (now - t)%Q
  | JBool b => Returned (now - (if b then 1 else 0))%Q
  | _ => Raised "TypeError"
  end.

(** [with open(cache_file, 'r') as f: data = json.load(f)] *)
Definition json_load (f : cache_file) : outcome json :=
  match f with
  | Unreadable => Raised "OSError"
  | Unparsable => Raised "JSONDecodeError"
  | Document d => Returned d
  end.

(** The part of [get_cached_info] under [try]: [Some v] when it returns
    [v], [None] when control leaves the [if] without returning. *)
Definition read_cached (now : Q) (f : cache_file) : outcome (option json) :=
  match json_load f with
  | Raised e => Raised e
  | Returned data =>
      match subscript data "timestamp" with
      | Raised e => Raised e
      | Returned ts =>
          match time_since now ts with
          | Raised e => Raised e
          | Returned age =>
              if Qltb age CACHE_DURATION then
                match subscript data "info" with
                | Raised e => Raised e
                | Returned info => Returned (Some info)
                end
              else Returned None
          end
      end
  end.

(** [get_cached_info(cache_key)], with [now] the value [time.time()] gives. *)
Definition get_cached_info (now : Q) (cache_key : string) : M json :=
  let cache_file := cache_key +:+ ".json" in
  let! f := gets (fun w => cache_dir w !! cache_file) in
  match f with
  | Some f =>
      let! r := try_except (lift (read_cached now f)) (fun _ => ret None) in
      match r with
      | Some info => ret info
      | None => ret JNull
      end
  | None => ret JNull
  end.

(** How the write of a cache file ends. *)
Inductive write_outcome : Type :=
  | Written : write_outcome
  | OpenFailed : string -> write_outcome     (* [open] raises: the file is as before *)
  | DumpFailed : string -> write_outcome.    (* the file is opened and truncated, the write raises *)

(** [with open(cache_file, 'w') as f: json.dump(doc, f)] *)
Definition json_dump (wo : write_outcome) (cache_file : string) (doc : json) : M unit :=
  match wo with
  | Written =>
      modify (fun w => set_cache_dir (<[cache_file := Document doc]> (cache_dir w)) w)
  | OpenFailed e => raise e
  | DumpFailed e =>
      modify (fun w => set_cache_dir (<[cache_file := Unparsable]> (cache_dir w)) w) ;;;
      raise e
  end.

(** [cache_info(cache_key, info)] *)
Definition cache_info (wo : write_outcome) (now : Q) (cache_key : string) (info : json) : M unit :=
  let cache_file := cache_key +:+ ".json" in
  try_except
    (json_dump wo cache_file (JDict [("info", info); ("timestamp", JNum now)]))
    (fun _ => ret tt).

(** ** Format descriptors and video information *)

Record FormatDescriptor : Type := mkFormat {
  fd_type : string;
  quality : string;
  fd_mime_type : string;
  fd_itag : string;
  filesize_mb : option Q;
  fd_format_id : string;
  fd_ext : string
}.

Record VideoInfo : Type := mkVideoInfo {
  title : string;
  thumbnail : string;
  formats : list FormatDescriptor
}.

Definition json_of_option_num (o : option Q) : json :=
  match o with Some q => JNum q | None => JNull end.

(** The dict literal of a descriptor. *)
Definition json_of_format (d : FormatDescriptor) : json :=
  JDict [ ("type", JStr (fd_type d));
          ("quality", JStr (quality d));
          ("mime_type", JStr (fd_mime_type d));
          ("itag", JStr (fd_itag d));
          ("filesize_mb", json_of_option_num (filesize_mb d));
          ("format_id", JStr (fd_format_id d));
          ("ext", JStr (fd_ext d)) ].

(** The dict literal [video_info]. *)
Definition json_of_video_info (v : VideoInfo) : json :=
  JDict [ ("title", JStr (title v));
          ("thumbnail", JStr (thumbnail v));
          ("formats", JList (json_of_format <$> formats v)) ].

Definition quality_priorities : list string :=
  ["1080p"; "720p"; "480p"; "360p"; "240p"].

(** [l.index(x)], when [x in l] *)
Fixpoint index_of (x : string) (l : list string) : option nat :=
  match l with
  | [] => None
  | y :: l' => if decide (x = y) then Some 0%nat else S <$> index_of x l'
  end.

(** The key of [formats.sort]:
    [quality_priorities.index(q) if q in quality_priorities else 99] *)
Definition priority (q : string) : nat :=
  match index_of q quality_priorities with
  | Some i => i
  | None => 99
  end.

(** [list.sort(key=...)] is stable: an element goes before the elements
    already placed that have the same key, as it came before them. *)
Fixpoint insert_by_key {A} (key : A -> nat) (x : A) (l : list A) : list A :=
  match l with
  | [] => [x]
  | y :: l' => if (key x <=? key y)%nat then x :: y :: l' else y :: insert_by_key key x l'
  end.

Fixpoint sort_by_key {A} (key : A -> nat) (l : list A) : list A :=
  match l with
  | [] => []
  | x :: l' => insert_by_key key x (sort_by_key key l')
  end.

Definition sort_formats (l : list FormatDescriptor) : list FormatDescriptor :=
  sort_by_key (fun x => priority (quality x)) l.

(** [round(x, 1)]: to the nearest tenth, a tie to the even one. *)
Definition round1 (x : Q) : Q :=
  let t := (x * 10)%Q in
  let fl := Qfloor t in
  let fr := (t - inject_Z fl)%Q in
  let m := if Qltb fr (1 # 2) then fl
           else if Qltb (1 # 2) fr then (fl + 1)%Z
           else if Z.even fl then fl else (fl + 1)%Z in
  (m # 10)%Q.

(** [filesize / (1024 * 1024)] rounded to a tenth. *)
Definition megabytes (filesize : Q) : Q := round1 (filesize / 1048576)%Q.

(** [int(x)] of a number: truncation towards zero. *)
Definition int_of_Q (x : Q) : Z :=
  if Qle_bool 0 x then Qfloor x else Qceiling x.

(** ** Requests and responses *)

Inductive body : Type :=
  | JsonBody : json -> body
  | FileBody : string -> string -> string -> body.   (* data, download name, mimetype *)

Record Response : Type := mkResponse {
  resp_body : body;
  status : Z
}.

(** [jsonify(v)] and [jsonify({'error': msg}), code] *)
Definition jsonify (v : json) : Response := mkResponse (JsonBody v) 200.
Definition error_response (msg : string) (code : Z) : Response :=
  mkResponse (JsonBody (JDict [("error", JStr msg)])) code.

(** The body of a POST request: [request.is_json], and what
    [request.get_json()] returns or raises. *)
Record InfoRequest : Type := mkInfoRequest {
  is_json : bool;
  get_json : outcome json
}.

(** What the environment does during one run of [get_video_info]: the two
    readings of the clock, the end of the cache write, and the answer of the
    extraction collaborator. *)
Record InfoEnv (A : Type) : Type := mkInfoEnv {
  t_lookup : Q;
  t_store : Q;
  cache_write : write_outcome;
  probe : outcome A
}.
Arguments t_lookup {A} _.
Arguments t_store {A} _.
Arguments cache_write {A} _.
Arguments probe {A} _.

(** ['url' not in data] *)
Definition url_missing (data : json) : outcome bool :=
  match data with
  | JDict items => Returned (bool_decide (assoc "url" items = None))
  | JList l => Returned (negb (existsb (fun v => match v with
                                               | JStr s => bool_decide (s = "url")
                                               | _ => false
                                               end) l))
  | JStr s => Returned (negb (PyStr.contains "url" s))
  | _ => Raised "TypeError"
  end.

(** [v.strip()] *)
Definition json_strip (v : json) : outcome string :=
  match v with
  | JStr s => Returned (PyStr.strip s)
  | _ => Raised "AttributeError"
  end.

(** [not video_id or len(video_id) != 11] *)
Definition bad_video_id (video_id : option string) : bool :=
  match video_id with
  | None => true
  | Some v => negb (PyStr.truthy v) || negb (String.length v =? 11)%nat
  end.

Definition clean_url_of (video_id : string) : string :=
  "https://www.youtube.com/watch?v=" +:+ video_id.

(** [get_video_info] is the same in both files but for the collaborator,
    for which [resolve] stands: it turns the collaborator's answer into
    [title], [thumbnail] and [formats], or raises.  The function is given
    block by block, from the innermost [try] outwards. *)

(** The body of the innermost [try]: the collaborator call, the construction
    of [formats], the test for an empty list, the cache write. *)
Definition resolve_block {A : Type} (resolve : string -> A -> outcome VideoInfo)
    (env : InfoEnv A) (video_id clean_url cache_key : string) : M Response :=
  log (CallProbe clean_url) ;;;
  let! yt := lift (probe env) in
  let! video_info := lift (resolve video_id yt) in
  if bool_decide (formats video_info = []) then
    ret (error_response
           "No downloadable formats found. The video may have restrictions." 400)
  else
  cache_info (cache_write env) (t_store env) cache_key (json_of_video_info video_info) ;;;
  ret (jsonify (json_of_video_info video_info)).

(** The body of the middle [try]: extraction of the identifier, the cache
    lookup, and the innermost [try] with its handler. *)
Definition lookup_block `{!PyLib} {A : Type} (resolve : string -> A -> outcome VideoInfo)
    (env : InfoEnv A) (url : string) : M Response :=
  log (CallExtractVideoId url) ;;;
  let video_id := extract_video_id url in
  if bad_video_id video_id then
    ret (error_response "Could not extract video ID from URL" 400)
  else
  let video_id := default "" video_id in
  let clean_url := clean_url_of video_id in
  let cache_key := get_cache_key clean_url in
  let! cached_info := get_cached_info (t_lookup env) cache_key in
  if json_truthy cached_info then ret (jsonify cached_info) else
  try_except
    (resolve_block resolve env video_id clean_url cache_key)
    (fun e => ret (error_response ("Error accessing YouTube: " +:+ e) 400)).

(** The whole function: the checks of the request, the middle [try] with its
    handler, and the handler of the outer [try]. *)
Definition get_video_info_with `{!PyLib} {A : Type}
    (resolve : string -> A -> outcome VideoInfo)
    (env : InfoEnv A) (req : InfoRequest) : M Response :=
  try_except
    (if negb (is_json req) then ret (error_response "Request must be JSON" 400) else
     let! data := lift (get_json req) in
     let! missing := lift (if negb (json_truthy data) then Returned true
                           else url_missing data) in
     if missing then ret (error_response "URL is required" 400) else
     let! raw := lift (subscript data "url") in
     let! url := lift (json_strip raw) in
     if negb (PyStr.truthy url) then ret (error_response "URL cannot be empty" 400) else
     if negb (is_valid_youtube_url url) then
       ret (error_response "Invalid YouTube URL. Please enter a valid YouTube video URL." 400)
     else
     try_except
       (lookup_block resolve env url)
       (fun e => ret (error_response ("Error processing YouTube video: " +:+ e) 400)))
    (fun e => ret (error_response ("An unexpected error occurred: " +:+ e) 500)).

(** ** The download handler: what both files share *)

(** A file of a temporary directory: the directory and the file's name;
    [os.path.join(root, file)] builds one, [os.path.basename] reads the name. *)
Definition file_path : Type := (string * string)%type.

(** The world after a directory is made, removed, and written into. *)
Definition prepared (d : string) (w : World) : World :=
  set_temp_dirs (<[d := []]> (temp_dirs w)) w.
Definition removed (d : string) (w : World) : World :=
  set_temp_dirs (delete d (temp_dirs w)) w.
Definition written_to (d : string) (files : list (string * string)) (w : World) : World :=
  set_temp_dirs (alter (fun old => old ++ files) d (temp_dirs w)) w.

(** [tempfile.mkdtemp()], with the name the system offers, or the error it
    raises; the call fails when that name is already taken. *)
Definition mkdtemp (offered : outcome string) : M string :=
  match offered with
  | Raised e => raise e
  | Returned d =>
      fun w =>
        match temp_dirs w !! d with
        | Some _ => (Raised "FileExistsError", w)
        | None => (Returned d, prepared d w)
        end
  end.

(** [shutil.rmtree(temp_dir, ignore_errors=True)] *)
Definition rmtree (d : string) : M unit := modify (removed d).

(** The collaborator writes files into a directory. *)
Definition write_files (d : string) (files : list (string * string)) : M unit :=
  modify (written_to d files).

(** The content of a file, when it exists. *)
Definition file_content (w : World) (p : file_path) : option string :=
  match temp_dirs w !! p.1 with
  | Some files => snd <$> List.find (fun f => bool_decide (f.1 = p.2)) files
  | None => None
  end.

(** [os.path.exists(p)] *)
Definition path_exists (p : file_path) : M bool :=
  gets (fun w => bool_decide (is_Some (file_content w p))).

(** [with open(p, 'rb') as f: file_data = f.read()] *)
Definition read_file (p : file_path) : M string :=
  let! c := gets (fun w => file_content w p) in
  match c with
  | Some data => ret data
  | None => raise "FileNotFoundError"
  end.

(** The chain of [if filename.endswith(...)] that picks the MIME type. *)
Definition mime_type_of (filename : string) : string :=
  if PyStr.endswith ".mp4" filename then "video/mp4"
  else if PyStr.endswith ".webm" filename then "video/webm"
  else if PyStr.endswith ".mp3" filename || PyStr.endswith ".m4a" filename then "audio/mp4"
  else "application/octet-stream".

(** [send_file(BytesIO(file_data), as_attachment=True, download_name=filename,
    mimetype=mime_type)] *)
Definition send_file (file_data filename mime_type : string) : Response :=
  mkResponse (FileBody file_data filename mime_type) 200.

(** The frame of [download], the same in both files; [fetch url itag temp_dir]
    is the body of the innermost [try]. *)
Definition download_with (fetch : string -> string -> string -> M Response)
    (offered : outcome string) (url itag : option string) : M Response :=
  try_except
    (if negb (PyStr.truthy_opt url) || negb (PyStr.truthy_opt itag) then
       ret (error_response "Missing URL or format ID parameter" 400)
     else
     let url := default "" url in
     let itag := default "" itag in
     if negb (is_valid_youtube_url url) then
       ret (error_response "Invalid YouTube URL" 400)
     else
     try_except
       (let! temp_dir := mkdtemp offered in
        try_except
          (fetch url itag temp_dir)
          (fun e => rmtree temp_dir ;;; raise e))
       (fun e => ret (error_response ("Error downloading video: " +:+ e) 500)))
    (fun e => ret (error_response ("An unexpected error occurred: " +:+ e) 500)).

(** [int(s)] of a string (base 10).  CPython skips, before and after the
    literal, the white space of the C locale (TAB, LF, VT, FF, CR, SPACE;
    not the separators FS, GS, RS, US that [str.strip] removes), then reads
    a sign and decimal digits, a single underscore allowed between two
    digits. *)
Definition c_isspace (a : ascii) : bool :=
  let n := nat_of_ascii a in
  ((9 <=? n) && (n <=? 13)) || (n =? 32).

Fixpoint lstrip_with (p : ascii -> bool) (s : string) : string :=
  match s with
  | EmptyString => EmptyString
  | String a s' => if p a then lstrip_with p s' else s
  end.

Definition strip_with (p : ascii -> bool) (s : string) : string :=
  String.rev (lstrip_with p (String.rev (lstrip_with p s))).

Fixpoint int_digits (s : string) (acc : Z) (after_digit : bool) : option Z :=
  match s with
  | EmptyString => if after_digit then Some acc else None
  | String a s' =>
      if PyStr.isdigit a then
        int_digits s' (10 * acc + Z.of_nat (nat_of_ascii a - 48))%Z true
      else if bool_decide (a = "_"%char) && after_digit then
        match s' with
        | String b _ => if PyStr.isdigit b then int_digits s' acc false else None
        | EmptyString => None
        end
      else None
  end.

(** [repr(s)], which the message of [int] quotes ([%.200R]): the text
    between single quotes, or between double quotes when it has a single
    quote and no double one; the quote used and the backslash are escaped,
    TAB, LF and CR are written [\t], [\n], [\r], and every other control
    character as [\x] and two hexadecimal digits (so are the characters
    above 127, which the ASCII strings of the model do not hold). *)
Definition hex_digit (n : nat) : ascii :=
  ascii_of_nat (if (n <? 10)%nat then 48 + n else 87 + n).

Definition repr_char (quote a : ascii) : string :=
  let n := nat_of_ascii a in
  let backslash := "092"%char in
  if bool_decide (a = quote) || bool_decide (a = backslash) then
    String backslash (String a EmptyString)
  else if (n =? 9)%nat then String backslash "t"
  else if (n =? 10)%nat then String backslash "n"
  else if (n =? 13)%nat then String backslash "r"
  else if (n <? 32)%nat || (127 <=? n)%nat then
    String backslash (String "x" (String (hex_digit (n / 16))
                                         (String (hex_digit (n mod 16)) EmptyString)))
  else String a EmptyString.

Fixpoint repr_body (quote : ascii) (s : string) : string :=
  match s with
  | EmptyString => EmptyString
  | String a s' => repr_char quote a +:+ repr_body quote s'
  end.

Definition repr (s : string) : string :=
  let single := "039"%char in
  let double := "034"%char in
  let quote := if negb (PyStr.lacks single s) && PyStr.lacks double s
               then double else single in
  String quote (repr_body quote s +:+ String quote EmptyString).

Fixpoint str_take (n : nat) (s : string) : string :=
  match n, s with
  | S n', String a s' => String a (str_take n' s')
  | _, _ => EmptyString
  end.

(** CPython (since 3.11, and in the later releases of 3.7 to 3.10) also
    refuses literals of more than [sys.int_max_str_digits] digits, 4300 by
    default; the limit is a setting of the interpreter and is not modelled:
    the function is [int] on the strings of at most 4300 characters, and
    the properties of the handlers that depend on it say so. *)
Definition int_of_string (s : string) : outcome Z :=
  let r := match strip_with c_isspace s with
           | String "-" s' => Z.opp <$> int_digits s' 0 false
           | String "+" s' => int_digits s' 0 false
           | s' => int_digits s' 0 false
           end in
  match r with
  | Some n => Returned n
  | None => Raised ("invalid literal for int() with base 10: " +:+ str_take 200 (repr s))
  end.

(** ** [app.py]: pytubefix *)

Module App.

(** A stream of pytubefix: the attributes the handlers read. *)
Record Stream : Type := mkStream {
  itag : Z;
  mime_type : string;
  resolution : option string;
  abr : option string;
  filesize : Z
}.

(** The answer of the collaborator to [get_video_info]: the title, the
    thumbnail, and the results of the two stream queries,
    [filter(progressive=True, file_extension='mp4').order_by('resolution').desc()]
    and [filter(only_audio=True).order_by('abr').desc()]. *)
Record YouTube : Type := mkYouTube {
  yt_title : string;
  thumbnail_url : string;
  progressive_streams : list Stream;
  audio_streams : list Stream
}.

(** [round(filesize / (1024 * 1024), 1) if filesize and filesize > 0 else None] *)
Definition filesize_mb_of (filesize : Z) : option Q :=
  if negb (filesize =? 0)%Z && (0 <? filesize)%Z
  then Some (megabytes (inject_Z filesize)) else None.

Definition video_format (quality : string) (stream : Stream) : FormatDescriptor :=
  mkFormat "video" quality (mime_type stream) (pretty (itag stream))
           (filesize_mb_of (filesize stream)) (pretty (itag stream)) "mp4".

(** The loop over [progressive_streams]: [seen] is [seen_formats], [acc] is
    [formats]. *)
Fixpoint video_loop (streams : list Stream) (seen : gset string)
    (acc : list FormatDescriptor) : list FormatDescriptor :=
  match streams with
  | [] => acc
  | stream :: rest =>
      if PyStr.truthy_opt (resolution stream) then
        let quality := default "" (resolution stream) in
        if bool_decide (quality ∉ seen) && bool_decide (quality ∈ quality_priorities) then
          video_loop rest ({[quality]} ∪ seen) (acc ++ [video_format quality stream])
        else video_loop rest seen acc
      else video_loop rest seen acc
  end.

Definition audio_format (audio_stream : Stream) : FormatDescriptor :=
  let abr := if PyStr.truthy_opt (abr audio_stream) then abr audio_stream else None in
  let quality := match abr with
                 | Some a => "MP3 " +:+ a
                 | None => "MP3"
                 end in
  mkFormat "audio" quality (mime_type audio_stream) (pretty (itag audio_stream))
           (filesize_mb_of (filesize audio_stream)) (pretty (itag audio_stream)) "mp4".

(** [if audio_streams: audio_stream = audio_streams.first(); ...]: the
    descriptors appended for the audio, none or one. *)
Definition audio_part (audio_streams : list Stream) : list FormatDescriptor :=
  match audio_streams with
  | [] => []
  | audio_stream :: _ => [audio_format audio_stream]
  end.

(** The list [formats] at the end of the inner [try] block. *)
Definition resolve_formats (yt : YouTube) : list FormatDescriptor :=
  sort_formats (video_loop (progressive_streams yt) ∅ []) ++ audio_part (audio_streams yt).

Definition resolve (video_id : string) (yt : YouTube) : outcome VideoInfo :=
  Returned (mkVideoInfo (yt_title yt) (thumbnail_url yt) (resolve_formats yt)).

Definition get_video_info `{!PyLib} (env : InfoEnv YouTube) (req : InfoRequest) : M Response :=
  get_video_info_with resolve env req.

(** What the environment does during one run of [download]: the directory
    name [mkdtemp] is offered, the answer to [yt.streams.get_by_itag], and
    what [stream.download] writes into the directory and returns. *)
Record DownloadEnv : Type := mkDownloadEnv {
  offered_dir : outcome string;
  streams : outcome (Z -> option Stream);
  stream_download : Stream -> string -> list (string * string) * outcome (option file_path)
}.

Definition fetch (env : DownloadEnv) (url itag temp_dir : string) : M Response :=
  log (CallFetch url itag) ;;;
  let! by_itag := lift (streams env) in
  let! n := lift (int_of_string itag) in
  match by_itag n with
  | None => ret (error_response "Invalid format ID or stream not found" 400)
  | Some stream =>
      let (written, result) := stream_download env stream temp_dir in
      write_files temp_dir written ;;;
      let! output_path := lift result in
      let! found := match output_path with
                    | Some p => path_exists p
                    | None => ret false
                    end in
      if negb found then ret (error_response "Download failed or file not found" 500) else
      let p := default (temp_dir, "") output_path in
      let filename := p.2 in
      let! file_data := read_file p in
      let mime_type := mime_type_of filename in
      rmtree temp_dir ;;;
      ret (send_file file_data filename mime_type)
  end.

Definition download (env : DownloadEnv) (url itag : option string) : M Response :=
  download_with (fetch env) (offered_dir env) url itag.

End App.

(** ** [production.py]: yt-dlp *)

Module Production.

(** An entry of [info['formats']]: the keys the handler reads, [None] for a
    key that is absent or holds [None]. *)
Record RawFormat : Type := mkRawFormat {
  vcodec : option string;
  acodec : option string;
  ext : option string;
  height : option Z;
  format_id : option string;
  abr : option Q;
  filesize : option Q;
  filesize_approx : option Q
}.

(** The dict [extract_info] returns: a key that is absent is [None]. *)
Record RawInfo : Type := mkRawInfo {
  raw_title : option string;
  raw_thumbnail : option string;
  raw_formats : option (list RawFormat)
}.

Definition truthy_num (o : option Q) : bool :=
  match o with Some q => negb (Qeq_bool q 0) | None => false end.

Definition truthy_int (o : option Z) : bool :=
  match o with Some h => negb (h =? 0)%Z | None => false end.

(** [filesize = fmt.get('filesize') or fmt.get('filesize_approx')], then
    [round(filesize / (1024 * 1024), 1) if filesize else None] *)
Definition filesize_mb_of (fmt : RawFormat) : option Q :=
  let filesize := if truthy_num (filesize fmt) then filesize fmt else filesize_approx fmt in
  if truthy_num filesize then megabytes <$> filesize else None.

(** The condition of the first loop. *)
Definition is_video_entry (fmt : RawFormat) : bool :=
  negb (bool_decide (vcodec fmt = Some "none"))
  && negb (bool_decide (acodec fmt = Some "none"))
  && bool_decide (ext fmt = Some "mp4")
  && truthy_int (height fmt)
  && PyStr.truthy_opt (format_id fmt).

(** [f"{fmt.get('height')}p"] *)
Definition quality_of (fmt : RawFormat) : string :=
  pretty (default 0%Z (height fmt)) +:+ "p".

Definition video_format (quality : string) (fmt : RawFormat) : FormatDescriptor :=
  mkFormat "video" quality "video/mp4" (default "" (format_id fmt))
           (filesize_mb_of fmt) (default "" (format_id fmt)) "mp4".

(** The first loop over [info.get('formats', [])]: [seen] is
    [seen_formats], [acc] is [formats]. *)
Fixpoint video_loop (fmts : list RawFormat) (seen : gset string)
    (acc : list FormatDescriptor) : list FormatDescriptor :=
  match fmts with
  | [] => acc
  | fmt :: rest =>
      if is_video_entry fmt then
        let quality := quality_of fmt in
        if bool_decide (quality ∉ seen) && bool_decide (quality ∈ quality_priorities) then
          video_loop rest ({[quality]} ∪ seen) (acc ++ [video_format quality fmt])
        else video_loop rest seen acc
      else video_loop rest seen acc
  end.

(** The condition of the second loop. *)
Definition is_audio_entry (fmt : RawFormat) : bool :=
  bool_decide (vcodec fmt = Some "none")
  && negb (bool_decide (acodec fmt = Some "none"))
  && (bool_decide (ext fmt = Some "mp4") || bool_decide (ext fmt = Some "m4a"))
  && PyStr.truthy_opt (format_id fmt).

(** [abr = fmt.get('abr', 0)], then
    [f"MP3 {int(abr)}kbps" if abr else "MP3"] *)
Definition audio_quality (fmt : RawFormat) : string :=
  if truthy_num (abr fmt)
  then "MP3 " +:+ pretty (int_of_Q (default 0%Q (abr fmt))) +:+ "kbps"
  else "MP3".

Definition audio_format (fmt : RawFormat) : FormatDescriptor :=
  mkFormat "audio" (audio_quality fmt) "audio/mp4" (default "" (format_id fmt))
           (filesize_mb_of fmt) (default "" (format_id fmt)) "mp4".

(** The second loop, which ends at its first append ([break]): the
    descriptors appended for the audio, none or one. *)
Fixpoint audio_part (fmts : list RawFormat) : list FormatDescriptor :=
  match fmts with
  | [] => []
  | fmt :: rest => if is_audio_entry fmt then [audio_format fmt] else audio_part rest
  end.

(** The list [formats] at the end of the inner [try] block. *)
Definition resolve_formats (fmts : list RawFormat) : list FormatDescriptor :=
  sort_formats (video_loop fmts ∅ []) ++ audio_part fmts.

(** [extract_info] returns [None] for a failure it swallows
    (['ignoreerrors': True]); [info.get] then raises. *)
Definition resolve (video_id : string) (info : option RawInfo) : outcome VideoInfo :=
  match info with
  | None => Raised "'NoneType' object has no attribute 'get'"
  | Some info =>
      let title := default "Unknown Title" (raw_title info) in
      let thumbnail :=
        default ("https://img.youtube.com/vi/" +:+ video_id +:+ "/maxresdefault.jpg")
                (raw_thumbnail info) in
      Returned (mkVideoInfo title thumbnail
                            (resolve_formats (default [] (raw_formats info))))
  end.

Definition get_video_info `{!PyLib} (env : InfoEnv (option RawInfo)) (req : InfoRequest)
    : M Response :=
  get_video_info_with resolve env req.

(** What the environment does during one run of [download]: the directory
    name [mkdtemp] is offered, and what [extract_info(url, download=True)]
    writes into the directory before it returns or raises. *)
Record DownloadEnv : Type := mkDownloadEnv {
  offered_dir : outcome string;
  extract_info : string -> string -> string -> list (string * string) * outcome unit
}.

(** The loop over [os.walk(temp_dir)]; the collaborator writes plain files
    into the directory (the output template names no sub-directory), so the
    walk has one step: the first file whose name does not end in [.part]. *)
Definition find_downloaded (temp_dir : string) (files : list (string * string))
    : option file_path :=
  (fun f => (temp_dir, f.1)) <$>
    List.find (fun f => negb (PyStr.endswith ".part" f.1)) files.

Definition fetch (env : DownloadEnv) (url format_id temp_dir : string) : M Response :=
  log (CallFetch url format_id) ;;;
  let (written, result) := extract_info env url format_id temp_dir in
  write_files temp_dir written ;;;
  let! _ := lift result in
  let! files := gets (fun w => default [] (temp_dirs w !! temp_dir)) in
  let downloaded_file := find_downloaded temp_dir files in
  let! found := match downloaded_file with
                | Some p => path_exists p
                | None => ret false
                end in
  if negb found then ret (error_response "Download failed or file not found" 500) else
  let p := default (temp_dir, "") downloaded_file in
  let filename := p.2 in
  let! file_data := read_file p in
  let mime_type := mime_type_of filename in
  rmtree temp_dir ;;;
  ret (send_file file_data filename mime_type).

Definition download (env : DownloadEnv) (url format_id : option string) : M Response :=
  download_with (fetch env) (offered_dir env) url format_id.

End Production.

(** ** A reference implementation of the library functions

    Used to run the model on concrete requests.  It covers URLs of the form
    [scheme://host/path?query#fragment] with a plain host name and no path
    parameters; no theorem that is stated for every [PyLib] depends on it. *)

Module RefLib.

(** The text before and after the first [c] of [s], when there is one. *)
Fixpoint cut (c : ascii) (s : string) : option (string * string) :=
  match s with
  | EmptyString => None
  | String a s' =>
      if decide (a = c) then Some (EmptyString, s')
      else (fun p : string * string => (String a p.1, p.2)) <$> cut c s'
  end.

(** The text up to the first of [/], [?], [#], and the rest. *)
Fixpoint split_netloc (s : string) : string * string :=
  match s with
  | EmptyString => (EmptyString, EmptyString)
  | String a s' =>
      if bool_decide (a = "/"%char) || bool_decide (a = "?"%char) || bool_decide (a = "#"%char)
      then (EmptyString, s)
      else let p := split_netloc s' in (String a p.1, p.2)
  end.

Definition is_scheme_char (a : ascii) : bool :=
  PyStr.isalpha a || PyStr.isdigit a
  || bool_decide (a = "+"%char) || bool_decide (a = "-"%char) || bool_decide (a = "."%char).

Fixpoint all_chars (p : ascii -> bool) (s : string) : bool :=
  match s with
  | EmptyString => true
  | String a s' => p a && all_chars p s'
  end.

Definition strip_scheme (url : string) : string :=
  match cut ":" url with
  | Some (String a sch, rest) =>
      if PyStr.isalpha a && all_chars is_scheme_char sch then rest else url
  | _ => url
  end.

Definition urlparse (url : string) : option ParseResult :=
  let url := strip_scheme url in
  let (netloc, url) := match url with
                       | String "/" (String "/" rest) => split_netloc rest
                       | _ => (EmptyString, url)
                       end in
  let url := match cut "#" url with Some (u, _) => u | None => url end in
  let (url, query) := match cut "?" url with Some p => p | None => (url, EmptyString) end in
  Some (mkParseResult netloc url query).

(** [parse_qs] on a query without percent-escapes: the fields are separated
    by [&], a field without [=] or with an empty value is dropped. *)
Definition parse_qs (qs : string) : gmap string (list string) :=
  foldl (fun (m : gmap string (list string)) (field : string) =>
           match cut "=" field with
           | Some (k, v) =>
               if PyStr.truthy v then <[k := default [] (m !! k) ++ [v]]> m else m
           | None => m
           end)
        ∅ (PyStr.split "&" qs).

(** A stand-in for MD5: any function serves as the cache key. *)
Definition md5_hexdigest (s : string) : string := s.

Definition lib : PyLib := Build_PyLib urlparse parse_qs md5_hexdigest.

End RefLib.

(** ** Definitions used to state the properties *)

(** Deduplication by label that keeps, of the entries with one label, the
    first. *)
Fixpoint first_per_label {A} (label : A -> string) (l : list A) : list A :=
  match l with
  | [] => []
  | x :: l' => x :: filter (fun y => label y <> label x) (first_per_label label l')
  end.

(** The loop the two files share: an entry is appended when it is eligible,
    its label is allowed and the label was not seen before. *)
Fixpoint collect {A} (eligible : A -> bool) (label : A -> string)
    (mk : string -> A -> FormatDescriptor) (l : list A) (seen : gset string)
    (acc : list FormatDescriptor) : list FormatDescriptor :=
  match l with
  | [] => acc
  | x :: rest =>
      if eligible x then
        if bool_decide (label x ∉ seen) && bool_decide (label x ∈ quality_priorities) then
          collect eligible label mk rest ({[label x]} ∪ seen) (acc ++ [mk (label x) x])
        else collect eligible label mk rest seen acc
      else collect eligible label mk rest seen acc
  end.

Definition is_video (d : FormatDescriptor) : Prop := fd_type d = "video".
Definition is_audio (d : FormatDescriptor) : Prop := fd_type d = "audio".

(** The order a sort by key establishes. *)
Definition key_le {A} (key : A -> nat) (a b : A) : Prop := (key a <= key b)%nat.

(** The order of [formats.sort]: the index in [quality_priorities] does not
    decrease. *)
Definition by_priority : FormatDescriptor -> FormatDescriptor -> Prop :=
  key_le (fun x => priority (quality x)).

Definition recognized (d : FormatDescriptor) : Prop :=
  quality d ∈ quality_priorities.

(** No entry with an unrecognized label stands before one with a recognized
    label. *)
Definition unrecognized_last (l : list FormatDescriptor) : Prop :=
  forall (i j : nat) (a b : FormatDescriptor),
    l !! i = Some a -> l !! j = Some b ->
    ~ recognized a -> recognized b -> (j < i)%nat.

(** The shape of a resolved format list: the video descriptors in the order
    of the priorities, then at most one audio descriptor. *)
Definition format_order (out : list FormatDescriptor) : Prop :=
  exists videos audio : list FormatDescriptor,
    out = videos ++ audio
    /\ Forall is_video videos
    /\ StronglySorted by_priority videos
    /\ unrecognized_last videos
    /\ Forall is_audio audio
    /\ (length audio <= 1)%nat.

(** The value [get_cached_info] returns, as a function of the file found. *)
Definition cached_value (now : Q) (f : option cache_file) : json :=
  match f with
  | Some f =>
      match read_cached now f with
      | Returned (Some info) => info
      | _ => JNull
      end
  | None => JNull
  end.

(** The cache directory after [cache_info]. *)
Definition stored (wo : write_outcome) (name : string) (doc : json)
    (c : gmap string cache_file) : gmap string cache_file :=
  match wo with
  | Written => <[name := Document doc]> c
  | OpenFailed _ => c
  | DumpFailed _ => <[name := Unparsable]> c
  end.

(** The response and the world at the end of the innermost [try] of
    [get_video_info] with its handler, as a function of the world at its
    start. *)
Definition resolve_result {A : Type} (resolve : string -> A -> outcome VideoInfo)
    (env : InfoEnv A) (video_id clean_url cache_key : string) (w : World)
    : Response * World :=
  let w1 := logged (CallProbe clean_url) w in
  match probe env with
  | Raised e => (error_response ("Error accessing YouTube: " +:+ e) 400, w1)
  | Returned yt =>
      match resolve video_id yt with
      | Raised e => (error_response ("Error accessing YouTube: " +:+ e) 400, w1)
      | Returned video_info =>
          if bool_decide (formats video_info = []) then
            (error_response
               "No downloadable formats found. The video may have restrictions." 400, w1)
          else
            (jsonify (json_of_video_info video_info),
             set_cache_dir
               (stored (cache_write env) (cache_key +:+ ".json")
                       (JDict [("info", json_of_video_info video_info);
                               ("timestamp", JNum (t_store env))])
                       (cache_dir w1)) w1)
      end
  end.

(** The same for the middle [try]. *)
Definition lookup_result `{!PyLib} {A : Type} (resolve : string -> A -> outcome VideoInfo)
    (env : InfoEnv A) (url : string) (w : World) : Response * World :=
  let w1 := logged (CallExtractVideoId url) w in
  let video_id := extract_video_id url in
  if bad_video_id video_id then
    (error_response "Could not extract video ID from URL" 400, w1)
  else
  let video_id := default "" video_id in
  let clean_url := clean_url_of video_id in
  let cache_key := get_cache_key clean_url in
  let cached_info := cached_value (t_lookup env) (cache_dir w1 !! (cache_key +:+ ".json")) in
  if json_truthy cached_info then (jsonify cached_info, w1)
  else resolve_result resolve env video_id clean_url cache_key w1.


(** A run of a handler ends with the given error message and status. *)
Definition answers_error (m : M Response) (w : World) (msg : string) (code : Z) : Prop :=
  exists w' : World, m w = (Returned (error_response msg code), w').

(** A run of a handler ends with a response of the given status and leaves
    the world as it was: no call was made, no file touched. *)
Definition rejects (m : M Response) (w : World) (code : Z) : Prop :=
  exists r : Response, m w = (Returned r, w) /\ status r = code.

(** The request is JSON, its body a dict whose [url] is the string [s]. *)
Definition has_url (req : InfoRequest) (s : string) : Prop :=
  is_json req = true /\
  exists items, get_json req = Returned (JDict items) /\ assoc "url" items = Some (JStr s).

(** The request passes validation and extraction with this identifier. *)
Definition identifies `{!PyLib} (req : InfoRequest) (video_id : string) : Prop :=
  exists s, has_url req s
    /\ PyStr.truthy (PyStr.strip s) = true
    /\ is_valid_youtube_url (PyStr.strip s) = true
    /\ extract_video_id (PyStr.strip s) = Some video_id
    /\ String.length video_id = 11%nat.

(** The cache holds no usable record for the identifier at lookup time. *)
Definition cache_miss `{!PyLib} {A} (env : InfoEnv A) (w : World) (video_id : string) : Prop :=
  json_truthy
    (cached_value (t_lookup env)
       (cache_dir w !! (get_cache_key (clean_url_of video_id) +:+ ".json"))) = false.

(** The environment with another end of the cache write. *)
Definition with_cache_write {A} (wo : write_outcome) (env : InfoEnv A) : InfoEnv A :=
  mkInfoEnv A (t_lookup env) (t_store env) wo (probe env).

(** The file [stream.download] names does not exist: no path is returned,
    or the file named is not among those written into the directory. *)
Definition app_file_missing (d : string) (written : list (string * string))
    (output_path : option file_path) : Prop :=
  output_path = None
  \/ exists name, output_path = Some (d, name) /\ name ∉ written.*1.

(** No file the collaborator wrote is a finished one: each name ends in
    [.part], or nothing was written. *)
Definition production_file_missing (written : list (string * string)) : Prop :=
  List.find (fun f => negb (PyStr.endswith ".part" f.1)) written = None.

(** The parameters of a download request that pass the two checks. *)
Definition accepted (url itag : option string) (u i : string) : Prop :=
  url = Some u /\ itag = Some i
  /\ PyStr.truthy u = true /\ PyStr.truthy i = true
  /\ is_valid_youtube_url u = true.

Module AppSpec.
(** The label of a stream, and the streams the claim selects: those whose
    resolution label is in the allow-list. *)
Definition label (s : App.Stream) : string := default "" (App.resolution s).
Definition selected (s : App.Stream) : Prop := label s ∈ quality_priorities.
End AppSpec.

Module ProductionSpec.
(** The entries the claim selects: progressive (a video and an audio
    codec), of the container [mp4], with a resolution label of the
    allow-list. *)
Definition progressive (fmt : Production.RawFormat) : Prop :=
  Production.vcodec fmt <> Some "none" /\ Production.acodec fmt <> Some "none".
Definition selected (fmt : Production.RawFormat) : Prop :=
  progressive fmt /\ Production.ext fmt = Some "mp4"
  /\ Production.quality_of fmt ∈ quality_priorities.
(** The entry carries a format identifier. *)
Definition identified (fmt : Production.RawFormat) : Prop :=
  PyStr.truthy_opt (Production.format_id fmt) = true.
(** The entries [production.py] lists: the selected ones that carry a format
    identifier. *)
Definition listed (fmt : Production.RawFormat) : Prop :=
  selected fmt /\ identified fmt.
End ProductionSpec.

#[global] Instance is_video_dec d : Decision (is_video d).
Proof. unfold is_video. apply _. Defined.

#[global] Instance is_audio_dec d : Decision (is_audio d).
Proof. unfold is_audio. apply _. Defined.

#[global] Instance app_selected_dec s : Decision (AppSpec.selected s).
Proof. unfold AppSpec.selected. apply _. Defined.

#[global] Instance production_selected_dec fmt : Decision (ProductionSpec.selected fmt).
Proof. unfold ProductionSpec.selected, ProductionSpec.progressive. apply _. Defined.

#[global] Instance production_listed_dec fmt : Decision (ProductionSpec.listed fmt).
Proof. unfold ProductionSpec.listed, ProductionSpec.identified. apply _. Defined.

(** ** Sample data

    Concrete requests, answers of the collaborators and worlds, on which the
    model is run. *)

Module Sample.

Definition empty_world : World := mkWorld ∅ ∅ [].

Definition short_url : string := "https://youtu.be/dQw4w9WgXcQ".
Definition feature_url : string :=
  "https://www.youtube.com/watch?v=dQw4w9WgXcQ&feature=youtu.be".
Definition foreign_url : string := "https://example.com/watch?v=dQw4w9WgXcQ".
Definition temp_dir : string := "/tmp/tmpk3v9x2ab".

(** The POST body [{"url": s}]. *)
Definition json_request (s : string) : InfoRequest :=
  mkInfoRequest true (Returned (JDict [("url", JStr s)])).

(** Raw entries of yt-dlp: a progressive mp4 entry, and two audio-only m4a
    entries of 48 and 128 kbit/s. *)
Definition video (h : Z) (id : string) : Production.RawFormat :=
  Production.mkRawFormat (Some "avc1.64001F") (Some "mp4a.40.2") (Some "mp4")
                         (Some h) (Some id) None None None.
Definition audio_low : Production.RawFormat :=
  Production.mkRawFormat (Some "none") (Some "mp4a.40.5") (Some "m4a")
                         None (Some "139") (Some 48%Q) None None.
Definition audio_high : Production.RawFormat :=
  Production.mkRawFormat (Some "none") (Some "mp4a.40.2") (Some "m4a")
                         None (Some "140") (Some 128%Q) None None.

(** A progressive mp4 entry of 720 lines that carries no format identifier. *)
Definition video_unidentified : Production.RawFormat :=
  Production.mkRawFormat (Some "avc1.64001F") (Some "mp4a.40.2") (Some "mp4")
                         (Some 720%Z) None None None None.


(** A run of [get_video_info] in which the collaborator raises. *)
Definition probe_raises : InfoEnv (option Production.RawInfo) :=
  mkInfoEnv _ 1000%Q 1001%Q Written (Raised "Video unavailable").

(** A run of [download] of [app.py] in which no stream has the itag asked
    for. *)
Definition app_no_stream : App.DownloadEnv :=
  App.mkDownloadEnv (Returned temp_dir) (Returned (fun _ => None))
                    (fun _ _ => ([], Returned None)).

(** A run of [download] of [production.py] in which the collaborator
    swallows its failure and leaves a partial file only. *)
Definition production_no_file : Production.DownloadEnv :=
  Production.mkDownloadEnv (Returned temp_dir)
                           (fun _ _ _ => ([("video.mp4.part", "partial")], Returned tt)).

(** A run in which the collaborator raises after it wrote a partial file. *)
Definition production_raises : Production.DownloadEnv :=
  Production.mkDownloadEnv (Returned temp_dir)
                           (fun _ _ _ => ([("video.mp4.part", "partial")],
                                          Raised "HTTP Error 403: Forbidden")).

(** A run in which the download succeeds. *)
Definition production_succeeds : Production.DownloadEnv :=
  Production.mkDownloadEnv (Returned temp_dir)
                           (fun _ _ _ => ([("video.mp4", "DATA")], Returned tt)).

End Sample.

(** ** Further definitions used to state properties *)

(** Every character of the string satisfies [p]. *)
Fixpoint str_forall (p : ascii -> bool) (s : string) : bool :=
  match s with
  | EmptyString => true
  | String a s' => p a && str_forall p s'
  end.

(** The string is empty or starts with a character that is not white
    space. *)
Definition starts_clean (s : string) : bool :=
  match s with
  | EmptyString => true
  | String a _ => negb (PyStr.isspace a)
  end.

Definition not_space (a : ascii) : bool := negb (PyStr.isspace a).

(** The call is a download. *)
Definition is_fetch (c : call) : Prop :=
  match c with CallFetch _ _ => True | _ => False end.

(** The string with its upper-case letters turned into lower case. *)
Fixpoint lowercase (s : string) : string :=
  match s with
  | EmptyString => EmptyString
  | String a s' => String (PyStr.lower a) (lowercase s')
  end.

(** Every class of the pattern accepts a letter in both cases or in none. *)
Fixpoint case_blind (r : Re.regex) : Prop :=
  match r with
  | Re.Cls p => forall a, p (PyStr.lower a) = p a
  | Re.Cat r1 r2 | Re.Alt r1 r2 => case_blind r1 /\ case_blind r2
  | Re.Star r1 => case_blind r1
  | _ => True
  end.

(** What may stand before the identifier in a URL of the first pattern:
    a scheme, a host of the three names, and a path that announces the
    identifier. *)
Definition url_fronts : list string :=
  scheme ← [EmptyString; "//"; "http://"; "https://"];
  sub ← [EmptyString; "www."; "m."];
  host ← ["youtube.com"; "youtu.be"; "youtube-nocookie.com"];
  path ← ["/watch?v="; "/v/"; "/embed/"; "/shorts/"; "/watch?feature=share&v="];
  [scheme +:+ sub +:+ host +:+ path].

(** What the body of the innermost [try] of [download] may change: it logs
    its call, changes the directory it is given, and touches nothing else. *)
Definition fetch_frame (fetch : string -> string -> string -> M Response) : Prop :=
  forall (u i d : string) (w : World),
    cache_dir (fetch u i d w).2 = cache_dir w
    /\ calls (fetch u i d w).2 = calls w ++ [CallFetch u i]
    /\ forall d', d' <> d -> temp_dirs (fetch u i d w).2 !! d' = temp_dirs w !! d'.

(** Further sample data: a cache that holds a record, a video the
    collaborator of [app.py] resolves, and a second URL of the same video. *)
Module Scenario.

Definition video_id : string := "dQw4w9WgXcQ".

Definition timed_url : string := "https://youtu.be/dQw4w9WgXcQ?t=42".

Definition cached_info : json := JDict [("title", JStr "Sample")].

(** The cache after a record for [video_id] was written at time 500, under
    the key the reference library gives. *)
Definition cached_world : World :=
  mkWorld {[ "https://www.youtube.com/watch?v=dQw4w9WgXcQ.json"
             := Document (JDict [("info", cached_info); ("timestamp", JNum 500)]) ]}
          ∅ [].

Definition stream_720 : App.Stream :=
  App.mkStream 22 "video/mp4" (Some "720p") None 52428800.

Definition stream_audio : App.Stream :=
  App.mkStream 140 "audio/mp4" None (Some "128kbps") 3145728.

Definition app_answer : App.YouTube :=
  App.mkYouTube "Sample" "https://i.ytimg.com/vi/dQw4w9WgXcQ/hq720.jpg"
                [stream_720] [stream_audio].

(** A run of [get_video_info] of [app.py] in which the collaborator answers
    and the cache write succeeds, at time 900. *)
Definition app_resolves : InfoEnv App.YouTube :=
  mkInfoEnv _ 900%Q 900%Q Written (Returned app_answer).

(** A later run of the same handler in which the collaborator raises. *)
Definition app_fails : InfoEnv App.YouTube :=
  mkInfoEnv _ 1000%Q 1001%Q Written (Raised "Video unavailable").

Definition label_1080 : FormatDescriptor :=
  mkFormat "video" "1080p" "video/mp4" "37" None "37" "mp4".
Definition label_360 : FormatDescriptor :=
  mkFormat "video" "360p" "video/mp4" "18" None "18" "mp4".

End Scenario.

(** * Properties *)

(** ** Regular expressions: the matcher decides the language *)

Lemma append_cons (a : ascii) (s1 s2 : string) :
  String a s1 +:+ s2 = String a (s1 +:+ s2).
Proof. reflexivity. Qed.

Lemma append_nil_r (s : string) : s +:+ EmptyString = s.
Proof. induction s as [|a s IH]; [done|]. by rewrite append_cons, IH. Qed.

Lemma append_assoc (s1 s2 s3 : string) : (s1 +:+ s2) +:+ s3 = s1 +:+ (s2 +:+ s3).
Proof. induction s1 as [|a s1 IH]; [done|]. by rewrite !append_cons, IH. Qed.

Lemma append_eq_nil (s1 s2 : string) :
  s1 +:+ s2 = EmptyString -> s1 = EmptyString /\ s2 = EmptyString.
Proof. destruct s1; [done|]. discriminate. Qed.

Lemma append_eq_cons (s1 s2 s : string) (a : ascii) :
  s1 +:+ s2 = String a s ->
  (s1 = EmptyString /\ s2 = String a s)
  \/ exists s1', s1 = String a s1' /\ s = s1' +:+ s2.
Proof.
  destruct s1 as [|b s1]; [by left|].
  rewrite append_cons. intros [= -> <-]. right. by exists s1.
Qed.

Lemma Matches_Void (s : string) : ~ Re.Matches Re.Void s.
Proof. inversion 1. Qed.

Lemma Matches_Eps (s : string) : Re.Matches Re.Eps s <-> s = EmptyString.
Proof. split; [by inversion 1 | intros ->; constructor]. Qed.

Lemma Matches_Cat (r1 r2 : Re.regex) (s : string) :
  Re.Matches (Re.Cat r1 r2) s
  <-> exists s1 s2, s = s1 +:+ s2 /\ Re.Matches r1 s1 /\ Re.Matches r2 s2.
Proof.
  split.
  - inversion 1; subst. eauto.
  - intros (s1 & s2 & -> & H1 & H2). by constructor.
Qed.

Lemma Matches_Alt (r1 r2 : Re.regex) (s : string) :
  Re.Matches (Re.Alt r1 r2) s <-> Re.Matches r1 s \/ Re.Matches r2 s.
Proof.
  split.
  - inversion 1; subst; auto.
  - intros [H|H]; [by apply Re.MAltL | by apply Re.MAltR].
Qed.

Lemma nullable_spec (r : Re.regex) : Re.nullable r = true <-> Re.Matches r EmptyString.
Proof.
  split.
  - induction r as [| |p|r1 IH1 r2 IH2|r1 IH1 r2 IH2|r IH]; simpl; intros Hn.
    + done.
    + constructor.
    + done.
    + apply andb_true_iff in Hn as [H1 H2].
      change EmptyString with (EmptyString +:+ EmptyString). constructor; auto.
    + apply orb_true_iff in Hn as [H1|H2]; [apply Re.MAltL | apply Re.MAltR]; auto.
    + constructor.
  - intros H. remember EmptyString as s eqn:Hs.
    induction H as [|p a Hp|r1 r2 s1 s2 H1 IH1 H2 IH2|r1 r2 s H IH|r1 r2 s H IH|r
                   |r s1 s2 H1 IH1 H2 IH2]; simpl; try done.
    + apply append_eq_nil in Hs as [-> ->]. by rewrite IH1, IH2.
    + by rewrite IH.
    + rewrite IH by done. apply orb_true_r.
Qed.

Lemma cat_spec (r1 r2 : Re.regex) (s : string) :
  Re.Matches (Re.cat r1 r2) s
  <-> exists s1 s2, s = s1 +:+ s2 /\ Re.Matches r1 s1 /\ Re.Matches r2 s2.
Proof.
  destruct r1, r2; simpl;
    first
      [ apply Matches_Cat
      | split;
        [ intros H;
          first [ by apply Matches_Void in H
                | exists EmptyString, s;
                  split; [reflexivity | split; [apply Re.MEps | exact H]] ]
        | intros (s1 & s2 & Hs & H1 & H2);
          first [ by apply Matches_Void in H1
                | by apply Matches_Void in H2
                | apply Matches_Eps in H1; subst; exact H2 ] ] ].
Qed.

Lemma alt_spec (r1 r2 : Re.regex) (s : string) :
  Re.Matches (Re.alt r1 r2) s <-> Re.Matches r1 s \/ Re.Matches r2 s.
Proof.
  destruct r1, r2; simpl;
    first
      [ apply Matches_Alt
      | split;
        [ intros H; first [left; exact H | right; exact H]
        | intros [H|H]; first [exact H | by apply Matches_Void in H] ] ].
Qed.

Lemma deriv_sound (a : ascii) (r : Re.regex) (s : string) :
  Re.Matches (Re.deriv a r) s -> Re.Matches r (String a s).
Proof.
  revert s. induction r as [| |p|r1 IH1 r2 IH2|r1 IH1 r2 IH2|r IH]; simpl; intros s H.
  - by apply Matches_Void in H.
  - by apply Matches_Void in H.
  - destruct (p a) eqn:Hp; [|by apply Matches_Void in H].
    apply Matches_Eps in H as ->. by constructor.
  - destruct (Re.nullable r1) eqn:Hn.
    + apply alt_spec in H as [H|H].
      * apply cat_spec in H as (s1 & s2 & -> & H1 & H2).
        rewrite <-append_cons. constructor; auto.
      * change (String a s) with (EmptyString +:+ String a s).
        constructor; [by apply nullable_spec | auto].
    + apply cat_spec in H as (s1 & s2 & -> & H1 & H2).
      rewrite <-append_cons. constructor; auto.
  - apply alt_spec in H as [H|H]; [apply Re.MAltL | apply Re.MAltR]; auto.
  - apply cat_spec in H as (s1 & s2 & -> & H1 & H2).
    rewrite <-append_cons. constructor; auto.
Qed.

Lemma deriv_complete (r : Re.regex) (s' : string) :
  Re.Matches r s' -> forall a s, s' = String a s -> Re.Matches (Re.deriv a r) s.
Proof.
  induction 1 as [|p b Hp|r1 r2 s1 s2 H1 IH1 H2 IH2|r1 r2 s0 H IH|r1 r2 s0 H IH|r
                 |r s1 s2 H1 IH1 H2 IH2]; intros a s Hs; simpl.
  - done.
  - injection Hs as -> <-. rewrite Hp. constructor.
  - apply append_eq_cons in Hs as [[-> ->]|(s1' & -> & ->)].
    + assert (Re.nullable r1 = true) as -> by by apply nullable_spec.
      apply alt_spec. right. by apply IH2.
    + assert (Re.Matches (Re.cat (Re.deriv a r1) r2) (s1' +:+ s2)) as Hc.
      { apply cat_spec. exists s1', s2. split; [done|]. split; [by apply IH1 | done]. }
      destruct (Re.nullable r1); [apply alt_spec; by left | done].
  - apply alt_spec. left. by apply IH.
  - apply alt_spec. right. by apply IH.
  - done.
  - apply append_eq_cons in Hs as [[-> ->]|(s1' & -> & ->)].
    + by apply IH2.
    + apply cat_spec. exists s1', s2. split; [done|]. split; [by apply IH1 | done].
Qed.

Lemma deriv_spec (a : ascii) (r : Re.regex) (s : string) :
  Re.Matches (Re.deriv a r) s <-> Re.Matches r (String a s).
Proof.
  split; [apply deriv_sound | intros H; by eapply deriv_complete].
Qed.

(** [fullmatch] decides the language. *)
Lemma fullmatch_spec (r : Re.regex) (s : string) :
  Re.fullmatch r s = true <-> Re.Matches r s.
Proof.
  revert r. induction s as [|a s IH]; intros r; simpl.
  - apply nullable_spec.
  - by rewrite IH, deriv_spec.
Qed.

(** [prefix_match] decides whether a prefix is in the language. *)
Lemma prefix_match_spec (r : Re.regex) (s : string) :
  Re.prefix_match r s = true <-> exists p q, s = p +:+ q /\ Re.Matches r p.
Proof.
  revert r. induction s as [|a s IH]; intros r; simpl.
  - rewrite orb_false_r, nullable_spec. split.
    + intros H. by exists EmptyString, EmptyString.
    + intros (p & q & Hs & H). symmetry in Hs.
      by apply append_eq_nil in Hs as [-> _].
  - rewrite orb_true_iff, nullable_spec, IH. split.
    + intros [H|(p & q & -> & H)].
      * by exists EmptyString, (String a s).
      * exists (String a p), q. split; [done|]. by apply deriv_spec.
    + intros (p & q & Hs & H). symmetry in Hs.
      apply append_eq_cons in Hs as [[-> _]|(p' & -> & ->)]; [by left|].
      right. exists p', q. split; [done|]. by apply deriv_spec.
Qed.

(** [match_to_end] decides the language closed by an optional final
    newline. *)
Lemma match_to_end_spec (r : Re.regex) (s : string) :
  Re.match_to_end r s = true
  <-> Re.Matches r s \/ exists u, s = u +:+ String "010" EmptyString /\ Re.Matches r u.
Proof.
  unfold Re.match_to_end. rewrite orb_true_iff, !fullmatch_spec, Matches_Cat.
  split; (intros [H|H]; [by left|right]).
  - destruct H as (s1 & s2 & -> & H1 & H2).
    inversion H2 as [|p a Hp| | | | |]; subst.
    apply bool_decide_eq_true in Hp as ->. by exists s1.
  - destruct H as (u & -> & H). exists u, (String "010" EmptyString).
    repeat split; [done|]. constructor. by apply bool_decide_eq_true.
Qed.

(** Validation decides whether the URL matches one of the two patterns. *)
Lemma is_valid_youtube_url_spec (url : string) :
  is_valid_youtube_url url = true <-> matches_primary url \/ matches_secondary url.
Proof.
  unfold is_valid_youtube_url, matches_primary, matches_secondary.
  rewrite <-prefix_match_spec, <-match_to_end_spec.
  destruct (Re.prefix_match youtube_regex url); simpl.
  - split; [by left | done].
  - split; [by right | by intros [?|?]].
Qed.


(** ** Sorting *)

Section Sorting.
Context {A : Type} (key : A -> nat).

Lemma insert_by_key_perm (x : A) (l : list A) : insert_by_key key x l ≡ₚ x :: l.
Proof.
  induction l as [|y l IH]; simpl; [done|].
  destruct (key x <=? key y)%nat; [done|].
  rewrite IH. apply Permutation_swap.
Qed.

Lemma sort_by_key_perm (l : list A) : sort_by_key key l ≡ₚ l.
Proof.
  induction l as [|x l IH]; simpl; [done|].
  rewrite insert_by_key_perm. by rewrite IH.
Qed.

Lemma insert_by_key_sorted (x : A) (l : list A) :
  StronglySorted (key_le key) l -> StronglySorted (key_le key) (insert_by_key key x l).
Proof.
  induction 1 as [|y l Hl IH Hy]; simpl.
  - repeat constructor.
  - destruct (Nat.leb_spec (key x) (key y)) as [Hle|Hlt].
    + constructor; [by constructor|].
      constructor; [done|].
      eapply Forall_impl; [exact Hy|]. unfold key_le. intros; simpl in *; lia.
    + constructor; [done|].
      rewrite insert_by_key_perm. constructor; [unfold key_le; lia | done].
Qed.

Lemma sort_by_key_sorted (l : list A) : StronglySorted (key_le key) (sort_by_key key l).
Proof.
  induction l as [|x l IH]; simpl; [constructor|].
  by apply insert_by_key_sorted.
Qed.

(** The sort is stable: the elements of one key keep their order. *)
Lemma insert_by_key_filter (n : nat) (x : A) (l : list A) :
  StronglySorted (key_le key) l ->
  filter (fun a => key a = n) (insert_by_key key x l)
  = filter (fun a => key a = n) (x :: l).
Proof.
  induction 1 as [|y l Hl IH Hy]; simpl; [done|].
  destruct (Nat.leb_spec (key x) (key y)) as [Hle|Hlt]; [done|].
  rewrite !filter_cons. rewrite IH. rewrite filter_cons.
  destruct (decide (key y = n)), (decide (key x = n)); try done.
  lia.
Qed.

Lemma sort_by_key_stable (n : nat) (l : list A) :
  filter (fun a => key a = n) (sort_by_key key l) = filter (fun a => key a = n) l.
Proof.
  induction l as [|x l IH]; simpl; [done|].
  rewrite insert_by_key_filter by apply sort_by_key_sorted.
  by rewrite !filter_cons, IH.
Qed.

End Sorting.

Lemma sort_formats_sorted (l : list FormatDescriptor) :
  StronglySorted by_priority (sort_formats l).
Proof. apply sort_by_key_sorted. Qed.

Lemma sort_formats_perm (l : list FormatDescriptor) : sort_formats l ≡ₚ l.
Proof. apply sort_by_key_perm. Qed.

Lemma priority_recognized (q : string) :
  q ∈ quality_priorities -> (priority q < 5)%nat.
Proof.
  unfold quality_priorities. rewrite !elem_of_cons, elem_of_nil.
  intros [->|[->|[->|[->|[->|[]]]]]]; vm_compute; lia.
Qed.

Lemma index_of_None (q : string) (l : list string) :
  q ∉ l -> index_of q l = None.
Proof.
  induction l as [|y l IH]; simpl; [done|].
  rewrite not_elem_of_cons. intros [Hne Hnot].
  destruct (decide (q = y)); [done|]. by rewrite IH.
Qed.

Lemma priority_unrecognized (q : string) :
  q ∉ quality_priorities -> priority q = 99%nat.
Proof. intros H. unfold priority. by rewrite index_of_None. Qed.

(** A list in the order of the priorities has its unrecognized labels last. *)
Lemma sorted_unrecognized_last (l : list FormatDescriptor) :
  StronglySorted by_priority l -> unrecognized_last l.
Proof.
  intros Hs i j a b Hi Hj Ha Hb.
  destruct (decide (j < i)%nat) as [|Hge]; [done|].
  assert (i <> j) by (intros ->; congruence).
  assert (Hlt : (i < j)%nat) by lia.
  assert (by_priority a b) as Hab.
  { clear Hge H. revert i j Hi Hj Hlt.
    induction Hs as [|x l Hs IH Hx]; intros i j Hi Hj Hlt; [done|].
    destruct i as [|i]; simpl in *.
    - destruct j as [|j]; [lia|]. simpl in Hj. simplify_eq.
      rewrite Forall_forall in Hx. apply Hx. by eapply list_elem_of_lookup_2.
    - destruct j as [|j]; [lia|]. simpl in Hj. eapply IH; eauto. lia. }
  unfold by_priority, key_le, recognized in *.
  rewrite (priority_unrecognized (quality a)) in Hab by done.
  apply priority_recognized in Hb. lia.
Qed.

(** ** The loops that collect the video descriptors *)

Lemma collect_acc {A} (eligible : A -> bool) (label : A -> string)
    (mk : string -> A -> FormatDescriptor) (l : list A) (seen : gset string)
    (acc : list FormatDescriptor) :
  collect eligible label mk l seen acc = acc ++ collect eligible label mk l seen [].
Proof.
  revert seen acc. induction l as [|x l IH]; intros seen acc; simpl.
  - by rewrite app_nil_r.
  - destruct (eligible x); [|done].
    destruct (bool_decide (label x ∉ seen) && bool_decide (label x ∈ quality_priorities)); [|done].
    rewrite IH. rewrite (IH _ [_]). by rewrite <-app_assoc.
Qed.

(** The loop gives the first entry of each allowed label not yet seen, in
    the order of the list. *)
Lemma collect_first_per_label {A} (eligible : A -> bool) (label : A -> string)
    (mk : string -> A -> FormatDescriptor) (l : list A) (seen : gset string) :
  collect eligible label mk l seen []
  = (fun x => mk (label x) x) <$>
      filter (fun x => label x ∉ seen)
        (first_per_label label
           (filter (fun x => eligible x = true /\ label x ∈ quality_priorities) l)).
Proof.
  revert seen. induction l as [|x l IH]; intros seen; simpl; [done|].
  rewrite filter_cons.
  destruct (eligible x) eqn:He.
  - destruct (decide (label x ∈ quality_priorities)) as [Hin|Hnin].
    + destruct (decide (label x ∈ seen)) as [Hs|Hs].
      * rewrite bool_decide_eq_false_2 by (intros ?; done). simpl.
        rewrite decide_True by done. simpl.
        rewrite filter_cons_False by (intros ?; done).
        rewrite list_filter_filter. rewrite IH. f_equal.
        apply list_filter_iff. intros y. split; [|tauto].
        intros Hy. split; [done|]. intros Heq. rewrite Heq in Hy. done.
      * rewrite bool_decide_eq_true_2 by done.
        rewrite bool_decide_eq_true_2 by done. simpl.
        rewrite decide_True by done. simpl.
        rewrite filter_cons_True by done.
        rewrite collect_acc. simpl. f_equal.
        rewrite list_filter_filter. rewrite IH. f_equal.
        apply list_filter_iff. intros y.
        rewrite not_elem_of_union, not_elem_of_singleton. tauto.
    + rewrite (bool_decide_eq_false_2 (label x ∈ quality_priorities)) by done.
      rewrite andb_false_r. rewrite decide_False by tauto. apply IH.
  - rewrite decide_False by (intros [? ?]; done). apply IH.
Qed.

Lemma first_per_label_subset {A} (label : A -> string) (l : list A) (x : A) :
  x ∈ first_per_label label l -> x ∈ l.
Proof.
  revert x. induction l as [|y l IH]; intros x; simpl; [done|].
  rewrite !elem_of_cons, list_elem_of_filter.
  intros [->|[_ Hx]]; [by left | right; by apply IH].
Qed.

(** One entry per label. *)
Lemma first_per_label_NoDup {A} (label : A -> string) (l : list A) :
  NoDup (label <$> first_per_label label l).
Proof.
  induction l as [|x l IH]; simpl; [constructor|].
  constructor.
  - rewrite list_elem_of_fmap. intros (y & Heq & Hy).
    apply list_elem_of_filter in Hy as [Hne _]. congruence.
  - clear -IH. induction (first_per_label label l) as [|y k IHk]; simpl; [constructor|].
    inversion IH as [|? ? Hy Hk]; subst.
    rewrite filter_cons. destruct (decide (label y <> label x)); simpl.
    + constructor; [|by apply IHk].
      rewrite list_elem_of_fmap. intros (z & Heq & Hz).
      apply list_elem_of_filter in Hz as [_ Hz].
      apply Hy. rewrite list_elem_of_fmap. eauto.
    + by apply IHk.
Qed.

(** Every label of the list is represented, by its first entry. *)
Lemma first_per_label_lookup {A} (label : A -> string) (l : list A) (x : A) :
  x ∈ first_per_label label l <->
  exists i, l !! i = Some x /\ forall j y, (j < i)%nat -> l !! j = Some y -> label y <> label x.
Proof.
  revert x. induction l as [|z l IH]; intros x; simpl.
  - split; [by rewrite elem_of_nil|]. by intros (i & Hi & _).
  - rewrite elem_of_cons, list_elem_of_filter, IH. split.
    + intros [->|[Hne (i & Hi & Hfirst)]].
      * exists 0%nat. split; [done|]. intros; lia.
      * exists (S i). split; [done|]. intros [|j] y Hj Hy; simpl in *.
        -- by simplify_eq.
        -- eapply Hfirst; [|done]. lia.
    + intros ([|i] & Hi & Hfirst); simpl in *.
      * left. by simplify_eq.
      * right. split.
        -- apply not_eq_sym, (Hfirst 0%nat z); [lia|done].
        -- exists i. split; [done|]. intros j y Hj Hy.
           apply (Hfirst (S j) y); [lia|done].
Qed.

Lemma filter_ext_in {A} (P Q : A -> Prop) `{!forall x, Decision (P x)}
    `{!forall x, Decision (Q x)} (l : list A) :
  (forall x, x ∈ l -> P x <-> Q x) -> filter P l = filter Q l.
Proof.
  induction l as [|x l IH]; intros Hext; [done|].
  rewrite !filter_cons.
  assert (P x <-> Q x) as Hx by (apply Hext; left).
  rewrite IH by (intros y Hy; apply Hext; by right).
  destruct (decide (P x)), (decide (Q x)); tauto.
Qed.

Lemma filter_unseen_empty {A} (label : A -> string)
    `{!forall x, Decision (label x ∉ (∅ : gset string))} (l : list A) :
  filter (fun x => label x ∉ (∅ : gset string)) l = l.
Proof.
  induction l as [|x l IH]; [done|].
  rewrite filter_cons_True by apply not_elem_of_empty. by rewrite IH.
Qed.

Lemma filter_video_app (videos audio : list FormatDescriptor) :
  Forall is_video videos -> Forall is_audio audio ->
  filter is_video (videos ++ audio) = videos.
Proof.
  intros Hv Ha. rewrite filter_app.
  replace (filter is_video audio) with (@nil FormatDescriptor).
  - rewrite app_nil_r. induction Hv as [|d l Hd _ IH]; [done|].
    by rewrite filter_cons_True, IH.
  - induction Ha as [|d l Hd _ IH]; [done|].
    rewrite filter_cons_False; [done|].
    unfold is_video, is_audio in *. rewrite Hd. discriminate.
Qed.

Lemma filter_audio_app (videos audio : list FormatDescriptor) :
  Forall is_video videos -> Forall is_audio audio ->
  filter is_audio (videos ++ audio) = audio.
Proof.
  intros Hv Ha. rewrite filter_app.
  replace (filter is_audio videos) with (@nil FormatDescriptor).
  - simpl. induction Ha as [|d l Hd _ IH]; [done|].
    by rewrite filter_cons_True, IH.
  - induction Hv as [|d l Hd _ IH]; [done|].
    rewrite filter_cons_False; [done|].
    unfold is_video, is_audio in *. rewrite Hd. discriminate.
Qed.

Lemma collect_Forall {A} (P : FormatDescriptor -> Prop) (eligible : A -> bool)
    (label : A -> string) (mk : string -> A -> FormatDescriptor) (l : list A)
    (seen : gset string) :
  (forall q x, q ∈ quality_priorities -> P (mk q x)) ->
  Forall P (collect eligible label mk l seen []).
Proof.
  intros Hmk. rewrite collect_first_per_label, Forall_fmap, Forall_forall.
  intros x Hx. simpl. apply Hmk.
  apply list_elem_of_filter in Hx as [_ Hx].
  apply first_per_label_subset, list_elem_of_filter in Hx as [[_ Hq] _]. done.
Qed.

(** *** [app.py] *)

Lemma app_video_loop_collect (l : list App.Stream) (seen : gset string)
    (acc : list FormatDescriptor) :
  App.video_loop l seen acc
  = collect (fun s => PyStr.truthy_opt (App.resolution s)) AppSpec.label
            App.video_format l seen acc.
Proof.
  revert seen acc. induction l as [|s l IH]; intros seen acc; simpl; [done|].
  destruct (PyStr.truthy_opt (App.resolution s)); [|apply IH].
  unfold AppSpec.label.
  destruct (bool_decide _ && bool_decide _); apply IH.
Qed.

Lemma app_selected_eligible (s : App.Stream) :
  PyStr.truthy_opt (App.resolution s) = true /\ AppSpec.label s ∈ quality_priorities
  <-> AppSpec.selected s.
Proof.
  unfold AppSpec.selected, AppSpec.label. split; [by intros [_ ?]|].
  intros Hin. split; [|done].
  destruct (App.resolution s) as [[|a q]|]; simpl in *; [|done|].
  - apply priority_recognized in Hin. vm_compute in Hin. lia.
  - apply priority_recognized in Hin. vm_compute in Hin. lia.
Qed.

Lemma app_videos (yt : App.YouTube) :
  App.video_loop (App.progressive_streams yt) ∅ []
  = (fun s => App.video_format (AppSpec.label s) s) <$>
      first_per_label AppSpec.label (filter AppSpec.selected (App.progressive_streams yt)).
Proof.
  rewrite app_video_loop_collect, collect_first_per_label, filter_unseen_empty.
  do 2 f_equal. apply list_filter_iff, app_selected_eligible.
Qed.

Lemma app_videos_video (yt : App.YouTube) :
  Forall is_video (sort_formats (App.video_loop (App.progressive_streams yt) ∅ [])).
Proof.
  rewrite sort_formats_perm, app_video_loop_collect.
  by apply collect_Forall.
Qed.

Lemma app_audio_audio (l : list App.Stream) : Forall is_audio (App.audio_part l).
Proof. destruct l; simpl; repeat constructor. Qed.

Lemma app_audio_length (l : list App.Stream) : (length (App.audio_part l) <= 1)%nat.
Proof. destruct l; simpl; lia. Qed.

(** *** [production.py] *)

Lemma production_video_loop_collect (l : list Production.RawFormat) (seen : gset string)
    (acc : list FormatDescriptor) :
  Production.video_loop l seen acc
  = collect Production.is_video_entry Production.quality_of
            Production.video_format l seen acc.
Proof.
  revert seen acc. induction l as [|s l IH]; intros seen acc; simpl; [done|].
  destruct (Production.is_video_entry s); [|apply IH].
  destruct (bool_decide _ && bool_decide _); apply IH.
Qed.

(** A label of the allow-list comes from a height that is present and not
    zero. *)
Lemma production_label_height (fmt : Production.RawFormat) :
  Production.quality_of fmt ∈ quality_priorities ->
  Production.truthy_int (Production.height fmt) = true.
Proof.
  unfold Production.quality_of, Production.truthy_int.
  destruct (Production.height fmt) as [h|]; simpl.
  - destruct (Z.eqb_spec h 0) as [->|]; [|done].
    intros Hin. apply priority_recognized in Hin. vm_compute in Hin. lia.
  - intros Hin. apply priority_recognized in Hin. vm_compute in Hin. lia.
Qed.

Lemma production_selected_eligible (fmt : Production.RawFormat) :
  ProductionSpec.identified fmt ->
  Production.is_video_entry fmt = true /\ Production.quality_of fmt ∈ quality_priorities
  <-> ProductionSpec.selected fmt.
Proof.
  unfold ProductionSpec.identified, ProductionSpec.selected, ProductionSpec.progressive,
    Production.is_video_entry.
  intros Hid. rewrite Hid, andb_true_r.
  rewrite !andb_true_iff, !negb_true_iff, !bool_decide_eq_false, bool_decide_eq_true.
  split.
  - tauto.
  - intros [[Hv Ha] [He Hq]]. pose proof (production_label_height fmt Hq). tauto.
Qed.

Lemma production_videos (fmts : list Production.RawFormat) :
  Forall ProductionSpec.identified fmts ->
  Production.video_loop fmts ∅ []
  = (fun f => Production.video_format (Production.quality_of f) f) <$>
      first_per_label Production.quality_of (filter ProductionSpec.selected fmts).
Proof.
  intros Hid.
  rewrite production_video_loop_collect, collect_first_per_label, filter_unseen_empty.
  do 2 f_equal. apply filter_ext_in.
  intros x Hx. apply production_selected_eligible.
  rewrite Forall_forall in Hid. by apply Hid.
Qed.

Lemma production_videos_video (fmts : list Production.RawFormat) :
  Forall is_video (sort_formats (Production.video_loop fmts ∅ [])).
Proof.
  rewrite sort_formats_perm, production_video_loop_collect.
  by apply collect_Forall.
Qed.

Lemma production_audio_audio (l : list Production.RawFormat) :
  Forall is_audio (Production.audio_part l).
Proof.
  induction l as [|f l IH]; simpl; [constructor|].
  destruct (Production.is_audio_entry f); [|done]. repeat constructor.
Qed.

Lemma production_audio_length (l : list Production.RawFormat) :
  (length (Production.audio_part l) <= 1)%nat.
Proof.
  induction l as [|f l IH]; simpl; [lia|].
  destruct (Production.is_audio_entry f); simpl; lia.
Qed.

(** The second loop of [production.py] takes the first entry that passes its
    test, whatever the bitrates. *)
Lemma production_audio_first (l : list Production.RawFormat) :
  Production.audio_part l
  = match List.find Production.is_audio_entry l with
    | Some fmt => [Production.audio_format fmt]
    | None => []
    end.
Proof.
  induction l as [|f l IH]; simpl; [done|].
  by destruct (Production.is_audio_entry f).
Qed.

(** ** The resolved format list *)

Lemma app_format_order (yt : App.YouTube) : format_order (App.resolve_formats yt).
Proof.
  exists (sort_formats (App.video_loop (App.progressive_streams yt) ∅ [])),
         (App.audio_part (App.audio_streams yt)).
  split; [done|]. split; [apply app_videos_video|].
  split; [apply sort_formats_sorted|].
  split; [apply sorted_unrecognized_last, sort_formats_sorted|].
  split; [apply app_audio_audio | apply app_audio_length].
Qed.

Lemma production_format_order (fmts : list Production.RawFormat) :
  format_order (Production.resolve_formats fmts).
Proof.
  exists (sort_formats (Production.video_loop fmts ∅ [])), (Production.audio_part fmts).
  split; [done|]. split; [apply production_videos_video|].
  split; [apply sort_formats_sorted|].
  split; [apply sorted_unrecognized_last, sort_formats_sorted|].
  split; [apply production_audio_audio | apply production_audio_length].
Qed.

(** C4. A resolved format list, of either file, is its video descriptors in
    the order of the priorities (1080p, 720p, 480p, 360p, 240p) followed by
    at most one audio descriptor; and the sort that orders the video
    descriptors puts, in any list, the entries with an unrecognized label
    after all those with a recognized one. *)
Theorem formats_ordered :
  (forall yt : App.YouTube, format_order (App.resolve_formats yt))
  /\ (forall fmts : list Production.RawFormat,
        format_order (Production.resolve_formats fmts))
  /\ (forall l : list FormatDescriptor,
        sort_formats l ≡ₚ l
        /\ StronglySorted by_priority (sort_formats l)
        /\ unrecognized_last (sort_formats l)).
Proof.
  split; [apply app_format_order|].
  split; [apply production_format_order|].
  intros l. split; [apply sort_formats_perm|].
  split; [apply sort_formats_sorted|].
  apply sorted_unrecognized_last, sort_formats_sorted.
Qed.

(** The example of the specification: entries at 360p, 1080p and 480p come
    out as 1080p, 480p, 360p, and a label such as 144p goes last. *)
Example sort_formats_example :
  let d q := mkFormat "video" q "video/mp4" "18" None "18" "mp4" in
  quality <$> sort_formats [d "360p"; d "1080p"; d "480p"] = ["1080p"; "480p"; "360p"]
  /\ quality <$> sort_formats [d "144p"; d "360p"; d "1080p"] = ["1080p"; "360p"; "144p"].
Proof. split; reflexivity. Qed.

Lemma NoDup_quality_sorted {A} (label : A -> string) (mk : string -> A -> FormatDescriptor)
    (l : list A) :
  (forall q x, quality (mk q x) = q) ->
  NoDup (quality <$> sort_formats ((fun x => mk (label x) x) <$> first_per_label label l)).
Proof.
  intros Hq. rewrite sort_formats_perm, <-list_fmap_compose.
  rewrite (list_fmap_ext _ label (first_per_label label l)).
  - apply first_per_label_NoDup.
  - intros i x _. simpl. apply Hq.
Qed.

(** A descriptor of the sorted list comes from the first entry of its
    label. *)
Lemma elem_of_sorted_first_per_label {A} (label : A -> string)
    (mk : A -> FormatDescriptor) (l : list A) (d : FormatDescriptor) :
  d ∈ sort_formats (mk <$> first_per_label label l)
  <-> exists i x, l !! i = Some x /\ d = mk x
        /\ forall j y, (j < i)%nat -> l !! j = Some y -> label y <> label x.
Proof.
  rewrite sort_formats_perm, list_elem_of_fmap. split.
  - intros (x & -> & Hx). apply first_per_label_lookup in Hx as (i & Hi & Hfirst).
    by exists i, x.
  - intros (i & x & Hi & -> & Hfirst). exists x. split; [done|].
    apply first_per_label_lookup. by exists i.
Qed.

Lemma production_listed_eligible (fmt : Production.RawFormat) :
  Production.is_video_entry fmt = true /\ Production.quality_of fmt ∈ quality_priorities
  <-> ProductionSpec.listed fmt.
Proof.
  split.
  - intros [Hentry Hq].
    assert (ProductionSpec.identified fmt) as Hid.
    { unfold Production.is_video_entry in Hentry.
      by apply andb_true_iff in Hentry as [_ Hentry]. }
    split; [|done]. by apply production_selected_eligible.
  - intros [Hsel Hid]. by apply production_selected_eligible.
Qed.

Lemma production_videos_listed (fmts : list Production.RawFormat) :
  Production.video_loop fmts ∅ []
  = (fun f => Production.video_format (Production.quality_of f) f) <$>
      first_per_label Production.quality_of (filter ProductionSpec.listed fmts).
Proof.
  rewrite production_video_loop_collect, collect_first_per_label, filter_unseen_empty.
  do 2 f_equal. apply list_filter_iff, production_listed_eligible.
Qed.

(** C7. The video descriptors of a resolved format list are exactly the
    descriptors of the listed entries, one per resolution label, the first
    entry of each label, put in the order of the priorities.  In [app.py]
    the entries are the streams the collaborator returns for the query of
    progressive mp4 streams, to which the handler leaves that restriction,
    and the listed ones are those with a label of the allow-list.  In
    [production.py] the listed entries are the progressive ones of
    extension mp4 with a label of the allow-list that carry a format
    identifier: the loop guards on it, and an entry without one is passed
    over.  Each statement gives the list, says that no label occurs twice in
    it, and says which entry a descriptor comes from: the listed entry that
    no listed entry of the same label precedes. *)
Theorem video_descriptors_exact :
  (forall yt : App.YouTube,
     let videos := filter is_video (App.resolve_formats yt) in
     let entries := filter AppSpec.selected (App.progressive_streams yt) in
     let descriptor := fun s => App.video_format (AppSpec.label s) s in
     videos = sort_formats (descriptor <$> first_per_label AppSpec.label entries)
     /\ NoDup (quality <$> videos)
     /\ (forall d, d ∈ videos <->
           exists i s, entries !! i = Some s /\ d = descriptor s
             /\ forall j s', (j < i)%nat -> entries !! j = Some s' ->
                   AppSpec.label s' <> AppSpec.label s))
  /\ (forall fmts : list Production.RawFormat,
        let videos := filter is_video (Production.resolve_formats fmts) in
        let entries := filter ProductionSpec.listed fmts in
        let descriptor := fun f => Production.video_format (Production.quality_of f) f in
        videos = sort_formats (descriptor <$> first_per_label Production.quality_of entries)
        /\ NoDup (quality <$> videos)
        /\ (forall d, d ∈ videos <->
              exists i f, entries !! i = Some f /\ d = descriptor f
                /\ forall j f', (j < i)%nat -> entries !! j = Some f' ->
                      Production.quality_of f' <> Production.quality_of f)).
Proof.
  split.
  - intros yt videos entries descriptor.
    assert (videos = sort_formats (descriptor <$> first_per_label AppSpec.label entries))
      as ->.
    { unfold videos, App.resolve_formats.
      rewrite filter_video_app by (apply app_videos_video || apply app_audio_audio).
      by rewrite app_videos. }
    split; [done|]. split.
    + by apply (NoDup_quality_sorted AppSpec.label App.video_format).
    + intros d. apply elem_of_sorted_first_per_label.
  - intros fmts videos entries descriptor.
    assert (videos
            = sort_formats (descriptor <$> first_per_label Production.quality_of entries))
      as ->.
    { unfold videos, Production.resolve_formats.
      rewrite filter_video_app
        by (apply production_videos_video || apply production_audio_audio).
      by rewrite production_videos_listed. }
    split; [done|]. split.
    + by apply (NoDup_quality_sorted Production.quality_of Production.video_format).
    + intros d. apply elem_of_sorted_first_per_label.
Qed.

(** The claim as it was stated fails in [production.py]: a progressive mp4
    entry of 720 lines without a format identifier is one of the entries the
    claim selects, and no descriptor is made of it. *)
Lemma unidentified_entry_not_listed :
  ProductionSpec.selected Sample.video_unidentified
  /\ filter is_video (Production.resolve_formats [Sample.video_unidentified]) = [].
Proof.
  split; [|vm_compute; reflexivity].
  split; [split; discriminate|]. split; [reflexivity|].
  apply list_elem_of_In. vm_compute. tauto.
Qed.

Lemma video_descriptors_exact_witness :
  (fun d => (quality d, fd_itag d)) <$>
    filter is_video
      (Production.resolve_formats
         [Sample.video 360 "18"; Sample.audio_high; Sample.video 1080 "37";
          Sample.video 360 "134"; Sample.video 144 "17"; Sample.video 480 "35"])
  = [("1080p", "37"); ("480p", "35"); ("360p", "18")].
Proof.
  destruct video_descriptors_exact as [_ H].
  specialize (H [Sample.video 360 "18"; Sample.audio_high; Sample.video 1080 "37";
                 Sample.video 360 "134"; Sample.video 144 "17"; Sample.video 480 "35"]).
  destruct H as (H & _ & _).
  rewrite H. reflexivity.
Defined.

Lemma collect_ext {A} (eligible : A -> bool) (label : A -> string)
    (mk : string -> A -> FormatDescriptor) (P : FormatDescriptor -> Prop)
    (l : list A) (seen : gset string) (acc : list FormatDescriptor) :
  (forall q x, P (mk q x)) -> Forall P acc ->
  Forall P (collect eligible label mk l seen acc).
Proof.
  intros Hmk. revert seen acc. induction l as [|x l IH]; intros seen acc Hacc; simpl; [done|].
  destruct (eligible x); [|by apply IH].
  destruct (bool_decide _ && bool_decide _); [|by apply IH].
  apply IH. rewrite Forall_app. split; [done|]. by constructor.
Qed.

(** C10. Every descriptor of a resolved format list, of either file, has
    the extension field [mp4]; this holds of the audio descriptor too, whose
    quality label starts with [MP3]. *)
Theorem every_descriptor_ext_mp4 :
  (forall yt : App.YouTube,
     Forall (fun d => fd_ext d = "mp4") (App.resolve_formats yt)
     /\ Forall (fun d => PyStr.startswith "MP3" (quality d) = true /\ fd_ext d = "mp4")
               (filter is_audio (App.resolve_formats yt)))
  /\ (forall fmts : list Production.RawFormat,
        Forall (fun d => fd_ext d = "mp4") (Production.resolve_formats fmts)
        /\ Forall (fun d => PyStr.startswith "MP3" (quality d) = true /\ fd_ext d = "mp4")
                  (filter is_audio (Production.resolve_formats fmts))).
Proof.
  split.
  - intros yt. unfold App.resolve_formats.
    rewrite filter_audio_app by (apply app_videos_video || apply app_audio_audio).
    rewrite !Forall_app. repeat split.
    + rewrite sort_formats_perm, app_video_loop_collect. by apply collect_ext.
    + destruct (App.audio_streams yt); simpl; repeat constructor.
    + destruct (App.audio_streams yt) as [|s ?]; simpl; repeat constructor.
      unfold App.audio_format. simpl.
      by destruct (if PyStr.truthy_opt (App.abr s) then App.abr s else None).
  - intros fmts. unfold Production.resolve_formats.
    rewrite filter_audio_app
      by (apply production_videos_video || apply production_audio_audio).
    rewrite !Forall_app. repeat split.
    + rewrite sort_formats_perm, production_video_loop_collect. by apply collect_ext.
    + induction fmts as [|f l IH]; simpl; [constructor|].
      destruct (Production.is_audio_entry f); [|done]. repeat constructor.
    + induction fmts as [|f l IH]; simpl; [constructor|].
      destruct (Production.is_audio_entry f); [|done]. repeat constructor.
      unfold Production.audio_format, Production.audio_quality. simpl.
      by destruct (Production.truthy_num (Production.abr f)).
Qed.

(** C2, on [production.py].  The raw list holds two audio-only m4a entries,
    of 48 and of 128 kbit/s, in this order: the audio descriptor of the
    resolved list is built from the first, labelled [MP3 48kbps], and not
    from the entry of the highest bitrate. *)
Theorem audio_descriptor_is_first_match :
  Production.is_audio_entry Sample.audio_low = true
  /\ Production.is_audio_entry Sample.audio_high = true
  /\ filter is_audio (Production.resolve_formats [Sample.audio_low; Sample.audio_high])
     = [Production.audio_format Sample.audio_low]
  /\ quality (Production.audio_format Sample.audio_low) = "MP3 48kbps"
  /\ quality (Production.audio_format Sample.audio_high) = "MP3 128kbps".
Proof. repeat split; reflexivity. Qed.

(** ** The cache *)

Lemma get_cached_info_eq (now : Q) (key : string) (w : World) :
  get_cached_info now key w
  = (Returned (cached_value now (cache_dir w !! (key +:+ ".json"))), w).
Proof.
  unfold get_cached_info, bind, gets, try_except, lift, ret, cached_value.
  destruct (cache_dir w !! (key +:+ ".json")) as [f|]; [|done].
  by destruct (read_cached now f) as [[info|]|e].
Qed.

Lemma cache_info_eq (wo : write_outcome) (now : Q) (key : string) (info : json) (w : World) :
  cache_info wo now key info w
  = (Returned tt,
     set_cache_dir
       (stored wo (key +:+ ".json") (JDict [("info", info); ("timestamp", JNum now)])
               (cache_dir w)) w).
Proof.
  unfold cache_info, try_except, json_dump, bind, modify, raise, ret, stored.
  destruct wo; simpl; [done| |done].
  by destruct w.
Qed.

Lemma Qltb_true (x y : Q) : Qltb x y = true <-> (x < y)%Q.
Proof.
  unfold Qltb. rewrite negb_true_iff, <-not_true_iff_false, Qle_bool_iff.
  split; [apply Qnot_le_lt | apply Qlt_not_le].
Qed.

Lemma Qltb_false (x y : Q) : Qltb x y = false <-> (y <= x)%Q.
Proof.
  unfold Qltb. rewrite negb_false_iff, Qle_bool_iff. done.
Qed.

(** The record [cache_info] writes, read back at time [now]. *)
Lemma cached_value_stored (now t : Q) (info : json) :
  cached_value now (Some (Document (JDict [("info", info); ("timestamp", JNum t)])))
  = if Qltb (now - t) CACHE_DURATION then info else JNull.
Proof.
  unfold cached_value, read_cached. simpl.
  by destruct (Qltb (now - t) CACHE_DURATION).
Qed.

(** C6. After [cache_info] has written the record of [info] under the key
    of the URL [u] at time [t], a lookup of [u] made less than 3600 seconds
    later, at once in particular, returns [info] as it was stored; a lookup
    made 3600 seconds after [t] or later returns [None]. *)
Theorem cache_round_trip `{!PyLib} (u : string) (info : json) (t t' : Q) (w : World) :
  let key := get_cache_key u in
  let w1 := (cache_info Written t key info w).2 in
  ((t' - t < 3600)%Q -> get_cached_info t' key w1 = (Returned info, w1))
  /\ ((3600 <= t' - t)%Q -> get_cached_info t' key w1 = (Returned JNull, w1)).
Proof.
  intros key w1. unfold w1. rewrite cache_info_eq. simpl.
  split; intros Ht; rewrite get_cached_info_eq; simpl;
    rewrite lookup_insert_eq, cached_value_stored.
  - apply Qltb_true in Ht. unfold CACHE_DURATION. by rewrite Ht.
  - apply Qltb_false in Ht. unfold CACHE_DURATION. by rewrite Ht.
Qed.

(** ** The handler [get_video_info] *)

Lemma resolve_block_eq {A} (resolve : string -> A -> outcome VideoInfo) (env : InfoEnv A)
    (video_id clean_url cache_key : string) (w : World) :
  try_except (resolve_block resolve env video_id clean_url cache_key)
             (fun e => ret (error_response ("Error accessing YouTube: " +:+ e) 400)) w
  = (Returned (resolve_result resolve env video_id clean_url cache_key w).1,
     (resolve_result resolve env video_id clean_url cache_key w).2).
Proof.
  unfold resolve_block, resolve_result, try_except, bind, log, modify, lift, ret.
  destruct (probe env) as [yt|e]; [|done].
  destruct (resolve video_id yt) as [vi|e]; [|done].
  destruct (bool_decide (formats vi = [])); [done|].
  by rewrite cache_info_eq.
Qed.

Lemma lookup_block_eq `{!PyLib} {A} (resolve : string -> A -> outcome VideoInfo)
    (env : InfoEnv A) (url : string) (h : string -> M Response) (w : World) :
  try_except (lookup_block resolve env url) h w
  = (Returned (lookup_result resolve env url w).1, (lookup_result resolve env url w).2).
Proof.
  unfold lookup_block, lookup_result.
  unfold try_except at 1. unfold bind at 1. unfold log, modify.
  destruct (bad_video_id (extract_video_id url)); [done|].
  unfold bind. rewrite get_cached_info_eq.
  destruct (json_truthy _); [done|].
  by rewrite resolve_block_eq.
Qed.

Lemma assoc_Some_nonempty (k : string) (items : list (string * json)) (v : json) :
  assoc k items = Some v -> json_truthy (JDict items) = true.
Proof. by destruct items. Qed.

(** A request that carries a URL string is answered by the two checks of the
    URL or by the middle [try]. *)
Lemma get_video_info_with_url `{!PyLib} {A} (resolve : string -> A -> outcome VideoInfo)
    (env : InfoEnv A) (req : InfoRequest) (s : string) (w : World) :
  has_url req s ->
  get_video_info_with resolve env req w
  = if negb (PyStr.truthy (PyStr.strip s)) then
      (Returned (error_response "URL cannot be empty" 400), w)
    else if negb (is_valid_youtube_url (PyStr.strip s)) then
      (Returned (error_response
                   "Invalid YouTube URL. Please enter a valid YouTube video URL." 400), w)
    else (Returned (lookup_result resolve env (PyStr.strip s) w).1,
          (lookup_result resolve env (PyStr.strip s) w).2).
Proof.
  intros (Hj & items & Hg & Hu).
  unfold get_video_info_with. unfold try_except at 1.
  rewrite Hj. simpl. unfold bind at 1. unfold lift at 1. rewrite Hg.
  unfold bind at 1. unfold lift at 1.
  rewrite (assoc_Some_nonempty _ _ _ Hu). simpl.
  rewrite Hu. rewrite bool_decide_eq_false_2 by done.
  unfold bind at 1. unfold lift at 1.
  unfold bind at 1. unfold lift at 1. simpl.
  destruct (PyStr.truthy (PyStr.strip s)); simpl; [|done].
  destruct (is_valid_youtube_url (PyStr.strip s)); simpl; [|done].
  by rewrite lookup_block_eq.
Qed.




(** ** The handler [download] *)

(** A request that passes the two checks, with a fresh directory: the
    response is that of the innermost [try], and when that raises, the answer
    is 500 and the directory is removed. *)
Lemma download_with_accepted (fetch : string -> string -> string -> M Response)
    (offered : outcome string) (url itag : option string) (u i d : string) (w : World) :
  accepted url itag u i -> offered = Returned d -> temp_dirs w !! d = None ->
  download_with fetch offered url itag w
  = match fetch u i d (prepared d w) with
    | (Returned r, w') => (Returned r, w')
    | (Raised e, w') =>
        (Returned (error_response ("Error downloading video: " +:+ e) 500), removed d w')
    end.
Proof.
  intros (-> & -> & Hu & Hi & Hv) -> Hd.
  unfold download_with, try_except, bind, mkdtemp, rmtree, modify, raise, ret. simpl.
  rewrite Hu, Hi, Hv. simpl. rewrite Hd.
  by destruct (fetch u i d (prepared d w)) as [[r|e] w'].
Qed.


Lemma file_content_written (d name : string) (files : list (string * string)) (w : World) :
  temp_dirs w !! d = Some [] ->
  file_content (written_to d files w) (d, name)
  = snd <$> List.find (fun f => bool_decide (f.1 = name)) files.
Proof.
  intros Hd. unfold file_content, written_to. simpl.
  by rewrite lookup_alter_eq, Hd.
Qed.

Lemma find_name_None (name : string) (files : list (string * string)) :
  name ∉ files.*1 -> List.find (fun f => bool_decide (f.1 = name)) files = None.
Proof.
  induction files as [|f files IH]; simpl; [done|].
  rewrite not_elem_of_cons. intros [Hne Hnot].
  rewrite bool_decide_eq_false_2 by done. by apply IH.
Qed.

(** *** [app.py] *)


Lemma app_fetch_not_found (env : App.DownloadEnv) (u i d : string) (w : World)
    (by_itag : Z -> option App.Stream) (n : Z) :
  App.streams env = Returned by_itag -> int_of_string i = Returned n -> by_itag n = None ->
  App.fetch env u i d w
  = (Returned (error_response "Invalid format ID or stream not found" 400),
     logged (CallFetch u i) w).
Proof.
  intros Hs Hn Hq. unfold App.fetch, bind, lift, log, modify, ret.
  by rewrite Hs, Hn, Hq.
Qed.


Lemma app_fetch_file_missing (env : App.DownloadEnv) (u i d : string) (w : World)
    (by_itag : Z -> option App.Stream) (n : Z) (stream : App.Stream)
    (written : list (string * string)) (output_path : option file_path) :
  temp_dirs w !! d = Some [] ->
  App.streams env = Returned by_itag -> int_of_string i = Returned n ->
  by_itag n = Some stream ->
  App.stream_download env stream d = (written, Returned output_path) ->
  app_file_missing d written output_path ->
  App.fetch env u i d w
  = (Returned (error_response "Download failed or file not found" 500),
     written_to d written (logged (CallFetch u i) w)).
Proof.
  intros Hw Hs Hn Hq Hd Hmiss.
  unfold App.fetch, write_files, path_exists, bind, lift, log, modify, ret, gets.
  rewrite Hs, Hn, Hq, Hd.
  destruct Hmiss as [->|(name & -> & Hname)]; [done|].
  rewrite file_content_written by done.
  by rewrite find_name_None.
Qed.


(** *** [production.py] *)

Lemma production_fetch_raise (env : Production.DownloadEnv) (u i d e : string) (w : World)
    (written : list (string * string)) :
  Production.extract_info env u i d = (written, Raised e) ->
  Production.fetch env u i d w = (Raised e, written_to d written (logged (CallFetch u i) w)).
Proof.
  intros Hd. unfold Production.fetch, write_files, bind, lift, log, modify, ret.
  by rewrite Hd.
Qed.

Lemma production_fetch_file_missing (env : Production.DownloadEnv) (u i d : string)
    (w : World) (written : list (string * string)) :
  temp_dirs w !! d = Some [] ->
  Production.extract_info env u i d = (written, Returned tt) ->
  production_file_missing written ->
  Production.fetch env u i d w
  = (Returned (error_response "Download failed or file not found" 500),
     written_to d written (logged (CallFetch u i) w)).
Proof.
  intros Hw Hd Hnone.
  unfold Production.fetch, write_files, path_exists, bind, lift, log, modify, ret, gets.
  rewrite Hd. simpl. rewrite lookup_alter_eq, Hw. simpl.
  unfold Production.find_downloaded. by rewrite Hnone.
Qed.


(** ** The handlers and the claims on them *)

Ltac front_run :=
  repeat first
    [ progress simpl
    | progress (unfold bind at 1; unfold lift at 1)
    | match goal with H : ?l = _ |- context [?l] => rewrite H end ].

Ltac front_answer :=
  eexists; split;
  [| intros env w; unfold get_video_info_with; unfold try_except at 1;
     front_run; reflexivity ];
  simpl; auto.

(** What a request does up to the middle [try] depends on the request only:
    it is answered there, with the world as it was, or it reaches the middle
    [try] with a URL that passed validation. *)
Lemma get_video_info_with_front `{!PyLib} {A} (resolve : string -> A -> outcome VideoInfo)
    (req : InfoRequest) :
  (exists r, (status r = 400 \/ status r = 500)%Z /\
     forall (env : InfoEnv A) w, get_video_info_with resolve env req w = (Returned r, w))
  \/ (exists url, is_valid_youtube_url url = true /\
        forall (env : InfoEnv A) w,
          get_video_info_with resolve env req w
          = (Returned (lookup_result resolve env url w).1,
             (lookup_result resolve env url w).2)).
Proof.
  destruct (is_json req) eqn:Hj; [|left; front_answer].
  destruct (get_json req) as [data|e] eqn:Hg; [|left; front_answer].
  destruct (json_truthy data) eqn:Ht; [|left; front_answer].
  destruct (url_missing data) as [[|]|e] eqn:Hm; [left; front_answer| |left; front_answer].
  destruct (subscript data "url") as [raw|e] eqn:Hr; [|left; front_answer].
  destruct (json_strip raw) as [url|e] eqn:Hs; [|left; front_answer].
  destruct (PyStr.truthy url) eqn:Hu; [|left; front_answer].
  destruct (is_valid_youtube_url url) eqn:Hv; [|left; front_answer].
  right. exists url. split; [done|]. intros env w.
  unfold get_video_info_with. unfold try_except at 1. front_run.
  by rewrite lookup_block_eq.
Qed.

Lemma resolve_result_cache_write {A} (resolve : string -> A -> outcome VideoInfo)
    (env : InfoEnv A) (wo : write_outcome) (video_id clean_url cache_key : string) (w : World) :
  (resolve_result resolve (with_cache_write wo env) video_id clean_url cache_key w).1
  = (resolve_result resolve env video_id clean_url cache_key w).1.
Proof.
  unfold resolve_result. simpl.
  destruct (probe env) as [yt|e]; [|done].
  destruct (resolve video_id yt) as [vi|e]; [|done].
  by destruct (bool_decide (formats vi = [])).
Qed.

Lemma lookup_result_cache_write `{!PyLib} {A} (resolve : string -> A -> outcome VideoInfo)
    (env : InfoEnv A) (wo : write_outcome) (url : string) (w : World) :
  (lookup_result resolve (with_cache_write wo env) url w).1
  = (lookup_result resolve env url w).1.
Proof.
  unfold lookup_result. simpl.
  destruct (bad_video_id (extract_video_id url)); [done|].
  destruct (json_truthy _); [done|]. apply resolve_result_cache_write.
Qed.

(** C9. The cache operations never raise.  [get_cached_info] always returns,
    leaves the world as it was, and returns [None] when the file is missing,
    cannot be read or cannot be parsed; [cache_info] always returns,
    whatever the end of the write, and touches nothing but the cache
    directory; and the response of [get_video_info] does not depend on how
    the write ends. *)
Theorem cache_never_raises `{!PyLib} :
  (forall (now : Q) (key : string) (w : World),
     exists v, get_cached_info now key w = (Returned v, w)
       /\ (cache_dir w !! (key +:+ ".json") = None
           \/ cache_dir w !! (key +:+ ".json") = Some Unreadable
           \/ cache_dir w !! (key +:+ ".json") = Some Unparsable -> v = JNull))
  /\ (forall (wo : write_outcome) (now : Q) (key : string) (info : json) (w : World),
        exists w', cache_info wo now key info w = (Returned tt, w')
          /\ temp_dirs w' = temp_dirs w /\ calls w' = calls w)
  /\ (forall (A : Type) (resolve : string -> A -> outcome VideoInfo) (env : InfoEnv A)
             (req : InfoRequest) (w : World) (wo : write_outcome),
        (get_video_info_with resolve (with_cache_write wo env) req w).1
        = (get_video_info_with resolve env req w).1).
Proof.
  split; [|split].
  - intros now key w. eexists. split; [apply get_cached_info_eq|].
    by intros [->|[->| ->]].
  - intros wo now key info w. eexists. split; [apply cache_info_eq|]. done.
  - intros A resolve env req w wo.
    destruct (get_video_info_with_front resolve req) as [(r & _ & Hr)|(url & _ & Hr)].
    + by rewrite !Hr.
    + rewrite !Hr. simpl. by rewrite lookup_result_cache_write.
Qed.

(** C8. A URL that matches neither pattern fails validation, and a request
    that carries it is answered 400 with the world as it was: no identifier
    extraction, no collaborator call, no file.  The URL is the one the
    handler validates: the [url] field of the body without the white space
    around it in [get_video_info], the [url] parameter in [download].
    [App.get_video_info] and [Production.get_video_info] are
    [get_video_info_with] at the resolver of each file, the two [download]
    are [download_with] at the [fetch] of each file. *)
Theorem invalid_url_rejected `{!PyLib} (url : string) :
  ~ matches_primary url -> ~ matches_secondary url ->
  is_valid_youtube_url url = false
  /\ (forall (A : Type) (resolve : string -> A -> outcome VideoInfo) (env : InfoEnv A)
             (req : InfoRequest) (s : string) (w : World),
        has_url req s -> PyStr.strip s = url ->
        rejects (get_video_info_with resolve env req) w 400)
  /\ (forall (fetch : string -> string -> string -> M Response) (offered : outcome string)
             (itag : option string) (w : World),
        rejects (download_with fetch offered (Some url) itag) w 400).
Proof.
  intros H1 H2.
  assert (is_valid_youtube_url url = false) as Hv.
  { apply not_true_is_false. rewrite is_valid_youtube_url_spec. tauto. }
  split; [done|]. split.
  - intros A resolve env req s w Hreq Hs. unfold rejects.
    rewrite (get_video_info_with_url resolve env req s w Hreq), Hs, Hv. simpl.
    destruct (PyStr.truthy url); simpl; by eexists.
  - intros fetch offered itag w.
    unfold rejects, download_with, try_except, ret. simpl. rewrite Hv. simpl.
    destruct (negb (PyStr.truthy url) || negb (PyStr.truthy_opt itag)); by eexists.
Qed.

Lemma bad_video_id_length (v : string) :
  String.length v = 11%nat -> bad_video_id (Some v) = false.
Proof.
  intros Hl. unfold bad_video_id. rewrite Hl. by destruct v.
Qed.

(** A request that passes validation and extraction and finds no usable
    cache record is answered by the innermost [try]. *)
Lemma get_video_info_with_identified `{!PyLib} {A}
    (resolve : string -> A -> outcome VideoInfo) (env : InfoEnv A) (req : InfoRequest)
    (v : string) (w : World) :
  identifies req v -> cache_miss env w v ->
  exists w1, cache_dir w1 = cache_dir w /\ temp_dirs w1 = temp_dirs w /\
    get_video_info_with resolve env req w
    = (Returned (resolve_result resolve env v (clean_url_of v)
                                (get_cache_key (clean_url_of v)) w1).1,
       (resolve_result resolve env v (clean_url_of v)
                       (get_cache_key (clean_url_of v)) w1).2).
Proof.
  intros (s & Hreq & Ht & Hv & He & Hl) Hmiss.
  exists (logged (CallExtractVideoId (PyStr.strip s)) w). split; [done|]. split; [done|].
  rewrite (get_video_info_with_url resolve env req s w Hreq), Ht, Hv. simpl.
  unfold lookup_result. rewrite He, (bad_video_id_length v Hl). simpl.
  unfold cache_miss in Hmiss. by rewrite Hmiss.
Qed.



(** ** The temporary directory of [download] *)

(** When the innermost [try] raises, the directory is removed. *)
Lemma download_with_raise_removes (fetch : string -> string -> string -> M Response)
    (offered : outcome string) (url itag : option string) (u i d e : string) (w w' : World) :
  accepted url itag u i -> offered = Returned d -> temp_dirs w !! d = None ->
  fetch u i d (prepared d w) = (Raised e, w') ->
  temp_dirs (download_with fetch offered url itag w).2 !! d = None.
Proof.
  intros Hacc Ho Hd Hf.
  rewrite (download_with_accepted fetch offered url itag u i d w Hacc Ho Hd), Hf.
  simpl. apply lookup_delete_eq.
Qed.

(** When the innermost [try] returns, the directory is as it left it. *)
Lemma download_with_return_keeps (fetch : string -> string -> string -> M Response)
    (offered : outcome string) (url itag : option string) (u i d : string) (r : Response)
    (w w' : World) :
  accepted url itag u i -> offered = Returned d -> temp_dirs w !! d = None ->
  fetch u i d (prepared d w) = (Returned r, w') ->
  download_with fetch offered url itag w = (Returned r, w').
Proof.
  intros Hacc Ho Hd Hf.
  by rewrite (download_with_accepted fetch offered url itag u i d w Hacc Ho Hd), Hf.
Qed.

(** The file is found: it is sent, and the directory removed before. *)
Lemma production_fetch_success (env : Production.DownloadEnv) (u i d : string) (w : World)
    (written : list (string * string)) (name data : string) :
  temp_dirs w !! d = Some [] ->
  Production.extract_info env u i d = (written, Returned tt) ->
  List.find (fun f => negb (PyStr.endswith ".part" f.1)) written = Some (name, data) ->
  exists data',
    Production.fetch env u i d w
    = (Returned (send_file data' name (mime_type_of name)),
       removed d (written_to d written (logged (CallFetch u i) w))).
Proof.
  intros Hw Hd Hfound.
  unfold Production.fetch, write_files, path_exists, read_file, rmtree, bind, lift, log,
    modify, ret, raise, gets.
  rewrite Hd. simpl. rewrite lookup_alter_eq, Hw. simpl.
  unfold Production.find_downloaded. rewrite Hfound. simpl.
  unfold file_content. simpl. rewrite lookup_alter_eq, Hw. simpl.
  destruct (List.find (fun f => bool_decide (f.1 = name)) written) as [[n' data']|] eqn:Hf.
  - simpl. rewrite lookup_alter_eq, Hw. simpl. rewrite Hf. by exists data'.
  - exfalso. apply find_some in Hfound as [Hin _].
    eapply find_none in Hf; [|exact Hin]. simpl in Hf.
    by rewrite bool_decide_eq_true_2 in Hf.
Qed.

Lemma app_fetch_success (env : App.DownloadEnv) (u i d : string) (w : World)
    (by_itag : Z -> option App.Stream) (n : Z) (stream : App.Stream)
    (written : list (string * string)) (name data : string) :
  temp_dirs w !! d = Some [] ->
  App.streams env = Returned by_itag -> int_of_string i = Returned n ->
  by_itag n = Some stream ->
  App.stream_download env stream d = (written, Returned (Some (d, name))) ->
  List.find (fun f => bool_decide (f.1 = name)) written = Some (name, data) ->
  App.fetch env u i d w
  = (Returned (send_file data name (mime_type_of name)),
     removed d (written_to d written (logged (CallFetch u i) w))).
Proof.
  intros Hw Hs Hn Hq Hd Hfound.
  unfold App.fetch, write_files, path_exists, read_file, rmtree, bind, lift, log,
    modify, ret, raise, gets.
  rewrite Hs, Hn, Hq, Hd. simpl.
  unfold file_content. simpl. rewrite lookup_alter_eq, Hw. simpl. rewrite Hfound. simpl.
  by rewrite lookup_alter_eq, Hw; simpl; rewrite Hfound.
Qed.

(** In [app.py], the request for an itag no stream has is answered 400 from
    inside the innermost [try], and the directory stays. *)
Lemma app_download_not_found_keeps_dir (env : App.DownloadEnv) (url itag : option string)
    (u i d : string) (w : World) (by_itag : Z -> option App.Stream) (n : Z) :
  accepted url itag u i -> App.offered_dir env = Returned d -> temp_dirs w !! d = None ->
  App.streams env = Returned by_itag -> int_of_string i = Returned n -> by_itag n = None ->
  exists w', App.download env url itag w
             = (Returned (error_response "Invalid format ID or stream not found" 400), w')
    /\ temp_dirs w' !! d = Some [].
Proof.
  intros Hacc Ho Hd Hs Hn Hq. unfold App.download.
  rewrite (download_with_accepted _ _ url itag u i d w Hacc Ho Hd).
  rewrite (app_fetch_not_found env u i d _ by_itag n Hs Hn Hq).
  eexists. split; [done|]. simpl. apply lookup_insert_eq.
Qed.

(** In both files, the request after which no file is found is answered 500
    from inside the innermost [try], and the directory stays, with what the
    collaborator wrote. *)
Lemma app_download_missing_keeps_dir (env : App.DownloadEnv) (url itag : option string)
    (u i d : string) (w : World) (by_itag : Z -> option App.Stream) (n : Z)
    (stream : App.Stream) (written : list (string * string))
    (output_path : option file_path) :
  accepted url itag u i -> App.offered_dir env = Returned d -> temp_dirs w !! d = None ->
  App.streams env = Returned by_itag -> int_of_string i = Returned n ->
  by_itag n = Some stream ->
  App.stream_download env stream d = (written, Returned output_path) ->
  app_file_missing d written output_path ->
  exists w', App.download env url itag w
             = (Returned (error_response "Download failed or file not found" 500), w')
    /\ temp_dirs w' !! d = Some written.
Proof.
  intros Hacc Ho Hd Hs Hn Hq Hdl Hmiss. unfold App.download.
  rewrite (download_with_accepted _ _ url itag u i d w Hacc Ho Hd).
  rewrite (app_fetch_file_missing env u i d _ by_itag n stream written output_path);
    [| |done..].
  - eexists. split; [done|]. simpl. by rewrite lookup_alter_eq, lookup_insert_eq.
  - simpl. apply lookup_insert_eq.
Qed.

Lemma production_download_missing_keeps_dir (env : Production.DownloadEnv)
    (url format_id : option string) (u i d : string) (w : World)
    (written : list (string * string)) :
  accepted url format_id u i -> Production.offered_dir env = Returned d ->
  temp_dirs w !! d = None ->
  Production.extract_info env u i d = (written, Returned tt) ->
  production_file_missing written ->
  exists w', Production.download env url format_id w
             = (Returned (error_response "Download failed or file not found" 500), w')
    /\ temp_dirs w' !! d = Some written.
Proof.
  intros Hacc Ho Hd Hdl Hmiss. unfold Production.download.
  rewrite (download_with_accepted _ _ url format_id u i d w Hacc Ho Hd).
  rewrite (production_fetch_file_missing env u i d _ written); [| |done..].
  - eexists. split; [done|]. simpl. by rewrite lookup_alter_eq, lookup_insert_eq.
  - simpl. apply lookup_insert_eq.
Qed.

(** C1, at two requests.  In [app.py] a valid URL with an itag that no stream
    has is answered 400 and the temporary directory is still there after the
    handler has returned; in [production.py] a download that leaves no
    finished file is answered 500 and the directory is still there, with the
    partial file in it.  (When the collaborator raises, and when the file is
    sent, the directory is removed.) *)
Theorem download_early_return_keeps_temp_dir :
  (App.download Sample.app_no_stream (Some Sample.short_url) (Some "99999")
                Sample.empty_world).1
  = Returned (error_response "Invalid format ID or stream not found" 400)
  /\ temp_dirs (App.download Sample.app_no_stream (Some Sample.short_url) (Some "99999")
                             Sample.empty_world).2 !! Sample.temp_dir
     = Some []
  /\ (Production.download Sample.production_no_file (Some Sample.short_url) (Some "22")
                          Sample.empty_world).1
     = Returned (error_response "Download failed or file not found" 500)
  /\ temp_dirs (Production.download Sample.production_no_file (Some Sample.short_url)
                                    (Some "22") Sample.empty_world).2 !! Sample.temp_dir
     = Some [("video.mp4.part", "partial")]
  /\ temp_dirs (Production.download Sample.production_raises (Some Sample.short_url)
                                    (Some "22") Sample.empty_world).2 !! Sample.temp_dir
     = None
  /\ temp_dirs (Production.download Sample.production_succeeds (Some Sample.short_url)
                                    (Some "22") Sample.empty_world).2 !! Sample.temp_dir
     = None.
Proof. repeat split; vm_compute; reflexivity. Qed.

(** ** Identifier extraction, branch by branch *)

Lemma split_nonempty (c : ascii) (s : string) : exists p ps, PyStr.split c s = p :: ps.
Proof.
  destruct s as [|a s]; simpl; [by eauto|].
  destruct (decide (a = c)); [by eauto|].
  destruct (PyStr.split c s); by eauto.
Qed.

Lemma split_lacks (c : ascii) (s : string) : PyStr.lacks c s = true -> PyStr.split c s = [s].
Proof.
  induction s as [|a s IH]; simpl; [done|].
  intros [Ha Hs]%andb_true_iff.
  apply negb_true_iff, bool_decide_eq_false in Ha.
  rewrite decide_False by done. by rewrite IH.
Qed.

(** A separator cuts the list of pieces in two. *)
Lemma split_app (c : ascii) (s t : string) :
  PyStr.split c (s +:+ String c t) = PyStr.split c s ++ PyStr.split c t.
Proof.
  induction s as [|a s IH].
  - simpl. change (EmptyString +:+ String c t) with (String c t). simpl.
    by rewrite decide_True.
  - rewrite append_cons. simpl. rewrite IH.
    destruct (decide (a = c)); [done|].
    by destruct (split_nonempty c s) as (p & ps & ->).
Qed.

Lemma lacks_app (c : ascii) (s t : string) :
  PyStr.lacks c (s +:+ t) = PyStr.lacks c s && PyStr.lacks c t.
Proof.
  induction s as [|a s IH]; [done|].
  rewrite append_cons. simpl. by rewrite IH, andb_assoc.
Qed.

(** The shortened form: the identifier is what follows the last [/], up to
    the first [?]. *)
Lemma extract_video_id_shortened `{!PyLib} (url : string) :
  PyStr.contains "youtu.be" url = true ->
  extract_video_id url
  = Some (PyStr.first_piece (PyStr.split "?" (PyStr.last_piece (PyStr.split "/" url)))).
Proof. intros Hc. unfold extract_video_id. by rewrite Hc. Qed.

(** The watch form: the first value of the query parameter [v]. *)
Lemma extract_video_id_query `{!PyLib} (url v : string) (vs : list string)
    (parsed : ParseResult) :
  PyStr.contains "youtu.be" url = false ->
  urlparse url = Some parsed ->
  PyStr.contains "youtube.com" (netloc parsed) = true ->
  parse_qs (query parsed) !! "v" = Some (v :: vs) ->
  extract_video_id url = Some v.
Proof.
  intros H1 H2 H3 H4. unfold extract_video_id. by rewrite H1, H2, H3, H4.
Qed.

(** The embed form: the last segment of the path. *)
Lemma extract_video_id_embed `{!PyLib} (url : string) (parsed : ParseResult) :
  PyStr.contains "youtu.be" url = false ->
  urlparse url = Some parsed ->
  PyStr.contains "youtube.com" (netloc parsed) = true ->
  parse_qs (query parsed) !! "v" = None ->
  PyStr.contains "embed" (path parsed) = true ->
  extract_video_id url = Some (PyStr.last_piece (PyStr.split "/" (path parsed))).
Proof.
  intros H1 H2 H3 H4 H5. unfold extract_video_id. by rewrite H1, H2, H3, H4, H5.
Qed.

(** A shortened URL gives its identifier, with or without a query, as long as
    the query holds no [/]. *)
Lemma extract_video_id_short_url `{!PyLib} (v rest : string) :
  PyStr.lacks "/" v = true -> PyStr.lacks "?" v = true -> PyStr.lacks "/" rest = true ->
  rest = EmptyString \/ (exists params, rest = String "?" params) ->
  extract_video_id ("https://youtu.be/" +:+ v +:+ rest) = Some v.
Proof.
  intros Hv1 Hv2 Hr Hrest.
  rewrite extract_video_id_shortened by reflexivity. f_equal.
  change ("https://youtu.be/" +:+ v +:+ rest)
    with ("https://youtu.be" +:+ String "/" (v +:+ rest)).
  rewrite split_app.
  rewrite (split_lacks "/" (v +:+ rest)) by (by rewrite lacks_app, Hv1, Hr).
  unfold PyStr.last_piece. rewrite last_last.
  destruct Hrest as [->|(params & ->)].
  - rewrite append_nil_r. by rewrite split_lacks.
  - rewrite split_app, split_lacks by done. reflexivity.
Qed.

(** C3, at one URL.  A watch URL with the extra query parameter
    [feature=youtu.be] passes validation, and [extract_video_id] returns
    [watch] for it, not the identifier it returns for the shortened URL of
    the same video; [get_video_info] answers the request 400. *)
Theorem extract_video_id_feature_param `{!PyLib} :
  is_valid_youtube_url Sample.feature_url = true
  /\ extract_video_id Sample.feature_url = Some "watch"
  /\ is_valid_youtube_url Sample.short_url = true
  /\ extract_video_id Sample.short_url = Some "dQw4w9WgXcQ"
  /\ (forall (A : Type) (resolve : string -> A -> outcome VideoInfo) (env : InfoEnv A)
             (w : World),
        answers_error (get_video_info_with resolve env (Sample.json_request Sample.feature_url))
                      w "Could not extract video ID from URL" 400).
Proof.
  assert (is_valid_youtube_url Sample.feature_url = true) as Hv by (vm_compute; reflexivity).
  assert (extract_video_id Sample.feature_url = Some "watch") as He by reflexivity.
  split; [exact Hv|]. split; [exact He|].
  split; [vm_compute; reflexivity|]. split; [reflexivity|].
  intros A resolve env w. unfold answers_error.
  rewrite (get_video_info_with_url resolve env _ Sample.feature_url w).
  - replace (PyStr.strip Sample.feature_url) with Sample.feature_url by reflexivity.
    rewrite Hv. replace (PyStr.truthy Sample.feature_url) with true by reflexivity.
    cbn [negb]. unfold lookup_result. rewrite He.
    replace (bad_video_id (Some "watch")) with true by reflexivity.
    eexists. reflexivity.
  - split; [reflexivity|]. eexists. split; reflexivity.
Qed.

(** ** The theorems at concrete inputs *)

Lemma cache_round_trip_witness :
  let key := @get_cache_key RefLib.lib (clean_url_of "dQw4w9WgXcQ") in
  let w1 := (cache_info Written 1000 key (JStr "info") Sample.empty_world).2 in
  get_cached_info 1000 key w1 = (Returned (JStr "info"), w1)
  /\ get_cached_info 4600 key w1 = (Returned JNull, w1).
Proof.
  intros key w1. split.
  - destruct (@cache_round_trip RefLib.lib (clean_url_of "dQw4w9WgXcQ") (JStr "info")
                1000 1000 Sample.empty_world) as [H _].
    apply H. reflexivity.
  - destruct (@cache_round_trip RefLib.lib (clean_url_of "dQw4w9WgXcQ") (JStr "info")
                1000 4600 Sample.empty_world) as [_ H].
    apply H. vm_compute. discriminate.
Defined.

Lemma cache_never_raises_witness :
  get_cached_info 1000 "0123abcd" (mkWorld {["0123abcd.json" := Unparsable]} ∅ [])
  = (Returned JNull, mkWorld {["0123abcd.json" := Unparsable]} ∅ []).
Proof.
  destruct (@cache_never_raises RefLib.lib) as (H & _ & _).
  destruct (H 1000%Q "0123abcd" (mkWorld {["0123abcd.json" := Unparsable]} ∅ []))
    as (v & Hv & Hnull).
  rewrite Hv. f_equal. f_equal. apply Hnull.
  right. right. vm_compute. reflexivity.
Defined.

Lemma invalid_url_rejected_witness :
  is_valid_youtube_url Sample.foreign_url = false
  /\ rejects (@Production.get_video_info RefLib.lib Sample.probe_raises
                (Sample.json_request ("  " +:+ Sample.foreign_url)))
             Sample.empty_world 400
  /\ rejects (Production.download Sample.production_succeeds
                (Some Sample.foreign_url) (Some "22"))
             Sample.empty_world 400.
Proof.
  destruct (@invalid_url_rejected RefLib.lib Sample.foreign_url) as (H1 & H2 & H3).
  - intros H. apply prefix_match_spec in H. vm_compute in H. discriminate.
  - intros H. apply match_to_end_spec in H. vm_compute in H. discriminate.
  - split; [exact H1|]. split.
    + apply (H2 _ Production.resolve Sample.probe_raises _ ("  " +:+ Sample.foreign_url)).
      * split; [reflexivity|]. eexists. split; reflexivity.
      * vm_compute. reflexivity.
    + apply H3.
Defined.


(** * Further properties *)

(** ** Strings *)

Lemma rev_app_rev_app (s t u : string) :
  String.rev_app (String.rev_app s t) u = String.rev_app t (s +:+ u).
Proof.
  revert t u. induction s as [|a s IH]; intros t u; [done|].
  simpl. rewrite IH. by rewrite append_cons.
Qed.

Lemma rev_involutive (s : string) : String.rev (String.rev s) = s.
Proof. unfold String.rev. by rewrite rev_app_rev_app, append_nil_r. Qed.

Lemma rev_app_append (s t : string) : String.rev_app s t = String.rev s +:+ t.
Proof.
  unfold String.rev. revert t. induction s as [|a s IH]; intros t; [done|].
  simpl. rewrite IH, (IH (String a EmptyString)), append_assoc. done.
Qed.

Lemma rev_append (s t : string) : String.rev (s +:+ t) = String.rev t +:+ String.rev s.
Proof.
  induction s as [|a s IH].
  - by rewrite append_nil_r.
  - rewrite append_cons. unfold String.rev at 1 3. simpl.
    rewrite !rev_app_append, IH, append_assoc. done.
Qed.

Lemma str_forall_app (p : ascii -> bool) (s t : string) :
  str_forall p (s +:+ t) = str_forall p s && str_forall p t.
Proof.
  induction s as [|a s IH]; [done|].
  rewrite append_cons. simpl. by rewrite IH, andb_assoc.
Qed.

Lemma str_forall_rev (p : ascii -> bool) (s : string) :
  str_forall p (String.rev s) = str_forall p s.
Proof.
  induction s as [|a s IH]; [done|].
  unfold String.rev. simpl. rewrite rev_app_append, str_forall_app, IH. simpl.
  rewrite andb_true_r. apply andb_comm.
Qed.

Lemma lstrip_clean (s : string) : starts_clean s = true -> PyStr.lstrip s = s.
Proof.
  destruct s as [|a s]; [done|]. simpl. intros H.
  apply negb_true_iff in H. by rewrite H.
Qed.

Lemma lstrip_starts_clean (s : string) : starts_clean (PyStr.lstrip s) = true.
Proof.
  induction s as [|a s IH]; [done|]. simpl.
  destruct (PyStr.isspace a) eqn:Ha; [done|]. simpl. by rewrite Ha.
Qed.

(** [lstrip] removes a prefix of white space. *)
Lemma lstrip_prefix (s : string) :
  exists p, s = p +:+ PyStr.lstrip s /\ str_forall PyStr.isspace p = true.
Proof.
  induction s as [|a s (p & Hp & Hsp)]; [by exists EmptyString|]. simpl.
  destruct (PyStr.isspace a) eqn:Ha.
  - exists (String a p). rewrite append_cons, <-Hp. split; [done|]. simpl. by rewrite Ha.
  - by exists EmptyString.
Qed.

Lemma starts_clean_app_l (s t : string) :
  starts_clean (s +:+ t) = true -> s <> EmptyString -> starts_clean s = true.
Proof. by destruct s. Qed.

Lemma strip_clean (s : string) :
  starts_clean s = true -> starts_clean (String.rev s) = true -> PyStr.strip s = s.
Proof.
  intros H1 H2. unfold PyStr.strip.
  by rewrite (lstrip_clean s), (lstrip_clean (String.rev s)), rev_involutive.
Qed.

Lemma starts_clean_forall (s : string) :
  str_forall not_space s = true -> starts_clean s = true.
Proof. destruct s as [|a s]; [done|]. simpl. by intros [? _]%andb_true_iff. Qed.

(** A string without white space is its own [strip]. *)
Lemma strip_no_space (s : string) : str_forall not_space s = true -> PyStr.strip s = s.
Proof.
  intros H. apply strip_clean; apply starts_clean_forall; [done|].
  by rewrite str_forall_rev.
Qed.

(** The result of [strip] has no white space at either end. *)
Lemma strip_ends_clean (s : string) :
  starts_clean (PyStr.strip s) = true /\ starts_clean (String.rev (PyStr.strip s)) = true.
Proof.
  unfold PyStr.strip. rewrite rev_involutive.
  split; [|apply lstrip_starts_clean].
  destruct (lstrip_prefix (String.rev (PyStr.lstrip s))) as (p & Hp & _).
  set (u := PyStr.lstrip (String.rev (PyStr.lstrip s))) in *.
  assert (PyStr.lstrip s = String.rev u +:+ String.rev p) as Ht.
  { rewrite <-rev_append, <-Hp. by rewrite rev_involutive. }
  destruct (String.rev u) as [|a r] eqn:Hr; [done|].
  pose proof (lstrip_starts_clean s) as Hc. rewrite Ht in Hc.
  by apply starts_clean_app_l in Hc.
Qed.

Lemma strip_idempotent (s : string) : PyStr.strip (PyStr.strip s) = PyStr.strip s.
Proof. destruct (strip_ends_clean s). by apply strip_clean. Qed.

(** ** The itag of a descriptor, read back by [download] ([app.py]) *)

Lemma pretty_N_char_digit (m : N) :
  (m < 10)%N ->
  PyStr.isdigit (pretty_N_char m) = true
  /\ Z.of_nat (nat_of_ascii (pretty_N_char m) - 48) = Z.of_N m.
Proof.
  intros Hm.
  assert (m = 0 \/ m = 1 \/ m = 2 \/ m = 3 \/ m = 4 \/ m = 5 \/ m = 6 \/ m = 7
          \/ m = 8 \/ m = 9)%N as Hcases by lia.
  destruct Hcases as [->|[->|[->|[->|[->|[->|[->|[->|[->| ->]]]]]]]]]; by vm_compute.
Qed.

(** Reading the digits [pretty] writes for [x] gives [x] back. *)
Lemma int_digits_pretty_N_go (x : N) (s : string) (b : bool) :
  (0 < x)%N ->
  int_digits (pretty_N_go x s) 0 b = int_digits s (Z.of_N x) true.
Proof.
  revert s b. induction (N.lt_wf_0 x) as [x _ IH]; intros s b Hx.
  rewrite pretty_N_go_step by done.
  destruct (pretty_N_char_digit (x `mod` 10)) as [Hd Hv]; [by apply N.mod_lt|].
  assert (x = 10 * (x `div` 10) + x `mod` 10)%N as Hx10 by (by apply N.div_mod).
  assert (x `div` 10 < x)%N as Hlt by (by apply N.div_lt).
  set (m := (x `mod` 10)%N) in *. set (d := (x `div` 10)%N) in *.
  destruct (decide (d = 0)%N) as [Hz|Hz].
  - rewrite Hz, pretty_N_go_0. simpl. rewrite Hd, Hv. f_equal. lia.
  - rewrite IH; [|done|lia]. simpl. rewrite Hd, Hv. f_equal. lia.
Qed.

(** The digits of a positive number: no white space, a digit first. *)
Lemma pretty_N_go_digits (x : N) (s : string) :
  exists ds, pretty_N_go x s = ds +:+ s /\ str_forall PyStr.isdigit ds = true
             /\ ((0 < x)%N -> ds <> EmptyString).
Proof.
  revert s. induction (N.lt_wf_0 x) as [x _ IH]; intros s.
  destruct (decide (0 < x)%N) as [Hx|Hx].
  - rewrite pretty_N_go_step by done.
    destruct (IH (x `div` 10)%N (N.div_lt x 10 Hx eq_refl)
                 (String (pretty_N_char (x `mod` 10)) s)) as (ds & -> & Hds & _).
    exists (ds +:+ String (pretty_N_char (x `mod` 10)) EmptyString).
    rewrite append_assoc. split; [done|]. split.
    + rewrite str_forall_app, Hds. simpl.
      by destruct (pretty_N_char_digit (x `mod` 10)) as [-> _]; [apply N.mod_lt|].
    + intros _. by destruct ds.
  - assert (x = 0%N) as -> by lia. exists EmptyString. by rewrite pretty_N_go_0.
Qed.

Lemma str_forall_impl (p q : ascii -> bool) (s : string) :
  (forall a, p a = true -> q a = true) -> str_forall p s = true -> str_forall q s = true.
Proof.
  intros Hpq. induction s as [|a s IH]; [done|]. simpl.
  intros [Ha Hs]%andb_true_iff. by rewrite (Hpq a Ha), IH.
Qed.

(** [strip_with p] removes a prefix and a suffix of characters of [p]. *)
Lemma lstrip_with_prefix (p : ascii -> bool) (s : string) :
  exists pre, s = pre +:+ lstrip_with p s /\ str_forall p pre = true.
Proof.
  induction s as [|a s (pre & Hpre & Hp)]; [by exists EmptyString|]. simpl.
  destruct (p a) eqn:Ha.
  - exists (String a pre). rewrite append_cons, <-Hpre. split; [done|]. simpl. by rewrite Ha.
  - by exists EmptyString.
Qed.

Lemma lstrip_with_none (p : ascii -> bool) (s : string) :
  str_forall (fun a => negb (p a)) s = true -> lstrip_with p s = s.
Proof.
  destruct s as [|a s]; [done|]. simpl. intros [Ha _]%andb_true_iff.
  apply negb_true_iff in Ha. by rewrite Ha.
Qed.

Lemma strip_with_none (p : ascii -> bool) (s : string) :
  str_forall (fun a => negb (p a)) s = true -> strip_with p s = s.
Proof.
  intros Hs. unfold strip_with.
  rewrite (lstrip_with_none p s Hs), lstrip_with_none, rev_involutive; [done|].
  by rewrite str_forall_rev.
Qed.

Lemma strip_with_keeps_head (p : ascii -> bool) (a : ascii) (s : string) :
  p a = false -> exists s', strip_with p (String a s) = String a s'.
Proof.
  intros Ha. unfold strip_with. simpl lstrip_with at 2. rewrite Ha.
  destruct (lstrip_with_prefix p (String.rev (String a s))) as (pre & Hpre & Hp).
  set (t := lstrip_with p (String.rev (String a s))) in *.
  apply (f_equal String.rev) in Hpre. rewrite rev_involutive, rev_append in Hpre.
  destruct (String.rev t) as [|b r] eqn:Hr.
  - exfalso. rewrite <-(str_forall_rev p pre) in Hp.
    change (EmptyString +:+ String.rev pre) with (String.rev pre) in Hpre.
    rewrite <-Hpre in Hp. simpl in Hp. by rewrite Ha in Hp.
  - rewrite append_cons in Hpre. injection Hpre as <- _. by exists r.
Qed.

Lemma digit_not_c_space (a : ascii) : PyStr.isdigit a = true -> negb (c_isspace a) = true.
Proof.
  destruct a as [[] [] [] [] [] [] [] []]; vm_compute; congruence.
Qed.

Lemma int_of_string_positive (p : positive) :
  int_of_string (pretty (Zpos p)) = Returned (Zpos p).
Proof.
  unfold pretty, pretty_Z, pretty, pretty_positive, pretty, pretty_N.
  rewrite decide_False by done.
  destruct (pretty_N_go_digits (Npos p) EmptyString) as (ds & Hgo & Hds & Hne).
  rewrite append_nil_r in Hgo.
  unfold int_of_string. rewrite strip_with_none
    by (rewrite Hgo; by apply (str_forall_impl PyStr.isdigit), Hds; apply digit_not_c_space).
  assert (int_digits (pretty_N_go (N.pos p) EmptyString) 0 false = Some (Zpos p)) as Hint.
  { by rewrite int_digits_pretty_N_go. }
  rewrite Hgo in *. destruct ds as [|a ds]; [by destruct Hne|].
  simpl in Hds. apply andb_true_iff in Hds as [Ha _].
  destruct a as [[] [] [] [] [] [] [] []]; try (vm_compute in Ha; discriminate Ha);
    by rewrite Hint.
Qed.

Lemma int_of_string_negative (p : positive) :
  int_of_string (pretty (Zneg p)) = Returned (Zneg p).
Proof.
  unfold pretty at 1, pretty_Z, pretty, pretty_positive, pretty, pretty_N.
  rewrite decide_False by done.
  destruct (pretty_N_go_digits (Npos p) EmptyString) as (ds & Hgo & Hds & Hne).
  rewrite append_nil_r in Hgo.
  unfold int_of_string. rewrite strip_with_none.
  - change ("-" +:+ pretty_N_go (N.pos p) EmptyString)
      with (String "-" (pretty_N_go (N.pos p) EmptyString)).
    cbv beta iota. by rewrite int_digits_pretty_N_go.
  - change ("-" +:+ pretty_N_go (N.pos p) EmptyString)
      with (String "-" (pretty_N_go (N.pos p) EmptyString)).
    simpl. rewrite Hgo. by apply (str_forall_impl PyStr.isdigit), Hds; apply digit_not_c_space.
Qed.

Lemma int_of_string_pretty (n : Z) : int_of_string (pretty n) = Returned n.
Proof.
  destruct n as [|p|p];
    [reflexivity | apply int_of_string_positive | apply int_of_string_negative].
Qed.

(** X1. What [str] writes of an integer, [int] reads back, for the integers
    of at most 4300 digits, which [str] and [int] handle in every
    configuration of the interpreter: the [itag] field of a descriptor of
    [app.py], sent back as the [itag] parameter of [download], is parsed to
    the itag of the stream it was made from. *)
Theorem itag_round_trip :
  (forall n : Z, (Z.abs n < 10 ^ 4300)%Z -> int_of_string (pretty n) = Returned n)
  /\ (forall (q : string) (s : App.Stream),
        (Z.abs (App.itag s) < 10 ^ 4300)%Z ->
        int_of_string (fd_itag (App.video_format q s)) = Returned (App.itag s))
  /\ (forall s : App.Stream,
        (Z.abs (App.itag s) < 10 ^ 4300)%Z ->
        int_of_string (fd_itag (App.audio_format s)) = Returned (App.itag s)).
Proof.
  split; [intros n _; apply int_of_string_pretty|].
  split; intros; apply int_of_string_pretty.
Qed.

(** ** The cache, record by record *)

Lemma length_append (s t : string) :
  String.length (s +:+ t) = (String.length s + String.length t)%nat.
Proof. induction s as [|a s IH]; [done|]. rewrite append_cons. simpl. by rewrite IH. Qed.

Lemma append_inj_r (s1 s2 t : string) : s1 +:+ t = s2 +:+ t -> s1 = s2.
Proof.
  revert s2. induction s1 as [|a s1 IH]; intros [|b s2] Heq; [done| | |].
  - apply (f_equal String.length) in Heq.
    rewrite !length_append in Heq. simpl in Heq. lia.
  - apply (f_equal String.length) in Heq.
    rewrite !length_append in Heq. simpl in Heq. lia.
  - rewrite !append_cons in Heq. injection Heq as -> Heq. f_equal. by apply IH.
Qed.

(** X2. Where a value of [get_cached_info] other than [None] comes from:
    only from a file that parses to a dict with a [timestamp] that is a
    number (or a boolean) and an [info], and the value is that [info].  A
    record that is not a dict, that has no [timestamp], whose [timestamp] is
    not a number, or that has no [info], gives [None] at any time. *)
Theorem cached_info_hit (now : Q) (key : string) (w : World) :
  (forall v : json,
     v <> JNull -> get_cached_info now key w = (Returned v, w) ->
     exists items ts,
       cache_dir w !! (key +:+ ".json") = Some (Document (JDict items))
       /\ assoc "timestamp" items = Some ts
       /\ match ts with JNum _ | JBool _ => True | _ => False end
       /\ assoc "info" items = Some v)
  /\ (forall d : json,
        cache_dir w !! (key +:+ ".json") = Some (Document d) ->
        match d with
        | JDict items =>
            match assoc "timestamp" items with
            | Some (JNum _ | JBool _) => assoc "info" items = None
            | _ => True
            end
        | _ => True
        end ->
        get_cached_info now key w = (Returned JNull, w)).
Proof.
  split.
  - intros v Hv. rewrite get_cached_info_eq. unfold cached_value, read_cached.
    intros Heq. injection Heq as Heq.
    destruct (cache_dir w !! (key +:+ ".json")) as [[| |d]|]; simpl in Heq;
      try (by subst v).
    destruct d as [| | | | |items]; simpl in Heq; try (by subst v).
    destruct (assoc "timestamp" items) as [ts|] eqn:Hts; [|by subst v].
    destruct (time_since now ts) as [age|e] eqn:Hage; [|by subst v].
    destruct (Qltb age CACHE_DURATION) eqn:Hlt; [|by subst v].
    destruct (assoc "info" items) as [info|] eqn:Hinfo; [|by subst v].
    subst v. exists items, ts. repeat split; try done. by destruct ts.
  - intros d Hfile Hd. rewrite get_cached_info_eq, Hfile.
    unfold cached_value, read_cached. simpl.
    destruct d as [| | | | |items]; simpl; try done.
    destruct (assoc "timestamp" items) as [ts|]; [|done].
    destruct ts as [|b|t| | |]; simpl; try done.
    + rewrite Hd. by destruct (Qltb _ _).
    + rewrite Hd. by destruct (Qltb _ _).
Qed.

(** X3. [cache_info] under one key leaves the lookup of every other key as
    it was, however the write ends. *)
Theorem cache_info_other_key (wo : write_outcome) (t now : Q) (key key' : string)
    (info : json) (w : World) :
  key' <> key ->
  (get_cached_info now key' (cache_info wo t key info w).2).1
  = (get_cached_info now key' w).1.
Proof.
  intros Hne. rewrite cache_info_eq, !get_cached_info_eq. simpl.
  assert (key' +:+ ".json" <> key +:+ ".json") as Hfile.
  { intros Heq. by apply append_inj_r in Heq. }
  destruct wo; simpl; [|done|]; by rewrite lookup_insert_ne.
Qed.

(** X4. A write that fails.  When [open] raises, every lookup gives what it
    gave before.  When the file was opened and the dump raises, the lookup of
    the key gives [None] at any time: a record that was there is lost. *)
Theorem cache_write_failures (t now : Q) (key : string) (info : json) (w : World)
    (e : string) :
  (forall key', (get_cached_info now key' (cache_info (OpenFailed e) t key info w).2).1
                = (get_cached_info now key' w).1)
  /\ (get_cached_info now key (cache_info (DumpFailed e) t key info w).2).1
     = Returned JNull.
Proof.
  split.
  - intros key'. by rewrite cache_info_eq, !get_cached_info_eq.
  - rewrite cache_info_eq, get_cached_info_eq. simpl. by rewrite lookup_insert_eq.
Qed.

(** ** [get_video_info]: what a request may change *)

(** The calls a run of the innermost [try] adds, and the files it leaves. *)
Lemma resolve_result_frame {A} (resolve : string -> A -> outcome VideoInfo)
    (env : InfoEnv A) (video_id clean_url cache_key : string) (w : World) :
  let out := resolve_result resolve env video_id clean_url cache_key w in
  calls out.2 = calls w ++ [CallProbe clean_url]
  /\ temp_dirs out.2 = temp_dirs w
  /\ (status out.1 <> 200%Z -> cache_dir out.2 = cache_dir w)
  /\ (forall name, name <> cache_key +:+ ".json" ->
        cache_dir out.2 !! name = cache_dir w !! name).
Proof.
  unfold resolve_result.
  destruct (probe env) as [yt|e]; [|by simpl].
  destruct (resolve video_id yt) as [info|e]; [|by simpl].
  destruct (bool_decide (formats info = [])); [by simpl|]. simpl.
  split; [done|]. split; [done|]. split; [done|].
  intros name Hne. destruct (cache_write env); simpl; [|done|]; by rewrite lookup_insert_ne.
Qed.

Lemma lookup_result_frame `{!PyLib} {A} (resolve : string -> A -> outcome VideoInfo)
    (env : InfoEnv A) (url : string) (w : World) :
  let out := lookup_result resolve env url w in
  temp_dirs out.2 = temp_dirs w
  /\ (status out.1 <> 200%Z -> cache_dir out.2 = cache_dir w)
  /\ (calls out.2 = calls w ++ [CallExtractVideoId url]
      \/ exists v, extract_video_id url = Some v /\ String.length v = 11%nat
           /\ calls out.2 = calls w ++ [CallExtractVideoId url; CallProbe (clean_url_of v)]
           /\ forall name, name <> get_cache_key (clean_url_of v) +:+ ".json" ->
                cache_dir out.2 !! name = cache_dir w !! name).
Proof.
  unfold lookup_result.
  destruct (bad_video_id (extract_video_id url)) eqn:Hbad; [simpl; by auto|].
  destruct (extract_video_id url) as [v|] eqn:Hv; [|done]. simpl.
  destruct (json_truthy _); [simpl; by auto|].
  pose proof (resolve_result_frame resolve env v (clean_url_of v)
                (get_cache_key (clean_url_of v)) (logged (CallExtractVideoId url) w))
    as (Hc & Ht & Hs & Hn).
  split; [done|]. split; [done|]. right. exists v.
  split; [done|]. split.
  { simpl in Hbad. apply orb_false_iff in Hbad as [_ Hlen].
    apply negb_false_iff in Hlen. by apply Nat.eqb_eq in Hlen. }
  split; [|done]. rewrite Hc. simpl. by rewrite <-app_assoc.
Qed.

(** X5. What a run of [get_video_info] may change, for any request and any
    behaviour of the collaborator.  It never touches a download directory;
    it leaves the cache as it was unless it answers 200; it makes at most two
    calls, the extraction of the identifier and then the collaborator, and
    never a download. *)
Theorem get_video_info_frame `{!PyLib} {A} (resolve : string -> A -> outcome VideoInfo)
    (env : InfoEnv A) (req : InfoRequest) (w : World) :
  exists (r : Response) (w' : World),
    get_video_info_with resolve env req w = (Returned r, w')
    /\ temp_dirs w' = temp_dirs w
    /\ (status r <> 200%Z -> cache_dir w' = cache_dir w)
    /\ exists added, calls w' = calls w ++ added
         /\ (length added <= 2)%nat
         /\ Forall (fun c => ~ is_fetch c) added.
Proof.
  destruct (get_video_info_with_front resolve req) as [(r & _ & Hrun)|(url & _ & Hrun)].
  - exists r, w. rewrite Hrun. split; [done|]. split; [done|]. split; [done|].
    exists []. rewrite app_nil_r. split; [done|]. split; [simpl; lia|constructor].
  - eexists _, _. rewrite Hrun. split; [done|].
    pose proof (lookup_result_frame resolve env url w) as (Ht & Hs & Hc).
    split; [done|]. split; [done|].
    destruct Hc as [Hc|(v & _ & _ & Hc & _)]; eexists; (split; [exact Hc|]);
      (split; [simpl; lia|]); repeat constructor; by intros [].
Qed.

(** X6. The URLs a run of [get_video_info] hands on.  The identifier is
    extracted from the [url] of the request without the blanks around it, a
    text that is not empty and passed validation; the collaborator is called
    with a URL of the one shape [https://www.youtube.com/watch?v=] and an
    identifier of 11 characters, whatever the shape of the URL received; and
    the one cache file that may differ afterwards is the file of that URL. *)
Theorem get_video_info_calls `{!PyLib} {A} (resolve : string -> A -> outcome VideoInfo)
    (env : InfoEnv A) (req : InfoRequest) (s : string) (w : World) :
  has_url req s ->
  let w' := (get_video_info_with resolve env req w).2 in
  let url := PyStr.strip s in
  calls w' = calls w
  \/ (url <> EmptyString /\ is_valid_youtube_url url = true
      /\ starts_clean url = true /\ starts_clean (String.rev url) = true
      /\ (calls w' = calls w ++ [CallExtractVideoId url]
          \/ exists v, extract_video_id url = Some v /\ String.length v = 11%nat
               /\ calls w' = calls w ++ [CallExtractVideoId url; CallProbe (clean_url_of v)]
               /\ forall name, name <> get_cache_key (clean_url_of v) +:+ ".json" ->
                    cache_dir w' !! name = cache_dir w !! name)).
Proof.
  intros Hreq. rewrite (get_video_info_with_url resolve env req s w Hreq).
  destruct (PyStr.truthy (PyStr.strip s)) eqn:Ht; simpl; [|by left].
  destruct (is_valid_youtube_url (PyStr.strip s)) eqn:Hv; simpl; [|by left].
  right. split; [by destruct (PyStr.strip s)|]. split; [done|].
  split; [apply strip_ends_clean|]. split; [apply strip_ends_clean|].
  by pose proof (lookup_result_frame resolve env (PyStr.strip s) w) as (_ & _ & Hc).
Qed.

(** X7. A request whose identifier has a usable record in the cache is
    answered with the stored value and status 200, whatever the collaborator
    would do: the only call made is the extraction of the identifier, and no
    file is touched. *)
Theorem cached_answer `{!PyLib} {A} (resolve : string -> A -> outcome VideoInfo)
    (env : InfoEnv A) (req : InfoRequest) (v : string) (w : World) :
  identifies req v ->
  let cached := cached_value (t_lookup env)
                  (cache_dir w !! (get_cache_key (clean_url_of v) +:+ ".json")) in
  json_truthy cached = true ->
  exists s, has_url req s
    /\ get_video_info_with resolve env req w
       = (Returned (jsonify cached), logged (CallExtractVideoId (PyStr.strip s)) w).
Proof.
  intros (s & Hreq & Ht & Hv & He & Hl) cached Hhit. exists s. split; [done|].
  rewrite (get_video_info_with_url resolve env req s w Hreq), Ht, Hv. simpl.
  unfold lookup_result. rewrite He, (bad_video_id_length v Hl). simpl.
  fold cached. by rewrite Hhit.
Qed.

(** X8. The answer to a request is stored for the next one.  When a
    request that names the video [v] is resolved and the cache write
    succeeds, a later request to the same handler that names [v], in
    whatever URL shape, made less than [CACHE_DURATION] seconds after the
    write, gets the same response without a call to the collaborator,
    whatever the collaborator would answer then. *)
Theorem second_request_served_from_cache `{!PyLib} {A}
    (resolve : string -> A -> outcome VideoInfo)
    (env env' : InfoEnv A) (req req' : InfoRequest) (v : string) (yt : A)
    (info : VideoInfo) (w : World) :
  identifies req v -> cache_miss env w v ->
  probe env = Returned yt -> resolve v yt = Returned info -> formats info <> [] ->
  cache_write env = Written ->
  identifies req' v -> (t_lookup env' - t_store env < CACHE_DURATION)%Q ->
  let first := get_video_info_with resolve env req w in
  first.1 = Returned (jsonify (json_of_video_info info))
  /\ exists s', has_url req' s'
       /\ get_video_info_with resolve env' req' first.2
          = (first.1, logged (CallExtractVideoId (PyStr.strip s')) first.2).
Proof.
  intros Hid Hmiss Hp Hr Hf Hw (s' & Hreq' & Ht' & Hv' & He' & Hl') Hage first.
  destruct (get_video_info_with_identified resolve env req v w Hid Hmiss)
    as (w1 & Hc1 & _ & Hrun).
  subst first. rewrite Hrun. clear Hrun. unfold resolve_result.
  rewrite Hp, Hr, Hw, (bool_decide_eq_false_2 _ Hf). simpl.
  split; [done|]. exists s'. split; [done|].
  rewrite (get_video_info_with_url resolve env' req' s' _ Hreq'), Ht', Hv'. simpl.
  unfold lookup_result. rewrite He', (bad_video_id_length v Hl'). simpl.
  rewrite lookup_insert_eq, cached_value_stored.
  apply Qltb_true in Hage. by rewrite Hage.
Qed.

(** X9. The blanks around the URL of a request do not matter: a request
    with the URL already stripped is answered as the request itself, with
    the same effect on the world. *)
Theorem get_video_info_strip `{!PyLib} {A} (resolve : string -> A -> outcome VideoInfo)
    (env : InfoEnv A) (req req' : InfoRequest) (s : string) (w : World) :
  has_url req s -> has_url req' (PyStr.strip s) ->
  get_video_info_with resolve env req' w = get_video_info_with resolve env req w.
Proof.
  intros Hreq Hreq'.
  rewrite (get_video_info_with_url resolve env req s w Hreq),
    (get_video_info_with_url resolve env req' (PyStr.strip s) w Hreq').
  by rewrite strip_idempotent.
Qed.

(** ** Validation *)

Lemma lower_idempotent (a : ascii) : PyStr.lower (PyStr.lower a) = PyStr.lower a.
Proof. destruct a as [[] [] [] [] [] [] [] []]; vm_compute; reflexivity. Qed.

Lemma chr_blind (c : ascii) : case_blind (Re.chr c).
Proof. intros a. simpl. by rewrite lower_idempotent. Qed.

Lemma lit_blind (s : string) : case_blind (Re.lit s).
Proof. induction s as [|c s IH]; [done|]. split; [apply chr_blind|done]. Qed.

Lemma rep_blind (n : nat) (r : Re.regex) : case_blind r -> case_blind (Re.rep n r).
Proof. intros Hr. induction n as [|n IH]; [done|]. by split. Qed.

Lemma is_word_or_dash_blind (a : ascii) :
  Re.is_word_or_dash (PyStr.lower a) = Re.is_word_or_dash a.
Proof. destruct a as [[] [] [] [] [] [] [] []]; vm_compute; reflexivity. Qed.

Lemma is_id_like_blind (a : ascii) : Re.is_id_like (PyStr.lower a) = Re.is_id_like a.
Proof. destruct a as [[] [] [] [] [] [] [] []]; vm_compute; reflexivity. Qed.

Lemma not_space_blind (a : ascii) :
  negb (PyStr.isspace (PyStr.lower a)) = negb (PyStr.isspace a).
Proof. destruct a as [[] [] [] [] [] [] [] []]; vm_compute; reflexivity. Qed.

Lemma newline_blind (a : ascii) :
  bool_decide (PyStr.lower a = "010"%char) = bool_decide (a = "010"%char).
Proof. destruct a as [[] [] [] [] [] [] [] []]; vm_compute; reflexivity. Qed.

Lemma dot_blind : case_blind Re.dot.
Proof. intros a. simpl. by rewrite newline_blind. Qed.

Lemma cat_blind (r1 r2 : Re.regex) :
  case_blind r1 -> case_blind r2 -> case_blind (Re.cat r1 r2).
Proof. destruct r1, r2; simpl; tauto. Qed.

Lemma alt_blind (r1 r2 : Re.regex) :
  case_blind r1 -> case_blind r2 -> case_blind (Re.alt r1 r2).
Proof. destruct r1, r2; simpl; tauto. Qed.

Lemma deriv_blind (a : ascii) (r : Re.regex) : case_blind r -> case_blind (Re.deriv a r).
Proof.
  induction r as [| |p|r1 IH1 r2 IH2|r1 IH1 r2 IH2|r1 IH1]; simpl; try done.
  - by destruct (p a).
  - intros [H1 H2]. destruct (Re.nullable r1).
    + apply alt_blind; [apply cat_blind|]; auto.
    + apply cat_blind; auto.
  - intros [H1 H2]. apply alt_blind; auto.
  - intros H1. apply cat_blind; auto.
Qed.

Lemma deriv_lower (a : ascii) (r : Re.regex) :
  case_blind r -> Re.deriv (PyStr.lower a) r = Re.deriv a r.
Proof.
  induction r as [| |p|r1 IH1 r2 IH2|r1 IH1 r2 IH2|r1 IH1]; simpl; try done.
  - intros Hp. by rewrite Hp.
  - intros [H1 H2]. by rewrite IH1, IH2.
  - intros [H1 H2]. by rewrite IH1, IH2.
  - intros H1. by rewrite IH1.
Qed.

Lemma fullmatch_lowercase (r : Re.regex) (s : string) :
  case_blind r -> Re.fullmatch r (lowercase s) = Re.fullmatch r s.
Proof.
  revert r. induction s as [|a s IH]; intros r Hr; [done|]. simpl.
  rewrite (deriv_lower a r Hr). apply IH. by apply deriv_blind.
Qed.

Lemma prefix_match_lowercase (r : Re.regex) (s : string) :
  case_blind r -> Re.prefix_match r (lowercase s) = Re.prefix_match r s.
Proof.
  revert r. induction s as [|a s IH]; intros r Hr; [done|]. simpl.
  rewrite (deriv_lower a r Hr). f_equal. apply IH. by apply deriv_blind.
Qed.

Lemma youtube_regex_blind : case_blind youtube_regex.
Proof.
  unfold youtube_regex, Re.opt, Re.plus. simpl Re.cats. simpl Re.alts.
  repeat match goal with
         | |- case_blind (Re.Cat _ _) => split
         | |- case_blind (Re.Alt _ _) => split
         | |- case_blind (Re.Star _) => change (case_blind ?r) with (case_blind r); simpl
         | |- case_blind (Re.lit _) => apply lit_blind
         | |- case_blind (Re.chr _) => apply chr_blind
         | |- case_blind Re.dot => apply dot_blind
         | |- case_blind (Re.rep _ _) => apply rep_blind
         | |- case_blind Re.Eps => exact I
         | |- forall a : ascii, _ = _ =>
             first [ exact dot_blind | exact not_space_blind
                   | intros [[] [] [] [] [] [] [] []]; vm_compute; reflexivity ]
         | |- case_blind (Re.Cls Re.is_id_like) => exact is_id_like_blind
         end.
Qed.

Lemma youtu_be_regex_blind : case_blind youtu_be_regex.
Proof.
  unfold youtu_be_regex, Re.opt, Re.plus. simpl Re.cats. simpl Re.alts.
  repeat match goal with
         | |- case_blind (Re.Cat _ _) => split
         | |- case_blind (Re.Alt _ _) => split
         | |- case_blind (Re.Star _) => change (case_blind ?r) with (case_blind r); simpl
         | |- case_blind (Re.lit _) => apply lit_blind
         | |- case_blind (Re.chr _) => apply chr_blind
         | |- case_blind Re.dot => apply dot_blind
         | |- case_blind (Re.rep _ _) => apply rep_blind
         | |- case_blind Re.Eps => exact I
         | |- forall a : ascii, _ = _ =>
             first [ exact dot_blind | exact not_space_blind
                   | intros [[] [] [] [] [] [] [] []]; vm_compute; reflexivity ]
         | |- case_blind (Re.Cls Re.is_word_or_dash) => exact is_word_or_dash_blind
         | |- case_blind (Re.Cls _) => exact not_space_blind
         end.
Qed.

Lemma is_valid_youtube_url_lowercase (url : string) :
  is_valid_youtube_url (lowercase url) = is_valid_youtube_url url.
Proof.
  unfold is_valid_youtube_url, Re.match_to_end.
  rewrite (prefix_match_lowercase _ _ youtube_regex_blind).
  rewrite (fullmatch_lowercase _ _ youtu_be_regex_blind).
  rewrite fullmatch_lowercase; [done|].
  split; [apply youtu_be_regex_blind|]. intros a. apply newline_blind.
Qed.

(** X10. Validation does not see the case of letters ([re.IGNORECASE]): two
    URLs that differ in the case of letters only are both valid or both
    invalid. *)
Theorem is_valid_youtube_url_ignores_case (url url' : string) :
  lowercase url = lowercase url' ->
  is_valid_youtube_url url = is_valid_youtube_url url'.
Proof.
  intros Heq.
  by rewrite <-(is_valid_youtube_url_lowercase url), Heq, is_valid_youtube_url_lowercase.
Qed.

Lemma Matches_rep_class (p : ascii -> bool) (v : string) :
  str_forall p v = true -> Re.Matches (Re.rep (String.length v) (Re.Cls p)) v.
Proof.
  induction v as [|a v IH]; simpl; [intros _; constructor|].
  intros [Ha Hv]%andb_true_iff.
  change (String a v) with (String a EmptyString +:+ v).
  constructor; [by constructor | by apply IH].
Qed.

Lemma Matches_star_class (p : ascii -> bool) (s : string) :
  str_forall p s = true -> Re.Matches (Re.Star (Re.Cls p)) s.
Proof.
  induction s as [|a s IH]; simpl; [intros _; constructor|].
  intros [Ha Hs]%andb_true_iff.
  change (String a s) with (String a EmptyString +:+ s).
  constructor; [by constructor | by apply IH].
Qed.

Lemma str_forall_lacks (p : ascii -> bool) (c : ascii) (s : string) :
  p c = false -> str_forall p s = true -> PyStr.lacks c s = true.
Proof.
  intros Hc. induction s as [|a s IH]; [done|]. simpl.
  intros [Ha Hs]%andb_true_iff. rewrite (IH Hs), andb_true_r.
  apply negb_true_iff, bool_decide_eq_false. intros ->. congruence.
Qed.

Lemma word_or_dash_not_space (a : ascii) : Re.is_word_or_dash a = true -> not_space a = true.
Proof. destruct a as [[] [] [] [] [] [] [] []]; vm_compute; congruence. Qed.

Lemma Matches_front (a b c d e : Re.regex) (p v : string) :
  Re.Matches (Re.Cat a (Re.Cat b (Re.Cat c d))) p -> Re.Matches e v ->
  Re.Matches (Re.Cat a (Re.Cat b (Re.Cat c (Re.Cat d e)))) (p +:+ v).
Proof.
  intros (pa & p1 & -> & Ha & (pb & p2 & -> & Hb & (pc & pd & -> & Hc & Hd)%Matches_Cat)
            %Matches_Cat)%Matches_Cat He.
  rewrite !append_assoc. repeat constructor; done.
Qed.

(** X11. URLs the first pattern accepts.  A scheme (or none), a host of
    the three names with or without [www.] or [m.], one of the paths that
    announce the identifier, and 11 characters none of which is [#], [&],
    [?] or white space make a valid URL, whatever follows them. *)
Theorem watch_url_valid (front v rest : string) :
  front ∈ url_fronts ->
  String.length v = 11%nat -> str_forall Re.is_id_like v = true ->
  is_valid_youtube_url (front +:+ v +:+ rest) = true.
Proof.
  intros Hfront Hlen Hv. apply is_valid_youtube_url_spec. left.
  exists (front +:+ v), rest. split; [by rewrite append_assoc|].
  unfold youtube_regex. simpl Re.cats.
  pose proof (Matches_rep_class _ v Hv) as Hm. rewrite Hlen in Hm.
  apply Matches_front; [|exact Hm].
  apply fullmatch_spec.
  assert (forallb (fun p => Re.fullmatch
            (Re.cats
               [ Re.opt (Re.Cat (Re.opt (Re.cats [Re.lit "http"; Re.opt (Re.chr "s");
                                                  Re.chr ":"]))
                                (Re.lit "//"));
                 Re.opt (Re.Cat (Re.Alt (Re.lit "www") (Re.lit "m")) (Re.chr "."));
                 Re.alts [Re.lit "youtube.com"; Re.lit "youtu.be";
                          Re.lit "youtube-nocookie.com"];
                 Re.alts
                   [ Re.cats [Re.chr "/"; Re.Star Re.dot;
                              Re.Alt (Re.chr "?") (Re.chr "&"); Re.lit "v="];
                     Re.lit "/v/";
                     Re.lit "/embed/";
                     Re.lit "/shorts/";
                     Re.lit "/watch?v=";
                     Re.cats [Re.lit "/watch?"; Re.plus Re.dot; Re.lit "&v="] ] ]) p)
            url_fronts = true) as Hall by (vm_compute; reflexivity).
  rewrite forallb_forall in Hall. apply Hall. by apply list_elem_of_In.
Qed.

(** X12. Shortened URLs are identified.  For an identifier [v] of 11
    letters, digits, [_] or [-], the URL [https://youtu.be/v], alone or
    followed by [?] and parameters without white space or [/], passes
    validation, and the identifier extracted from it is [v]: a request with
    this URL reaches the cache lookup for [v]. *)
Theorem short_url_identified `{!PyLib} (v rest : string) (req : InfoRequest) :
  String.length v = 11%nat -> str_forall Re.is_word_or_dash v = true ->
  rest = EmptyString
  \/ (exists params, rest = String "?" params
        /\ str_forall not_space params = true /\ PyStr.lacks "/" params = true) ->
  has_url req ("https://youtu.be/" +:+ v +:+ rest) ->
  is_valid_youtube_url ("https://youtu.be/" +:+ v +:+ rest) = true
  /\ extract_video_id ("https://youtu.be/" +:+ v +:+ rest) = Some v
  /\ identifies req v.
Proof.
  intros Hlen Hv Hrest Hreq.
  assert (str_forall not_space rest = true /\ PyStr.lacks "/" rest = true) as [Hsp Hsl].
  { destruct Hrest as [->|(params & -> & Hp & Hl)]; [done|]. simpl. by rewrite Hp, Hl. }
  assert (str_forall not_space v = true) as Hvsp.
  { by apply (str_forall_impl Re.is_word_or_dash), Hv; apply word_or_dash_not_space. }
  assert (is_valid_youtube_url ("https://youtu.be/" +:+ v +:+ rest) = true) as Hvalid.
  { apply is_valid_youtube_url_spec. right. left.
    unfold youtu_be_regex. simpl Re.cats.
    apply Matches_Cat. exists "https://", ("youtu.be/" +:+ v +:+ rest).
    split; [reflexivity|]. split; [apply fullmatch_spec; vm_compute; reflexivity|].
    apply Matches_Cat. exists EmptyString, ("youtu.be/" +:+ v +:+ rest).
    split; [reflexivity|]. split; [apply fullmatch_spec; vm_compute; reflexivity|].
    apply Matches_Cat. exists "youtu.be/", (v +:+ rest).
    split; [reflexivity|]. split; [apply fullmatch_spec; vm_compute; reflexivity|].
    apply Matches_Cat. exists v, rest. split; [reflexivity|]. split.
    - pose proof (Matches_rep_class _ v Hv) as Hm. rewrite Hlen in Hm. exact Hm.
    - by apply Matches_star_class. }
  assert (extract_video_id ("https://youtu.be/" +:+ v +:+ rest) = Some v) as Hext.
  { apply extract_video_id_short_url.
    - by apply (str_forall_lacks Re.is_word_or_dash), Hv.
    - by apply (str_forall_lacks Re.is_word_or_dash), Hv.
    - done.
    - destruct Hrest as [->|(params & -> & _)]; [by left | right; by exists params]. }
  split; [done|]. split; [done|].
  exists ("https://youtu.be/" +:+ v +:+ rest). split; [done|].
  rewrite strip_no_space.
  - repeat split; try done.
  - rewrite !str_forall_app, Hvsp, Hsp. reflexivity.
Qed.

(** ** The format list *)

Lemma collect_length {A} (eligible : A -> bool) (label : A -> string)
    (mk : string -> A -> FormatDescriptor) (l : list A) :
  (length (collect eligible label mk l ∅ []) <= 5)%nat.
Proof.
  rewrite collect_first_per_label, filter_unseen_empty, length_fmap.
  set (entries := filter _ l).
  rewrite <-(length_fmap label).
  change 5%nat with (length quality_priorities).
  apply submseteq_length, NoDup_submseteq; [apply first_per_label_NoDup|].
  intros q (x & -> & Hx)%list_elem_of_fmap.
  apply first_per_label_subset in Hx. subst entries.
  by apply list_elem_of_filter in Hx as [[_ Hq] _].
Qed.

Lemma first_per_label_nil {A} (label : A -> string) (l : list A) :
  first_per_label label l = [] <-> l = [].
Proof. by destruct l. Qed.

Lemma filter_nil_Forall {A} (P : A -> Prop) `{!forall x, Decision (P x)} (l : list A) :
  filter P l = [] <-> Forall (fun x => ~ P x) l.
Proof.
  induction l as [|x l IH]; [split; [constructor|done]|].
  rewrite filter_cons. destruct (decide (P x)) as [Hx|Hx].
  - split; [done|]. intros [Hx' _]%Forall_cons. done.
  - rewrite IH. split; [by constructor|]. by intros [_ Hl]%Forall_cons.
Qed.

Lemma collect_nil {A} (eligible : A -> bool) (label : A -> string)
    (mk : string -> A -> FormatDescriptor) (l : list A) :
  collect eligible label mk l ∅ [] = []
  <-> Forall (fun x => ~ (eligible x = true /\ label x ∈ quality_priorities)) l.
Proof.
  rewrite collect_first_per_label, filter_unseen_empty.
  trans (filter (fun x => eligible x = true /\ label x ∈ quality_priorities) l = []);
    [|apply filter_nil_Forall].
  set (entries := filter _ l). split.
  - intros H%fmap_nil_inv. by apply first_per_label_nil in H.
  - by intros ->.
Qed.

Lemma sort_formats_nil (l : list FormatDescriptor) : sort_formats l = [] <-> l = [].
Proof.
  split; [|by intros ->]. intros H.
  apply Permutation_nil_r. rewrite <-H. symmetry. apply sort_formats_perm.
Qed.

(** X13. The size of a format list: at most five video descriptors, one
    per label of [quality_priorities], and with the audio descriptor at most
    six entries, in both files. *)
Theorem format_count :
  (forall yt : App.YouTube,
     (length (filter is_video (App.resolve_formats yt)) <= 5)%nat
     /\ (length (App.resolve_formats yt) <= 6)%nat)
  /\ (forall fmts : list Production.RawFormat,
        (length (filter is_video (Production.resolve_formats fmts)) <= 5)%nat
        /\ (length (Production.resolve_formats fmts) <= 6)%nat).
Proof.
  split.
  - intros yt. unfold App.resolve_formats.
    rewrite (filter_video_app _ _ (app_videos_video yt) (app_audio_audio _)).
    rewrite length_app, sort_formats_perm, app_video_loop_collect.
    pose proof (collect_length (fun s => PyStr.truthy_opt (App.resolution s)) AppSpec.label
                  App.video_format (App.progressive_streams yt)).
    pose proof (app_audio_length (App.audio_streams yt)). lia.
  - intros fmts. unfold Production.resolve_formats.
    rewrite (filter_video_app _ _ (production_videos_video fmts)
               (production_audio_audio _)).
    rewrite length_app, sort_formats_perm, production_video_loop_collect.
    pose proof (collect_length Production.is_video_entry Production.quality_of
                  Production.video_format fmts).
    pose proof (production_audio_length fmts). lia.
Qed.

(** X14. When the format list is empty, which is when [get_video_info]
    answers [No downloadable formats found].  In [app.py]: no audio stream
    and no progressive stream whose resolution is in [quality_priorities].
    In [production.py]: no entry passes the test of the first loop with a
    label of [quality_priorities], and none passes the test of the second. *)
Theorem no_formats :
  (forall yt : App.YouTube,
     App.resolve_formats yt = []
     <-> App.audio_streams yt = []
         /\ Forall (fun s => ~ AppSpec.selected s) (App.progressive_streams yt))
  /\ (forall fmts : list Production.RawFormat,
        Production.resolve_formats fmts = []
        <-> Forall (fun f => ~ (Production.is_video_entry f = true
                                /\ Production.quality_of f ∈ quality_priorities)) fmts
            /\ Forall (fun f => Production.is_audio_entry f = false) fmts).
Proof.
  split.
  - intros yt. unfold App.resolve_formats.
    rewrite app_nil, sort_formats_nil, app_video_loop_collect, collect_nil.
    assert (App.audio_part (App.audio_streams yt) = [] <-> App.audio_streams yt = [])
      as -> by (by destruct (App.audio_streams yt)).
    assert (Forall (fun s => ~ AppSpec.selected s) (App.progressive_streams yt)
            <-> Forall (fun x => ~ (PyStr.truthy_opt (App.resolution x) = true
                                    /\ AppSpec.label x ∈ quality_priorities))
                       (App.progressive_streams yt)) as Hiff.
    { apply Forall_iff. intros s. by rewrite app_selected_eligible. }
    rewrite Hiff. tauto.
  - intros fmts. unfold Production.resolve_formats.
    rewrite app_nil, sort_formats_nil, production_video_loop_collect, collect_nil.
    apply and_iff_compat_l.
    induction fmts as [|f fmts IH]; simpl; [split; [constructor|done]|].
    destruct (Production.is_audio_entry f) eqn:Hf.
    + split; [done|]. intros [Hx' _]%Forall_cons. congruence.
    + rewrite IH. split; [by constructor|]. by intros [_ Hl]%Forall_cons.
Qed.

Lemma production_audio_Forall (P : FormatDescriptor -> Prop) (l : list Production.RawFormat) :
  (forall f, P (Production.audio_format f)) -> Forall P (Production.audio_part l).
Proof.
  intros HP. induction l as [|f l IH]; simpl; [constructor|].
  destruct (Production.is_audio_entry f); [|done]. repeat constructor; done.
Qed.

(** X15. What every descriptor of a format list satisfies, in both files:
    [itag] and [format_id] are the same text; the descriptor is a video one
    with a label of [quality_priorities], or an audio one.  In [app.py] the
    [itag] is a numeral that [int] reads as the itag of a stream of the
    video, so that each listed format can be asked for by [download]; in
    [production.py] the MIME type is [video/mp4] for a video and [audio/mp4]
    for an audio descriptor, whatever the container of the entry. *)
Theorem descriptor_invariants :
  (forall yt : App.YouTube,
     Forall (fun d => fd_itag d = fd_format_id d
                      /\ (exists s, s ∈ App.progressive_streams yt ++ App.audio_streams yt
                                    /\ int_of_string (fd_itag d) = Returned (App.itag s))
                      /\ (is_video d /\ recognized d \/ is_audio d))
            (App.resolve_formats yt))
  /\ (forall fmts : list Production.RawFormat,
        Forall (fun d => fd_itag d = fd_format_id d
                         /\ (is_video d /\ recognized d /\ fd_mime_type d = "video/mp4"
                             \/ is_audio d /\ fd_mime_type d = "audio/mp4"))
               (Production.resolve_formats fmts)).
Proof.
  split.
  - intros yt. unfold App.resolve_formats. apply Forall_app. split.
    + rewrite sort_formats_perm, app_videos. apply Forall_fmap, Forall_forall.
      intros s Hs%first_per_label_subset. apply list_elem_of_filter in Hs as [Hsel Hs].
      simpl. split; [done|]. split; [|by left].
      exists s. split; [|apply int_of_string_pretty].
      apply elem_of_app. by left.
    + destruct (App.audio_streams yt) as [|s l]; simpl; [constructor|].
      constructor; [|constructor]. split; [done|]. split; [|by right].
      exists s. split; [|apply int_of_string_pretty].
      apply elem_of_app. right. by left.
  - intros fmts. unfold Production.resolve_formats. apply Forall_app. split.
    + rewrite sort_formats_perm, production_video_loop_collect. apply collect_Forall.
      intros q f Hq. split; [done|]. by left.
    + apply production_audio_Forall. intros f. split; [done|]. by right.
Qed.

Lemma sort_by_key_sorted_id {A} (key : A -> nat) (l : list A) :
  StronglySorted (key_le key) l -> sort_by_key key l = l.
Proof.
  induction 1 as [|x l Hs IH Hx]; [done|]. simpl. rewrite IH.
  destruct l as [|y l]; [done|]. simpl.
  apply Forall_cons in Hx as [Hxy _]. unfold key_le in Hxy.
  by rewrite (proj2 (Nat.leb_le _ _) Hxy).
Qed.

(** X16. The sort of the format list is stable and changes nothing in a
    list that is in order: the entries of one priority keep the order they
    had, a list in the order of the priorities is returned as it is, and
    sorting twice is sorting once. *)
Theorem sort_formats_stable (l : list FormatDescriptor) :
  (forall n, filter (fun d => priority (quality d) = n) (sort_formats l)
             = filter (fun d => priority (quality d) = n) l)
  /\ (StronglySorted by_priority l -> sort_formats l = l)
  /\ sort_formats (sort_formats l) = sort_formats l.
Proof.
  split; [intros n; apply sort_by_key_stable|].
  split; [apply sort_by_key_sorted_id|].
  apply sort_by_key_sorted_id, sort_by_key_sorted.
Qed.

(** ** [download]: what a request may change *)

(** A directory made, written into and removed leaves the directories as
    they were. *)
Lemma removed_written_prepared (d : string) (files : list (string * string))
    (m : gmap string (list (string * string))) :
  m !! d = None -> delete d (alter (fun old => old ++ files) d (<[d := []]> m)) = m.
Proof.
  intros Hd. apply map_eq. intros k. destruct (decide (k = d)) as [->|Hk].
  - by rewrite lookup_delete_eq.
  - by rewrite lookup_delete_ne, lookup_alter_ne, lookup_insert_ne.
Qed.

Lemma app_fetch_frame (env : App.DownloadEnv) : fetch_frame (App.fetch env).
Proof.
  intros u i d w.
  unfold App.fetch, write_files, path_exists, read_file, rmtree, bind, lift, log,
    modify, ret, raise, gets.
  destruct (App.streams env) as [by_itag|e]; [|done].
  destruct (int_of_string i) as [n|e]; [|done].
  destruct (by_itag n) as [stream|]; [|done].
  destruct (App.stream_download env stream d) as [written [output_path|e]]; simpl.
  - assert (forall d', d' <> d ->
              alter (fun old => old ++ written) d (temp_dirs w) !! d' = temp_dirs w !! d')
      as Hother by (intros d' Hd'; by rewrite lookup_alter_ne).
    destruct output_path as [p|]; simpl; [|done].
    destruct (bool_decide (is_Some (file_content _ p))); simpl; [|done].
    destruct (file_content _ p); simpl; [|done].
    split; [done|]. split; [done|]. intros d' Hd'.
    by rewrite lookup_delete_ne, lookup_alter_ne.
  - split; [done|]. split; [done|]. intros d' Hd'. by rewrite lookup_alter_ne.
Qed.

Lemma production_fetch_frame (env : Production.DownloadEnv) :
  fetch_frame (Production.fetch env).
Proof.
  intros u i d w.
  unfold Production.fetch, write_files, path_exists, read_file, rmtree, bind, lift, log,
    modify, ret, raise, gets.
  destruct (Production.extract_info env u i d) as [written [[]|e]]; simpl.
  - assert (forall d', d' <> d ->
              alter (fun old => old ++ written) d (temp_dirs w) !! d' = temp_dirs w !! d')
      as Hother by (intros d' Hd'; by rewrite lookup_alter_ne).
    destruct (Production.find_downloaded d _) as [p|]; simpl; [|done].
    destruct (bool_decide (is_Some (file_content _ p))); simpl; [|done].
    destruct (file_content _ p); simpl; [|done].
    split; [done|]. split; [done|]. intros d' Hd'.
    by rewrite lookup_delete_ne, lookup_alter_ne.
  - split; [done|]. split; [done|]. intros d' Hd'. by rewrite lookup_alter_ne.
Qed.

(** A request is answered before a directory is made, with the world as it
    was, or it is accepted and the innermost [try] runs in a new directory. *)
Lemma download_with_cases (fetch : string -> string -> string -> M Response)
    (offered : outcome string) (url itag : option string) (w : World) :
  (exists r, download_with fetch offered url itag w = (Returned r, w)
             /\ (status r = 400 \/ status r = 500)%Z)
  \/ (exists u i d, accepted url itag u i /\ offered = Returned d
        /\ temp_dirs w !! d = None).
Proof.
  unfold download_with, try_except, bind, mkdtemp, rmtree, modify, raise, ret.
  destruct (PyStr.truthy_opt url) eqn:Hu; simpl; [|left; eexists; split; [done|by left]].
  destruct (PyStr.truthy_opt itag) eqn:Hi; simpl; [|left; eexists; split; [done|by left]].
  destruct url as [u|]; [|done]. destruct itag as [i|]; [|done]. simpl in *.
  destruct (is_valid_youtube_url u) eqn:Hv; simpl; [|left; eexists; split; [done|by left]].
  destruct offered as [d|e]; [|left; eexists; split; [done|by right]].
  destruct (temp_dirs w !! d) eqn:Hd; [left; eexists; split; [done|by right]|].
  right. by exists u, i, d.
Qed.

(** X18. What a run of [download] may change, in both files and for any
    behaviour of the collaborator.  The cache is never touched; at most one
    call is made, the download of the URL and format of the request, and
    only for a request that passed the two checks; no directory other than
    the one [mkdtemp] makes is changed; and a request that is answered
    before that leaves the world as it was. *)
Theorem download_frame :
  (forall env : App.DownloadEnv, fetch_frame (App.fetch env))
  /\ (forall env : Production.DownloadEnv, fetch_frame (Production.fetch env))
  /\ (forall (fetch : string -> string -> string -> M Response),
        fetch_frame fetch ->
        forall (offered : outcome string) (url itag : option string) (w : World),
          let w' := (download_with fetch offered url itag w).2 in
          cache_dir w' = cache_dir w
          /\ (calls w' = calls w
              \/ exists u i, accepted url itag u i /\ calls w' = calls w ++ [CallFetch u i])
          /\ (forall d', offered <> Returned d' -> temp_dirs w' !! d' = temp_dirs w !! d')
          /\ ((forall u i, ~ accepted url itag u i) -> w' = w)).
Proof.
  split; [exact app_fetch_frame|]. split; [exact production_fetch_frame|].
  intros fetch Hframe offered url itag w.
  destruct (download_with_cases fetch offered url itag w)
    as [(r & Hrun & _)|(u & i & d & Hacc & Hoff & Hd)].
  { rewrite Hrun. simpl. split; [done|]. split; [by left|]. done. }
  rewrite (download_with_accepted fetch offered url itag u i d w Hacc Hoff Hd).
  destruct (Hframe u i d (prepared d w)) as (Hc & Hl & Ht).
  assert (forall d', offered <> Returned d' -> d' <> d) as Hne.
  { intros d' Hd' ->. by apply Hd'. }
  destruct (fetch u i d (prepared d w)) as [[r|e] w1]; simpl in *.
  - split; [done|]. split; [right; by exists u, i|]. split.
    + intros d' Hd'%Hne. rewrite Ht by done. by apply lookup_insert_ne.
    + intros Hno. by destruct (Hno u i).
  - split; [done|]. split; [right; by exists u, i|]. split.
    + intros d' Hd'%Hne. rewrite lookup_delete_ne by done. rewrite Ht by done.
      by apply lookup_insert_ne.
    + intros Hno. by destruct (Hno u i).
Qed.

(** X19. A download that raises leaves no trace on disk.  When the
    innermost [try] raises, in either file and at whatever point, the request
    is answered 500 with the message of the error, and the directories are
    exactly those there were before the request: the one made for it is
    removed with all that was written into it. *)
Theorem download_raise_restores (fetch : string -> string -> string -> M Response)
    (offered : outcome string) (url itag : option string) (u i d e : string)
    (w w1 : World) :
  fetch_frame fetch ->
  accepted url itag u i -> offered = Returned d -> temp_dirs w !! d = None ->
  fetch u i d (prepared d w) = (Raised e, w1) ->
  exists w', download_with fetch offered url itag w
             = (Returned (error_response ("Error downloading video: " +:+ e) 500), w')
    /\ temp_dirs w' = temp_dirs w /\ cache_dir w' = cache_dir w.
Proof.
  intros Hframe Hacc Hoff Hd Hrun.
  rewrite (download_with_accepted fetch offered url itag u i d w Hacc Hoff Hd), Hrun.
  eexists. split; [done|].
  destruct (Hframe u i d (prepared d w)) as (Hc & _ & Ht). rewrite Hrun in Hc, Ht.
  simpl in *. split; [|done].
  apply map_eq. intros k. destruct (decide (k = d)) as [->|Hk].
  - by rewrite lookup_delete_eq.
  - rewrite lookup_delete_ne by done. rewrite Ht by done. by rewrite lookup_insert_ne.
Qed.

Lemma int_of_string_letter (a : ascii) (s : string) :
  PyStr.isalpha a = true -> exists e, int_of_string (String a s) = Raised e.
Proof.
  intros Ha.
  assert (c_isspace a = false /\ PyStr.isdigit a = false /\ a <> "-"%char
          /\ a <> "+"%char /\ a <> "_"%char) as (Hsp & Hd & Hm & Hp & Hu).
  { destruct a as [[] [] [] [] [] [] [] []]; vm_compute in Ha; try discriminate Ha;
      repeat split; discriminate. }
  destruct (strip_with_keeps_head c_isspace a s Hsp) as (s' & Hs).
  unfold int_of_string. rewrite Hs.
  assert (int_digits (String a s') 0 false = None) as Hnone.
  { simpl. rewrite Hd. by rewrite andb_false_r. }
  destruct a as [[] [] [] [] [] [] [] []];
    try (rewrite Hnone; by eexists); by (exfalso; auto).
Qed.

(** X20. [download] of [app.py] given a format that is not a number.  For
    an [itag] parameter of at most 4300 characters that [int] rejects, as it
    rejects every text that starts with a letter (the format identifiers of
    the other back end, [bestaudio], [hd720]), the request is answered 500
    with the message of [int], after the collaborator was set up and before
    any stream is looked up; the new directory is removed. *)
Theorem app_download_bad_itag (env : App.DownloadEnv) (url itag : option string)
    (u i d e : string) (by_itag : Z -> option App.Stream) (w : World) :
  accepted url itag u i -> App.offered_dir env = Returned d -> temp_dirs w !! d = None ->
  App.streams env = Returned by_itag ->
  (String.length i <= 4300)%nat -> int_of_string i = Raised e ->
  App.download env url itag w
  = (Returned (error_response ("Error downloading video: " +:+ e) 500),
     logged (CallFetch u i) w)
  /\ forall (a : ascii) (s : string),
       PyStr.isalpha a = true -> exists e', int_of_string (String a s) = Raised e'.
Proof.
  intros Hacc Hoff Hd Hs _ Hi. split; [|exact int_of_string_letter].
  unfold App.download.
  rewrite (download_with_accepted _ _ url itag u i d w Hacc Hoff Hd).
  unfold App.fetch, bind, lift, log, modify. rewrite Hs, Hi. simpl.
  unfold removed, logged, prepared, set_temp_dirs. simpl.
  do 2 f_equal. apply map_eq. intros k. destruct (decide (k = d)) as [->|Hk].
  - by rewrite lookup_delete_eq.
  - by rewrite lookup_delete_ne, lookup_insert_ne.
Qed.

Lemma find_finished_by_name (written : list (string * string)) (name data : string) :
  List.find (fun f => negb (PyStr.endswith ".part" f.1)) written = Some (name, data) ->
  List.find (fun f => bool_decide (f.1 = name)) written = Some (name, data).
Proof.
  induction written as [|[n c] written IH]; simpl; [done|].
  destruct (PyStr.endswith ".part" n) eqn:Hn; simpl.
  - intros Hfound. rewrite bool_decide_eq_false_2; [by apply IH|].
    intros ->. apply find_some in Hfound as [_ Hp]. simpl in Hp. by rewrite Hn in Hp.
  - intros [= -> ->]. by rewrite bool_decide_eq_true_2.
Qed.

(** X21. A download that succeeds.  In [app.py], when the [itag]
    parameter, of at most 4300 characters, is a numeral [int] reads, the
    stream of that itag exists and the file [stream.download] names is in
    the directory, the response is that file, under its name and with the
    MIME type of its extension.  In [production.py] the file sent is the
    first of the listing of the directory whose name does not end in
    [.part].  In both, the response has status 200 and the world afterwards
    differs from the world before by the logged call only: the directory is
    gone. *)
Theorem download_success :
  (forall (env : App.DownloadEnv) (url itag : option string) (u i d : string) (w : World)
          (by_itag : Z -> option App.Stream) (n : Z) (stream : App.Stream)
          (written : list (string * string)) (name data : string),
     accepted url itag u i -> App.offered_dir env = Returned d -> temp_dirs w !! d = None ->
     App.streams env = Returned by_itag ->
     (String.length i <= 4300)%nat -> int_of_string i = Returned n ->
     by_itag n = Some stream ->
     App.stream_download env stream d = (written, Returned (Some (d, name))) ->
     List.find (fun f => bool_decide (f.1 = name)) written = Some (name, data) ->
     App.download env url itag w
     = (Returned (send_file data name (mime_type_of name)), logged (CallFetch u i) w))
  /\ (forall (env : Production.DownloadEnv) (url format_id : option string) (u i d : string)
             (w : World) (written : list (string * string)) (name data : string),
        accepted url format_id u i -> Production.offered_dir env = Returned d ->
        temp_dirs w !! d = None ->
        Production.extract_info env u i d = (written, Returned tt) ->
        List.find (fun f => negb (PyStr.endswith ".part" f.1)) written = Some (name, data) ->
        Production.download env url format_id w
        = (Returned (send_file data name (mime_type_of name)), logged (CallFetch u i) w)
        /\ PyStr.endswith ".part" name = false).
Proof.
  split.
  - intros env url itag u i d w by_itag n stream written name data
      Hacc Hoff Hd Hs _ Hn Hq Hdl Hfound.
    unfold App.download.
    rewrite (download_with_accepted _ _ url itag u i d w Hacc Hoff Hd).
    rewrite (app_fetch_success env u i d (prepared d w) by_itag n stream written name data);
      try done; [|by (simpl; rewrite lookup_insert_eq)].
    unfold removed, written_to, logged, prepared, set_temp_dirs. simpl.
    do 2 f_equal. by apply removed_written_prepared.
  - intros env url format_id u i d w written name data Hacc Hoff Hd Hx Hfound.
    split; [|apply find_some in Hfound as [_ Hp]; by apply negb_true_iff in Hp].
    unfold Production.download.
    rewrite (download_with_accepted _ _ url format_id u i d w Hacc Hoff Hd).
    destruct (production_fetch_success env u i d (prepared d w) written name data)
      as (data' & Hrun); try done; [by (simpl; rewrite lookup_insert_eq)|].
    assert (data' = data) as ->.
    { pose proof (find_finished_by_name written name data Hfound) as Hbyname.
      revert Hrun.
      unfold Production.fetch, write_files, path_exists, read_file, rmtree, bind, lift, log,
        modify, ret, raise, gets.
      rewrite Hx. simpl. rewrite lookup_alter_eq, lookup_insert_eq. simpl.
      unfold Production.find_downloaded. rewrite Hfound. simpl.
      unfold file_content. simpl. rewrite lookup_alter_eq, lookup_insert_eq. simpl.
      rewrite Hbyname. simpl. rewrite lookup_alter_eq, lookup_insert_eq. simpl.
      rewrite Hbyname. simpl. by intros [= ->]. }
    rewrite Hrun.
    unfold removed, written_to, logged, prepared, set_temp_dirs. simpl.
    do 2 f_equal. by apply removed_written_prepared.
Qed.

(** ** Edges of the two handlers *)

Lemma fullmatch_Void (s : string) : Re.fullmatch Re.Void s = false.
Proof. induction s as [|a s IH]; [done|]. exact IH. Qed.

Lemma prefix_match_Void (s : string) : Re.prefix_match Re.Void s = false.
Proof. induction s as [|a s IH]; [done|]. exact IH. Qed.

(** X22. [download] validates the URL as it is received, without the
    [strip] of [get_video_info]: a URL that starts with white space never
    passes validation, and [download] answers 400 to it without making a
    directory. *)
Theorem download_does_not_strip (a : ascii) (s : string) :
  PyStr.isspace a = true ->
  is_valid_youtube_url (String a s) = false
  /\ (forall (fetch : string -> string -> string -> M Response) (offered : outcome string)
             (itag : option string) (w : World),
        rejects (download_with fetch offered (Some (String a s)) itag) w 400).
Proof.
  intros Ha.
  assert (is_valid_youtube_url (String a s) = false) as Hv.
  { unfold is_valid_youtube_url, Re.match_to_end.
    change (Re.prefix_match youtube_regex (String a s))
      with (Re.nullable youtube_regex || Re.prefix_match (Re.deriv a youtube_regex) s).
    change (Re.fullmatch youtu_be_regex (String a s))
      with (Re.fullmatch (Re.deriv a youtu_be_regex) s).
    change (Re.fullmatch (Re.Cat youtu_be_regex ?c) (String a s))
      with (Re.fullmatch (Re.deriv a (Re.Cat youtu_be_regex c)) s).
    assert (Re.nullable youtube_regex = false) as -> by (vm_compute; reflexivity).
    assert (Re.deriv a youtube_regex = Re.Void
            /\ Re.deriv a youtu_be_regex = Re.Void
            /\ Re.deriv a (Re.Cat youtu_be_regex
                                  (Re.Cls (fun a => bool_decide (a = "010"%char))))
               = Re.Void) as (-> & -> & ->).
    { destruct a as [[] [] [] [] [] [] [] []]; vm_compute in Ha; try discriminate Ha;
        vm_compute; repeat split; reflexivity. }
    by rewrite prefix_match_Void, fullmatch_Void. }
  split; [done|].
  intros fetch offered itag w.
  unfold rejects, download_with, try_except, ret.
  destruct (negb (PyStr.truthy_opt (Some (String a s))) || negb (PyStr.truthy_opt itag));
    [by eexists|].
  change (default "" (Some (String a s))) with (String a s).
  rewrite Hv. simpl. by eexists.
Qed.

(** X23. Bodies of [get_video_info] that are JSON but not what the handler
    expects end in the outer handler: a list that has the item ["url"], a
    string that contains [url], a number other than zero or [true], and an
    object whose [url] is not a string, are answered 500, with the world as
    it was. *)
Theorem malformed_body_500 `{!PyLib} {A} (resolve : string -> A -> outcome VideoInfo)
    (env : InfoEnv A) (req : InfoRequest) (data : json) (w : World) :
  is_json req = true -> get_json req = Returned data ->
  match data with
  | JList l => JStr "url" ∈ l
  | JStr s => PyStr.contains "url" s = true
  | JNum q => ~ (q == 0)%Q
  | JBool b => b = true
  | JDict items => exists v, assoc "url" items = Some v
                             /\ match v with JStr _ => False | _ => True end
  | JNull => False
  end ->
  rejects (get_video_info_with resolve env req) w 500.
Proof.
  intros Hj Hg Hdata.
  unfold rejects, get_video_info_with, try_except, bind, lift, ret. rewrite Hj, Hg. simpl.
  destruct data as [|b|q|s|l|items]; simpl.
  - done.
  - subst b. simpl. by eexists.
  - assert (Qeq_bool q 0 = false) as ->.
    { apply not_true_iff_false. by rewrite Qeq_bool_iff. }
    simpl. by eexists.
  - assert (PyStr.truthy s = true) as -> by (by destruct s).
    simpl. rewrite Hdata. simpl. by eexists.
  - assert (bool_decide (l <> []) = true) as ->.
    { apply bool_decide_eq_true. intros ->. by apply not_elem_of_nil in Hdata. }
    simpl.
    assert (existsb (fun v => match v with
                              | JStr s => bool_decide (s = "url")
                              | _ => false
                              end) l = true) as ->.
    { apply existsb_exists. exists (JStr "url"). split; [by apply list_elem_of_In|done]. }
    simpl. by eexists.
  - destruct Hdata as (v & Hv & Hstr).
    assert (bool_decide (items <> []) = true) as ->.
    { apply bool_decide_eq_true. intros ->. done. }
    simpl. rewrite Hv. simpl. destruct v; try done; simpl; by eexists.
Qed.

Lemma take_class_spec (p : ascii -> bool) (n : nat) (s m : string) :
  Re.take_class p n s = Some m
  <-> String.length m = n /\ str_forall p m = true /\ exists post, s = m +:+ post.
Proof.
  revert s m. induction n as [|n IH]; intros s m; simpl.
  - split.
    + intros [= <-]. split; [done|]. split; [done|]. by exists s.
    + intros (Hl & _ & _). by destruct m.
  - destruct s as [|a s].
    + split; [done|]. intros (Hl & _ & post & Hs). destruct m; [done|].
      by rewrite append_cons in Hs.
    + destruct (p a) eqn:Ha.
      * destruct (Re.take_class p n s) as [m'|] eqn:Ht; simpl.
        -- apply IH in Ht as (Hl & Hp & post & ->). split.
           ++ intros [= <-]. simpl. rewrite Hl, Ha, Hp. split; [done|]. split; [done|].
              exists post. by rewrite append_cons.
           ++ intros (Hl' & Hp' & post' & Hs). destruct m as [|b m]; [done|].
              rewrite append_cons in Hs. injection Hs as <- Hs.
              simpl in Hl', Hp'. apply andb_true_iff in Hp' as [_ Hp'].
              assert (Re.take_class p n (m' +:+ post) = Some m) as Hm.
              { apply IH. split; [lia|]. split; [done|]. by exists post'. }
              assert (Re.take_class p n (m' +:+ post) = Some m') as Hm'.
              { apply IH. split; [done|]. split; [done|]. by exists post. }
              congruence.
        -- split; [done|]. intros (Hl' & Hp' & post' & Hs). destruct m as [|b m]; [done|].
           rewrite append_cons in Hs. injection Hs as <- Hs.
           simpl in Hl', Hp'. apply andb_true_iff in Hp' as [_ Hp'].
           assert (Re.take_class p n s = Some m) as Hm.
           { apply IH. split; [lia|]. split; [done|]. by exists post'. }
           congruence.
      * split; [done|]. intros (Hl' & Hp' & post' & Hs). destruct m as [|b m]; [done|].
        rewrite append_cons in Hs. injection Hs as <- Hs.
        simpl in Hp'. by rewrite Ha in Hp'.
Qed.

Lemma search_class_unfold (p : ascii -> bool) (n : nat) (s : string) :
  Re.search_class p n s
  = match Re.take_class p n s with
    | Some m => Some m
    | None => match s with
              | EmptyString => None
              | String _ s' => Re.search_class p n s'
              end
    end.
Proof. by destruct s. Qed.

Lemma search_class_found (p : ascii -> bool) (n : nat) (s m : string) :
  Re.search_class p n s = Some m ->
  exists pre post,
    s = pre +:+ m +:+ post /\ String.length m = n /\ str_forall p m = true
    /\ forall pre' m' post',
         s = pre' +:+ m' +:+ post' -> String.length m' = n -> str_forall p m' = true ->
         (String.length pre <= String.length pre')%nat.
Proof.
  revert m. induction s as [|a s IH]; intros m; rewrite search_class_unfold.
  - destruct (Re.take_class p n EmptyString) as [m'|] eqn:Ht; [|done].
    intros [= ->]. apply take_class_spec in Ht as (Hl & Hp & post & Hs).
    exists EmptyString, post. repeat split; try done. intros; simpl; lia.
  - destruct (Re.take_class p n (String a s)) as [m'|] eqn:Ht.
    + intros [= ->]. apply take_class_spec in Ht as (Hl & Hp & post & Hs).
      exists EmptyString, post. repeat split; try done. intros; simpl; lia.
    + intros (pre & post & -> & Hl & Hp & Hleft)%IH.
      exists (String a pre), post. rewrite append_cons. repeat split; try done.
      intros pre' m' post' Hs Hl' Hp'. destruct pre' as [|b pre'].
      * exfalso. assert (Re.take_class p n (String a (pre +:+ m +:+ post)) = Some m') as Hm.
        { apply take_class_spec. split; [done|]. split; [done|]. by exists post'. }
        congruence.
      * rewrite append_cons in Hs. injection Hs as <- Hs. simpl.
        apply le_n_S, (Hleft pre' m' post'); done.
Qed.

Lemma search_class_none (p : ascii -> bool) (n : nat) (s : string) :
  Re.search_class p n s = None ->
  forall pre m post,
    s = pre +:+ m +:+ post -> String.length m = n -> str_forall p m = true -> False.
Proof.
  induction s as [|a s IH]; rewrite search_class_unfold;
    destruct (Re.take_class p n _) as [m'|] eqn:Ht; try done.
  - intros _ pre m post Hs Hl Hp. destruct pre; [|by rewrite append_cons in Hs].
    assert (Re.take_class p n EmptyString = Some m) as Hm; [|congruence].
    apply take_class_spec. split; [done|]. split; [done|]. by exists post.
  - intros Hnone pre m post Hs Hl Hp. destruct pre as [|b pre].
    + assert (Re.take_class p n (String a s) = Some m) as Hm; [|congruence].
      apply take_class_spec. split; [done|]. split; [done|]. by exists post.
    + rewrite append_cons in Hs. injection Hs as <- Hs.
      by apply (IH Hnone pre m post).
Qed.

(** X24. The last resort of [extract_video_id].  For a URL without
    [youtu.be] whose query has no [v], whose path has no [embed] and does not
    end in a segment of 11 characters, the identifier is the leftmost run of
    11 letters, digits, [_] or [-] anywhere in the URL, and [None] when the
    URL has no such run. *)
Theorem last_resort_leftmost `{!PyLib} (url : string) (parsed : ParseResult) :
  PyStr.contains "youtu.be" url = false ->
  urlparse url = Some parsed ->
  parse_qs (query parsed) !! "v" = None ->
  PyStr.contains "embed" (path parsed) = false ->
  String.length
    (PyStr.last_piece (filter (fun s => PyStr.truthy s = true)
                              (PyStr.split "/" (path parsed)))) <> 11%nat ->
  (forall m, extract_video_id url = Some m ->
     exists pre post,
       url = pre +:+ m +:+ post /\ String.length m = 11%nat
       /\ str_forall Re.is_id_char m = true
       /\ forall pre' m' post',
            url = pre' +:+ m' +:+ post' -> String.length m' = 11%nat ->
            str_forall Re.is_id_char m' = true ->
            (String.length pre <= String.length pre')%nat)
  /\ (extract_video_id url = None ->
      forall pre m post,
        url = pre +:+ m +:+ post -> String.length m = 11%nat ->
        str_forall Re.is_id_char m = true -> False).
Proof.
  intros Hshort Hparse Hv Hembed Hlast.
  assert (extract_video_id url = Re.search_class Re.is_id_char 11 url) as ->.
  { unfold extract_video_id. rewrite Hshort, Hparse, Hv, Hembed.
    destruct (PyStr.contains "youtube.com" (netloc parsed));
      (rewrite (proj2 (Nat.eqb_neq _ _) Hlast), andb_false_r; done). }
  split; [apply search_class_found | apply search_class_none].
Qed.

(** ** The further properties at concrete inputs *)

Lemma itag_round_trip_witness : int_of_string (pretty 22%Z) = Returned 22%Z.
Proof. apply itag_round_trip. vm_compute. reflexivity. Defined.

Lemma cached_info_hit_witness :
  exists items ts,
    cache_dir Scenario.cached_world
      !! ("https://www.youtube.com/watch?v=dQw4w9WgXcQ" +:+ ".json")
    = Some (Document (JDict items))
    /\ assoc "timestamp" items = Some ts
    /\ match ts with JNum _ | JBool _ => True | _ => False end
    /\ assoc "info" items = Some Scenario.cached_info.
Proof.
  destruct (cached_info_hit 1000 "https://www.youtube.com/watch?v=dQw4w9WgXcQ"
              Scenario.cached_world) as [H _].
  apply H; [discriminate|]. vm_compute. reflexivity.
Defined.

Lemma cache_info_other_key_witness :
  (get_cached_info 1000 "b" (cache_info Written 900 "a" JNull Scenario.cached_world).2).1
  = (get_cached_info 1000 "b" Scenario.cached_world).1.
Proof. apply cache_info_other_key. discriminate. Defined.

Lemma get_video_info_frame_witness :
  cache_dir (@Production.get_video_info RefLib.lib Sample.probe_raises
               (Sample.json_request Sample.short_url) Sample.empty_world).2
  = cache_dir Sample.empty_world.
Proof.
  destruct (@get_video_info_frame RefLib.lib _ Production.resolve Sample.probe_raises
              (Sample.json_request Sample.short_url) Sample.empty_world)
    as (r & w' & Hrun & _ & Hcache & _).
  unfold Production.get_video_info. rewrite Hrun. apply Hcache.
  vm_compute in Hrun. injection Hrun as <- _. discriminate.
Defined.

Lemma get_video_info_calls_witness :
  let w' := (@Production.get_video_info RefLib.lib Sample.probe_raises
               (Sample.json_request Sample.short_url) Sample.empty_world).2 in
  calls w' = [CallExtractVideoId Sample.short_url;
              CallProbe (clean_url_of Scenario.video_id)].
Proof.
  destruct (@get_video_info_calls RefLib.lib _ Production.resolve Sample.probe_raises
              (Sample.json_request Sample.short_url) Sample.short_url Sample.empty_world)
    as [H|(_ & _ & _ & _ & [H|(v & Hv & _ & H & _)])].
  - split; [reflexivity|]. eexists. split; reflexivity.
  - vm_compute in H. discriminate H.
  - vm_compute in H. discriminate H.
  - vm_compute in Hv. injection Hv as <-. vm_compute in H. vm_compute. exact H.
Defined.

Lemma cached_answer_witness :
  exists s, has_url (Sample.json_request Sample.short_url) s
    /\ @Production.get_video_info RefLib.lib Sample.probe_raises
         (Sample.json_request Sample.short_url) Scenario.cached_world
       = (Returned (jsonify Scenario.cached_info),
          logged (CallExtractVideoId (PyStr.strip s)) Scenario.cached_world).
Proof.
  apply (@cached_answer RefLib.lib _ Production.resolve Sample.probe_raises
           (Sample.json_request Sample.short_url) Scenario.video_id Scenario.cached_world).
  - exists Sample.short_url. split.
    + split; [reflexivity|]. eexists. split; reflexivity.
    + repeat split; vm_compute; reflexivity.
  - vm_compute. reflexivity.
Defined.

Lemma second_request_served_from_cache_witness :
  let first := @App.get_video_info RefLib.lib Scenario.app_resolves
                 (Sample.json_request Sample.short_url) Sample.empty_world in
  first.1 = Returned (jsonify (json_of_video_info
                                 (mkVideoInfo (App.yt_title Scenario.app_answer)
                                    (App.thumbnail_url Scenario.app_answer)
                                    (App.resolve_formats Scenario.app_answer))))
  /\ exists s', has_url (Sample.json_request Scenario.timed_url) s'
       /\ @App.get_video_info RefLib.lib Scenario.app_fails
            (Sample.json_request Scenario.timed_url) first.2
          = (first.1, logged (CallExtractVideoId (PyStr.strip s')) first.2).
Proof.
  apply (@second_request_served_from_cache RefLib.lib _ App.resolve
           Scenario.app_resolves Scenario.app_fails
           (Sample.json_request Sample.short_url) (Sample.json_request Scenario.timed_url)
           Scenario.video_id Scenario.app_answer).
  - exists Sample.short_url. split.
    + split; [reflexivity|]. eexists. split; reflexivity.
    + repeat split; vm_compute; reflexivity.
  - vm_compute. reflexivity.
  - reflexivity.
  - reflexivity.
  - vm_compute. discriminate.
  - reflexivity.
  - exists Scenario.timed_url. split.
    + split; [reflexivity|]. eexists. split; reflexivity.
    + repeat split; vm_compute; reflexivity.
  - vm_compute. reflexivity.
Defined.

Lemma get_video_info_strip_witness :
  @Production.get_video_info RefLib.lib Sample.probe_raises
    (Sample.json_request Sample.short_url) Sample.empty_world
  = @Production.get_video_info RefLib.lib Sample.probe_raises
      (Sample.json_request ("  " +:+ Sample.short_url +:+ " ")) Sample.empty_world.
Proof.
  apply (@get_video_info_strip RefLib.lib _ Production.resolve Sample.probe_raises
           (Sample.json_request ("  " +:+ Sample.short_url +:+ " "))
           (Sample.json_request Sample.short_url)
           ("  " +:+ Sample.short_url +:+ " ")).
  - split; [reflexivity|]. eexists. split; reflexivity.
  - split; [reflexivity|]. eexists. split; [reflexivity|]. vm_compute. reflexivity.
Defined.

Lemma is_valid_youtube_url_ignores_case_witness :
  is_valid_youtube_url "HTTPS://YOUTU.BE/dQw4w9WgXcQ"
  = is_valid_youtube_url "https://youtu.be/DQW4W9WGXCQ".
Proof. apply is_valid_youtube_url_ignores_case. vm_compute. reflexivity. Defined.

Lemma watch_url_valid_witness :
  is_valid_youtube_url ("https://www.youtube.com/watch?v=" +:+ "dQw4w9WgXcQ" +:+ "&t=42s")
  = true.
Proof.
  apply watch_url_valid.
  - apply list_elem_of_In. vm_compute. repeat (first [left; reflexivity | right]).
  - reflexivity.
  - vm_compute. reflexivity.
Defined.

Lemma short_url_identified_witness :
  @identifies RefLib.lib (Sample.json_request Sample.short_url) Scenario.video_id.
Proof.
  apply (@short_url_identified RefLib.lib Scenario.video_id EmptyString
           (Sample.json_request Sample.short_url)).
  - reflexivity.
  - vm_compute. reflexivity.
  - by left.
  - split; [reflexivity|]. eexists. split; reflexivity.
Defined.

Lemma no_formats_witness :
  App.resolve_formats (App.mkYouTube "Sample" "" [Scenario.stream_audio] []) = [].
Proof.
  destruct no_formats as [H _]. apply H. split; [reflexivity|].
  constructor; [|constructor]. intros Hsel.
  apply priority_recognized in Hsel. vm_compute in Hsel. lia.
Defined.

Lemma sort_formats_stable_witness :
  sort_formats [Scenario.label_1080; Scenario.label_360]
  = [Scenario.label_1080; Scenario.label_360].
Proof.
  destruct (sort_formats_stable [Scenario.label_1080; Scenario.label_360]) as (_ & H & _).
  apply H. repeat constructor.
Defined.

Lemma download_frame_witness :
  cache_dir (Production.download Sample.production_succeeds (Some Sample.short_url)
               (Some "22") Scenario.cached_world).2
  = cache_dir Scenario.cached_world.
Proof.
  destruct download_frame as (_ & Hproduction & Hframe).
  apply (Hframe _ (Hproduction Sample.production_succeeds)).
Defined.

Lemma download_raise_restores_witness :
  exists w', Production.download Sample.production_raises (Some Sample.short_url)
               (Some "22") Scenario.cached_world
             = (Returned (error_response
                            "Error downloading video: HTTP Error 403: Forbidden" 500), w')
    /\ temp_dirs w' = temp_dirs Scenario.cached_world
    /\ cache_dir w' = cache_dir Scenario.cached_world.
Proof.
  apply (download_raise_restores (Production.fetch Sample.production_raises)
           (Returned Sample.temp_dir) (Some Sample.short_url) (Some "22")
           Sample.short_url "22" Sample.temp_dir "HTTP Error 403: Forbidden"
           Scenario.cached_world
           (written_to Sample.temp_dir [("video.mp4.part", "partial")]
              (logged (CallFetch Sample.short_url "22")
                 (prepared Sample.temp_dir Scenario.cached_world)))).
  - apply production_fetch_frame.
  - repeat split; vm_compute; reflexivity.
  - reflexivity.
  - vm_compute. reflexivity.
  - by apply production_fetch_raise.
Defined.

Lemma app_download_bad_itag_witness :
  App.download Sample.app_no_stream (Some Sample.short_url) (Some "hd720") Sample.empty_world
  = (Returned (error_response
                 "Error downloading video: invalid literal for int() with base 10: 'hd720'"
                 500),
     logged (CallFetch Sample.short_url "hd720") Sample.empty_world).
Proof.
  apply (app_download_bad_itag Sample.app_no_stream (Some Sample.short_url) (Some "hd720")
           Sample.short_url "hd720" Sample.temp_dir
           "invalid literal for int() with base 10: 'hd720'" (fun _ => None)
           Sample.empty_world).
  - repeat split; vm_compute; reflexivity.
  - reflexivity.
  - vm_compute. reflexivity.
  - reflexivity.
  - simpl. lia.
  - vm_compute. reflexivity.
Defined.

Lemma download_success_witness :
  Production.download Sample.production_succeeds (Some Sample.short_url) (Some "22")
                      Sample.empty_world
  = (Returned (send_file "DATA" "video.mp4" "video/mp4"),
     logged (CallFetch Sample.short_url "22") Sample.empty_world).
Proof.
  destruct download_success as [_ H].
  apply (H Sample.production_succeeds (Some Sample.short_url) (Some "22")
           Sample.short_url "22" Sample.temp_dir Sample.empty_world
           [("video.mp4", "DATA")] "video.mp4" "DATA").
  - repeat split; vm_compute; reflexivity.
  - reflexivity.
  - vm_compute. reflexivity.
  - reflexivity.
  - vm_compute. reflexivity.
Defined.

Lemma download_does_not_strip_witness :
  is_valid_youtube_url (" " +:+ Sample.short_url) = false.
Proof. apply (download_does_not_strip " " Sample.short_url). reflexivity. Defined.

Lemma malformed_body_500_witness :
  rejects (@Production.get_video_info RefLib.lib Sample.probe_raises
             (mkInfoRequest true (Returned (JList [JStr "url"]))))
          Sample.empty_world 500.
Proof.
  apply (@malformed_body_500 RefLib.lib _ Production.resolve Sample.probe_raises
           (mkInfoRequest true (Returned (JList [JStr "url"]))) (JList [JStr "url"])).
  - reflexivity.
  - reflexivity.
  - apply list_elem_of_In. by left.
Defined.

Lemma last_resort_leftmost_witness :
  exists pre post,
    "youtube.com/watch?list=dQw4w9WgXcQ" = pre +:+ Scenario.video_id +:+ post
    /\ str_forall Re.is_id_char Scenario.video_id = true.
Proof.
  destruct (@last_resort_leftmost RefLib.lib "youtube.com/watch?list=dQw4w9WgXcQ"
              (mkParseResult "" "youtube.com/watch" "list=dQw4w9WgXcQ")) as [H _].
  - vm_compute. reflexivity.
  - vm_compute. reflexivity.
  - vm_compute. reflexivity.
  - vm_compute. reflexivity.
  - vm_compute. lia.
  - destruct (H Scenario.video_id) as (pre & post & Hurl & _ & Hp & _).
    + vm_compute. reflexivity.
    + by exists pre, post.
Defined.
